(** * AI_Dungeon: the rules engine of [main.py]

    A shallow embedding of the state-transition engine of the text
    adventure ([apply_state_changes], [check_end_conditions]) and of one
    iteration of the turn loop of [main], followed by the properties of
    the specification that concern them.

    Python objects that the engine mutates (the state dictionary, the
    inventory list, the flags dictionary) live in an explicit store and
    are named by locations, so that the aliasing created by the shallow
    [state.copy()] is visible.  Data that is only read (the atoms decoded
    from the backend's JSON, the rule set) is passed by value. *)

From stdpp Require Import gmap strings list pretty.
From Stdlib Require Import ZArith Lia Ascii.
From Equations Require Import Equations.
From Equations.Prop Require Import Logic.

(** ** JSON values as Python sees them *)

(** A Python float: a NaN, an infinity, or the finite number [m * 2^e]. *)
Inductive pyfloat :=
  | FNan
  | FInf (negative : bool)
  | FFin (m e : Z).

(** What [json.loads] produces: [None], [bool], [int], [float], [str],
    [list] and [dict] with string keys (in insertion order). *)
#[warnings="-register-all"]
Inductive value :=
  | VNone
  | VBool (b : bool)
  | VInt (n : Z)
  | VFloat (f : pyfloat)
  | VStr (s : string)
  | VList (items : list value)
  | VDict (entries : list (string * value)).

(** Exceptions the modelled code can raise. *)
Inductive exn :=
  | TypeError
  | ValueError
  | KeyError
  | AttributeError
  | OverflowError.

Inductive outcome (A : Type) :=
  | Ok (a : A)
  | Raise (e : exn).
Arguments Ok {A} a.
Arguments Raise {A} e.

(** [d.get(k)] / [k in d] on a decoded JSON object: first binding of [k]. *)
Fixpoint dict_get (d : list (string * value)) (k : string) : option value :=
  match d with
  | [] => None
  | (k', v) :: d' => if String.eqb k' k then Some v else dict_get d' k
  end.

(** *** Equality

    [m1 * 2^e1 = m2 * 2^e2], decided on integers. *)
Definition dyadic_eqb (m1 e1 m2 e2 : Z) : bool :=
  let k := Z.min e1 e2 in
  (m1 * 2 ^ (e1 - k) =? m2 * 2 ^ (e2 - k))%Z.

(** Numbers compare by value across [bool], [int] and [float].  The only
    NaN the program ever holds is the single object [json.decoder.NaN],
    and containers compare with the identity shortcut, so NaN is found
    equal to itself by [in], [list.remove] and dictionary lookup. *)
Definition float_eqb (x y : pyfloat) : bool :=
  match x, y with
  | FNan, FNan => true
  | FInf a, FInf b => Bool.eqb a b
  | FFin m1 e1, FFin m2 e2 => dyadic_eqb m1 e1 m2 e2
  | _, _ => false
  end.

Definition as_number (v : value) : option pyfloat :=
  match v with
  | VBool b => Some (FFin (Z.b2z b) 0)
  | VInt n => Some (FFin n 0)
  | VFloat f => Some f
  | _ => None
  end.

(** [a == b] as the containers evaluate it ([PyObject_RichCompareBool]).
    Two dictionaries are equal when each binding of one has a binding
    with the same key and an equal value in the other. *)
Fixpoint py_eq (a b : value) {struct a} : bool :=
  match a, b with
  | VNone, VNone => true
  | VStr s, VStr t => String.eqb s t
  | VList l, VList l' =>
      (fix elementwise (l l' : list value) {struct l} : bool :=
         match l, l' with
         | [], [] => true
         | x :: r, y :: r' => py_eq x y && elementwise r r'
         | _, _ => false
         end) l l'
  | VDict d, VDict d' =>
      forallb (fun kv : string * value =>
                 existsb (fun kv' : string * value =>
                            String.eqb kv.1 kv'.1 && py_eq kv.2 kv'.2) d') d
      && forallb (fun kv' : string * value =>
                    existsb (fun kv : string * value =>
                               String.eqb kv.1 kv'.1 && py_eq kv.2 kv'.2) d) d'
  | VList _, _ | VDict _, _ | VNone, _ | VStr _, _ => false
  | _, _ =>
      match as_number a, as_number b with
      | Some x, Some y => float_eqb x y
      | _, _ => false
      end
  end.

(** [x in l] for a list [l]. *)
Definition list_contains (l : list value) (x : value) : bool :=
  existsb (fun e => py_eq e x) l.

(** [l.remove(x)]: drops the first element equal to [x]; [None] stands
    for the [ValueError] raised when there is none. *)
Fixpoint list_remove (l : list value) (x : value) : option (list value) :=
  match l with
  | [] => None
  | e :: r => if py_eq e x then Some r
              else match list_remove r x with
                   | Some r' => Some (e :: r')
                   | None => None
                   end
  end.

(** [hash(v)] succeeds on everything but lists and dictionaries. *)
Definition hashable (v : value) : bool :=
  match v with
  | VList _ | VDict _ => false
  | _ => true
  end.

(** *** [int(x)] and [str(x)]

    A string is read as the list of its characters, those with a code
    point below 256.  For a string [int] strips the white space at both
    ends, reads an optional sign and then decimal digits, where single
    underscores may separate digits; any other character makes the
    conversion fail.  So do more than 4300 digits: CPython refuses to
    convert between [int] and [str] beyond
    [sys.int_info.default_max_str_digits] digits, in both directions. *)
Definition is_space (c : ascii) : bool :=
  let n := nat_of_ascii c in
  ((9 <=? n)%nat && (n <=? 13)%nat) || (n =? 32)%nat || (n =? 133)%nat || (n =? 160)%nat.

Definition digit_of (c : ascii) : option Z :=
  let n := nat_of_ascii c in
  if ((48 <=? n)%nat && (n <=? 57)%nat)%bool then Some (Z.of_nat (n - 48)) else None.

Fixpoint lstrip (s : list ascii) : list ascii :=
  match s with
  | c :: r => if is_space c then lstrip r else s
  | [] => []
  end.

Definition strip (s : list ascii) : list ascii :=
  rev (lstrip (rev (lstrip s))).

Fixpoint parse_digits (s : list ascii) (acc : Z) (after_digit : bool) : option Z :=
  match s with
  | [] => if after_digit then Some acc else None
  | c :: r =>
      match digit_of c with
      | Some d => parse_digits r (acc * 10 + d)%Z true
      | None =>
          if (Ascii.eqb c "_" && after_digit)%bool then parse_digits r acc false else None
      end
  end.

Definition max_str_digits : Z := 4300.

Fixpoint count_digits (s : list ascii) : Z :=
  match s with
  | [] => 0
  | c :: r => (match digit_of c with Some _ => 1 | None => 0 end) + count_digits r
  end%Z.

(** The digits after the sign. *)
Definition read_digits (s : list ascii) : option Z :=
  if (max_str_digits <? count_digits s)%Z then None else parse_digits s 0 false.

Definition int_of_str (s : string) : option Z :=
  match strip (String.list_ascii_of_string s) with
  | c :: r =>
      if Ascii.eqb c "-" then Z.opp <$> read_digits r
      else if Ascii.eqb c "+" then read_digits r
      else read_digits (c :: r)
  | [] => None
  end.

(** [str(n)], [repr(n)] and an f-string that formats [n] raise
    [ValueError] for an integer of more than 4300 digits, that is, when
    [10 ^ 4300 <= |n|].  The first test is a shortcut that spares the
    power for the integers of everyday: below [2 ^ 14285] the second test
    decides, and [2 ^ 14284 < 10 ^ 4300] (see [int_printable_spec]). *)
Definition int_printable (n : Z) : bool :=
  if (Z.log2 (Z.abs n) <? 14284)%Z then true
  else (Z.abs n <? 10 ^ max_str_digits)%Z.

(** The text of a value shows every integer inside it. *)
Fixpoint printable (v : value) : bool :=
  match v with
  | VInt n => int_printable n
  | VList l => forallb printable l
  | VDict d =>
      (fix entries (d : list (string * value)) : bool :=
         match d with
         | [] => true
         | (_, x) :: r => printable x && entries r
         end) d
  | VNone | VBool _ | VFloat _ | VStr _ => true
  end.

(** A float is truncated towards zero. *)
Definition int_of_float (f : pyfloat) : outcome Z :=
  match f with
  | FNan => Raise ValueError
  | FInf _ => Raise OverflowError
  | FFin m e => Ok (if (0 <=? e)%Z then m * 2 ^ e else Z.quot m (2 ^ (- e)))%Z
  end.

Definition py_int (v : value) : outcome Z :=
  match v with
  | VBool b => Ok (Z.b2z b)
  | VInt n => Ok n
  | VFloat f => int_of_float f
  | VStr s => match int_of_str s with
              | Some n => Ok n
              | None => Raise ValueError
              end
  | VNone | VList _ | VDict _ => Raise TypeError
  end.

(** ** The rule set ([rules.json])

    The file is not part of the sources; its shape is the one the code
    reads: an integer limit, a JSON object of strings for the locks, and
    arrays of flag names for the end conditions. *)
Record end_conditions := EndConditions {
  MAX_TURNS : Z;
  LOSE_ANY_FLAGS : list string;
  WIN_ALL_FLAGS : list string
}.

Record rules := Rules {
  INVENTORY_LIMIT : Z;
  LOCKS : gmap string string;
  END_CONDITIONS : end_conditions;
  MAX_PARAGRAPHS : Z
}.

(** ** The store *)

Definition loc := nat.

(** The state dictionary, with the keys the program uses.  Each key may
    be missing; ["location"] holds any value, ["hp"] and ["turns"] hold an
    [int], ["inventory"] and ["flags"] hold references to a list object
    and to a dict object. *)
Record state_dict := StateDict {
  location : option value;
  hp : option Z;
  inventory : option loc;
  flags : option loc;
  turns : option Z
}.

(** What the program prints, without the wording. *)
Inductive event :=
  | InvalidStateChange (changes : value)
  | InvalidAtom (change : value)
  | MoveBlocked (target : value) (required_flag : string)
  | AddBlocked (item : value) (limit : Z)
  | UnknownAtom (atom : value)
  | BackendError
  | Narration (text : string) (max_paragraphs : Z).

(** A dict object whose keys are arbitrary hashable values, in insertion
    order (the flags). *)
Definition pydict := list (value * value).

Record world := World {
  states : gmap loc state_dict;
  lists : gmap loc (list value);
  dicts : gmap loc pydict;
  console : list event
}.

Definition empty_state : state_dict := StateDict None None None None None.

(** The object at a location.  The program only holds locations of
    objects it was given or has allocated; a location that holds nothing
    reads as an empty object. *)
Definition state_at (w : world) (l : loc) : state_dict := default empty_state (states w !! l).
Definition list_at (w : world) (l : loc) : list value := default [] (lists w !! l).
Definition dict_at (w : world) (l : loc) : pydict := default [] (dicts w !! l).

Definition set_state (l : loc) (s : state_dict) (w : world) : world :=
  World (<[l := s]> (states w)) (lists w) (dicts w) (console w).
Definition set_list (l : loc) (x : list value) (w : world) : world :=
  World (states w) (<[l := x]> (lists w)) (dicts w) (console w).
Definition set_dict (l : loc) (d : pydict) (w : world) : world :=
  World (states w) (lists w) (<[l := d]> (dicts w)) (console w).
Definition emit (e : event) (w : world) : world :=
  World (states w) (lists w) (dicts w) (console w ++ [e]).

(** [k in d], [d[k] = v] and [d.get(k)] on a dict object.  An assignment
    to a key that is present keeps the key and replaces the value. *)
Definition pydict_mem (d : pydict) (k : value) : bool :=
  existsb (fun kv => py_eq kv.1 k) d.

Fixpoint pydict_set (d : pydict) (k v : value) : pydict :=
  match d with
  | [] => [(k, v)]
  | (k', v') :: r => if py_eq k' k then (k', v) :: r else (k', v') :: pydict_set r k v
  end.

Fixpoint pydict_get (d : pydict) (k : value) : option value :=
  match d with
  | [] => None
  | (k', v') :: r => if py_eq k' k then Some v' else pydict_get r k
  end.

(** ** A monad for store and exceptions *)

Definition M (A : Type) : Type := world -> outcome A * world.

Definition ret {A} (a : A) : M A := fun w => (Ok a, w).
Definition raise {A} (e : exn) : M A := fun w => (Raise e, w).
Definition bind {A B} (m : M A) (k : A -> M B) : M B :=
  fun w => match m w with
           | (Ok a, w') => k a w'
           | (Raise e, w') => (Raise e, w')
           end.
Definition lift {A} (o : outcome A) : M A := fun w => (o, w).
Definition print (e : event) : M unit := fun w => (Ok tt, emit e w).

Declare Scope py_scope.
Delimit Scope py_scope with py.
Notation "x <- m ;; k" := (bind m (fun x => k))
  (at level 100, m at next level, right associativity) : py_scope.
Notation "m ;;; k" := (bind m (fun _ => k))
  (at level 100, right associativity) : py_scope.
Open Scope py_scope.

(** Reads and writes of the store. *)
Definition read_state (st : loc) : M state_dict := fun w => (Ok (state_at w st), w).
Definition write_state (st : loc) (s : state_dict) : M unit := fun w => (Ok tt, set_state st s w).
Definition read_list (l : loc) : M (list value) := fun w => (Ok (list_at w l), w).
Definition write_list (l : loc) (x : list value) : M unit := fun w => (Ok tt, set_list l x w).
Definition read_dict (l : loc) : M pydict := fun w => (Ok (dict_at w l), w).
Definition write_dict (l : loc) (d : pydict) : M unit := fun w => (Ok tt, set_dict l d w).

(** [state.copy()]: a new dict object with the same bindings, hence the
    same inventory and flags objects. *)
Definition dict_copy (st : loc) : M loc := fun w =>
  let l := fresh (dom (states w)) in (Ok l, set_state l (state_at w st) w).

(** The literals [[]] and [{}]. *)
Definition new_list : M loc := fun w =>
  let l := fresh (dom (lists w)) in (Ok l, set_list l [] w).
Definition new_dict : M loc := fun w =>
  let l := fresh (dom (dicts w)) in (Ok l, set_dict l [] w).

Definition with_location (v : value) (s : state_dict) : state_dict :=
  StateDict (Some v) (hp s) (inventory s) (flags s) (turns s).
Definition with_hp (n : Z) (s : state_dict) : state_dict :=
  StateDict (location s) (Some n) (inventory s) (flags s) (turns s).
Definition with_inventory (l : loc) (s : state_dict) : state_dict :=
  StateDict (location s) (hp s) (Some l) (flags s) (turns s).
Definition with_flags (l : loc) (s : state_dict) : state_dict :=
  StateDict (location s) (hp s) (inventory s) (Some l) (turns s).
Definition with_turns (n : Z) (s : state_dict) : state_dict :=
  StateDict (location s) (hp s) (inventory s) (flags s) (Some n).

(** [st[key]] raises [KeyError] on a missing key. *)
Definition getitem {A} (key : state_dict -> option A) (st : loc) : M A :=
  s <- read_state st ;;
  match key s with
  | Some a => ret a
  | None => raise KeyError
  end.

(** [st[key] = a]. *)
Definition setitem {A} (upd : A -> state_dict -> state_dict) (st : loc) (a : A) : M unit :=
  s <- read_state st ;; write_state st (upd a s).

(** [for x in xs: body(x)]. *)
Fixpoint for_each {A} (xs : list A) (body : A -> M unit) : M unit :=
  match xs with
  | [] => ret tt
  | x :: r => body x ;;; for_each r body
  end.

(** ** The engine *)

(** [target in rules["LOCKS"]] followed by [rules["LOCKS"][target]].  The
    membership test hashes [target]; the keys of the table are strings, so
    only a string can be found. *)
Definition locks_lookup (locks : gmap string string) (target : value)
  : outcome (option string) :=
  match target with
  | VStr t => Ok (locks !! t)
  | VList _ | VDict _ => Raise TypeError
  | _ => Ok None
  end.

(** The body of the [for change in changes] loop; [inventory_ref] and
    [flags_ref] are the objects bound to the local variables [inventory]
    and [flags].  A [continue] ends the body. *)
Definition apply_change (rules : rules) (new_state inventory_ref flags_ref : loc)
    (change : value) : M unit :=
  match change with
  | VDict d =>
      let atom := default VNone (dict_get d "atom") in
      if py_eq atom (VStr "move_to") then
        let target := default VNone (dict_get d "target") in
        lock <- lift (locks_lookup (LOCKS rules) target) ;;
        match lock with
        | Some required_flag =>
            fl <- read_dict flags_ref ;;
            if negb (pydict_mem fl (VStr required_flag))
            then print (MoveBlocked target required_flag)
            else setitem with_location new_state target
        | None => setitem with_location new_state target
        end
      else if py_eq atom (VStr "add_item") then
        let item := default VNone (dict_get d "item") in
        inv <- read_list inventory_ref ;;
        if (INVENTORY_LIMIT rules <=? Z.of_nat (length inv))%Z
        then print (AddBlocked item (INVENTORY_LIMIT rules))
        else if negb (list_contains inv item)
             then write_list inventory_ref (inv ++ [item])
             else ret tt
      else if py_eq atom (VStr "remove_item") then
        let item := default VNone (dict_get d "item") in
        inv <- read_list inventory_ref ;;
        if list_contains inv item
        then match list_remove inv item with
             | Some inv' => write_list inventory_ref inv'
             | None => raise ValueError
             end
        else ret tt
      else if py_eq atom (VStr "set_flag") then
        let flag := default VNone (dict_get d "flag") in
        if hashable flag
        then fl <- read_dict flags_ref ;; write_dict flags_ref (pydict_set fl flag (VBool true))
        else raise TypeError
      else if py_eq atom (VStr "hp_delta") then
        delta <- lift (py_int (default (VInt 0) (dict_get d "delta"))) ;;
        h <- getitem hp new_state ;;
        setitem with_hp new_state (h + delta)%Z ;;;
        h' <- getitem hp new_state ;;
        if (h' <=? 0)%Z then
          setitem with_hp new_state 0%Z ;;;
          f <- getitem flags new_state ;;
          fl <- read_dict f ;;
          write_dict f (pydict_set fl (VStr "hp_zero") (VBool true))
        else ret tt
      else print (UnknownAtom atom)
  | _ => print (InvalidAtom change)
  end.

(** [new_state.get('inventory', [])] and [new_state.get('flags', {})]: the
    object under the key, or a new empty one when the key is missing. *)
Definition get_inventory (st : loc) : M loc :=
  s <- read_state st ;;
  match inventory s with
  | Some l => ret l
  | None => new_list
  end.

Definition get_flags (st : loc) : M loc :=
  s <- read_state st ;;
  match flags s with
  | Some l => ret l
  | None => new_dict
  end.

Definition apply_state_changes (state : loc) (changes : value) (rules : rules) : M loc :=
  match changes with
  | VList [] => ret state
  | VList cs =>
      new_state <- dict_copy state ;;
      inventory_ref <- get_inventory new_state ;;
      flags_ref <- get_flags new_state ;;
      for_each cs (apply_change rules new_state inventory_ref flags_ref) ;;;
      setitem with_inventory new_state inventory_ref ;;;
      setitem with_flags new_state flags_ref ;;;
      ret new_state
  | _ => print (InvalidStateChange changes) ;;; ret state
  end.

(** ** End conditions *)

Inductive status := Lose | Win.

Inductive message :=
  | RanOutOfTime (max_turns : Z)
  | LosingCondition (flag : string)
  | Congratulations.

(** The first flag of [LOSE_ANY_FLAGS] that is in [flags]. *)
Fixpoint first_lose_flag (lose : list string) (fl : pydict) : option string :=
  match lose with
  | [] => None
  | flag :: r => if pydict_mem fl (VStr flag) then Some flag else first_lose_flag r fl
  end.

Definition check_end_conditions (state : loc) (rules : rules)
  : M (option status * option message) :=
  let end_rules := END_CONDITIONS rules in
  f <- getitem flags state ;;
  fl <- read_dict f ;;
  t <- getitem turns state ;;
  if (MAX_TURNS end_rules <=? t)%Z then ret (Some Lose, Some (RanOutOfTime (MAX_TURNS end_rules)))
  else
    match first_lose_flag (LOSE_ANY_FLAGS end_rules) fl with
    | Some flag => ret (Some Lose, Some (LosingCondition flag))
    | None =>
        let win_flags_met :=
          forallb (fun flag => pydict_mem fl (VStr flag)) (WIN_ALL_FLAGS end_rules) in
        if win_flags_met then ret (Some Win, Some Congratulations)
        else ret (None, None)
    end.

(** ** One turn of the loop in [main] *)

(** What the backend did; neither the transport nor the JSON parser is
    modelled. *)
Inductive backend :=
  | ChatFailed
  | NotJson
  | Decoded (content : value).

(** [call_ollama]: the decoded content, or [None] after reporting an error. *)
Definition call_ollama (b : backend) : M (option value) :=
  match b with
  | Decoded v => ret (Some v)
  | NotJson | ChatFailed => print BackendError ;;; ret None
  end.

(** [llm_response.get(key, dflt)]: only a dict has [get]. *)
Definition response_get (llm_response : option value) (key : string) (dflt : value)
  : outcome value :=
  match llm_response with
  | Some (VDict d) => Ok (default dflt (dict_get d key))
  | _ => Raise AttributeError
  end.

(** The part of the loop body that follows the engine commands: from
    [state["turns"] += 1] to the printing of the narration.  The
    transcript and the wording of the output are left out. *)
Definition main_turn (state : loc) (b : backend) (rules : rules) : M loc :=
  t <- getitem turns state ;;
  setitem with_turns state (t + 1)%Z ;;;
  llm_response <- call_ollama b ;;
  narration <- lift (response_get llm_response "narration"
                       (VStr "(The AI provided no narration.)")) ;;
  changes <- lift (response_get llm_response "state_change" (VList [])) ;;
  state' <- apply_state_changes state changes rules ;;
  match narration with
  | VStr text => print (Narration text (MAX_PARAGRAPHS rules)) ;;; ret state'
  | _ => raise TypeError
  end.

(** ** The save file and the rest of the loop in [main]

    [save.json] holds what [json.dump] wrote of a state dictionary.  The
    file system is taken to work: a write reaches the file, a read fails
    only on a file that is missing, that is no JSON, or that holds an
    integer of more than 4300 digits ([json.load] reads integers with
    [int], and the [ValueError] is not the [JSONDecodeError] that
    [load_json] catches). *)

(** A state as JSON text holds it: values instead of objects.  The flags
    are the pairs of the JSON object in the order written; two of them may
    have the same key. *)
Record snapshot := Snapshot {
  saved_location : option value;
  saved_hp : option Z;
  saved_inventory : option (list value);
  saved_flags : option (list (string * value));
  saved_turns : option Z
}.

Inductive save_file :=
  | NoFile
  | Garbled
  | Holds (s : snapshot).

(** Every integer of the state can be written as text, and read back. *)
Definition digits_ok (s : snapshot) : bool :=
  from_option printable true (saved_location s)
  && from_option int_printable true (saved_hp s)
  && from_option (forallb printable) true (saved_inventory s)
  && from_option (forallb (fun kv => printable kv.2)) true (saved_flags s)
  && from_option int_printable true (saved_turns s).

(** What [main] and its helpers print, without the wording. *)
Inductive shown :=
  | LoadedFromSave
  | StartingNew
  | GameOver (s : status) (m : option message)
  | Header (health : Z) (place : value) (turn : Z)
  | Goodbye
  | GameSaved
  | GameLoaded
  | NoSaveFound
  | ParseError
  | Help
  | InventoryList (items : list value).

(** The store, the save file and the screen.  The diagnostics of the
    engine stay on the console of the store; how they interleave with the
    screen is not recorded. *)
Record machine := Machine {
  store : world;
  disk : save_file;
  screen : list shown
}.

Definition Session (A : Type) : Type := machine -> outcome A * machine.

Definition sret {A} (a : A) : Session A := fun k => (Ok a, k).
Definition sraise {A} (e : exn) : Session A := fun k => (Raise e, k).
Definition sbind {A B} (m : Session A) (f : A -> Session B) : Session B :=
  fun k => match m k with
           | (Ok a, k') => f a k'
           | (Raise e, k') => (Raise e, k')
           end.

(** A computation on the store, run in the machine. *)
Definition liftM {A} (m : M A) : Session A :=
  fun k => let (r, w') := m (store k) in (r, Machine w' (disk k) (screen k)).

Definition show (x : shown) : Session unit :=
  fun k => (Ok tt, Machine (store k) (disk k) (screen k ++ [x])).

(** The text of an integer or of a value in an f-string. *)
Definition format_int (n : Z) : Session unit :=
  if int_printable n then sret tt else sraise ValueError.

Definition format (v : value) : Session unit :=
  if printable v then sret tt else sraise ValueError.

Definition write_file (f : save_file) : Session unit :=
  fun k => (Ok tt, Machine (store k) f (screen k)).

Declare Scope session_scope.
Delimit Scope session_scope with session.
Notation "x <- m ;; k" := (sbind m (fun x => k))
  (at level 100, m at next level, right associativity) : session_scope.
Notation "m ;;; k" := (sbind m (fun _ => k))
  (at level 100, right associativity) : session_scope.

Section session.

(** [repr] of a float, the shortest decimal text that reads back as the
    same float.  It is not modelled; [json.dump] uses it for a dictionary
    key that is a float. *)
Variable float_repr : pyfloat -> string.

(** [json.dump] writes every key of a dictionary as a string. *)
Definition json_key (k : value) : outcome string :=
  match k with
  | VStr s => Ok s
  | VFloat f => Ok (float_repr f)
  | VBool true => Ok "true"
  | VBool false => Ok "false"
  | VNone => Ok "null"
  | VInt n => if int_printable n then Ok (pretty n) else Raise ValueError
  | VList _ | VDict _ => Raise TypeError
  end.

Fixpoint dump_flags (d : pydict) : outcome (list (string * value)) :=
  match d with
  | [] => Ok []
  | (k, v) :: r =>
      match json_key k with
      | Ok s => match dump_flags r with
                | Ok r' => Ok ((s, v) :: r')
                | Raise e => Raise e
                end
      | Raise e => Raise e
      end
  end.

Definition written (s : snapshot) : outcome snapshot :=
  if digits_ok s then Ok s else Raise ValueError.

(** The text [json.dump(state, f)] writes: the dictionary with the list
    and the dict it refers to.  An integer of more than 4300 digits
    anywhere in it raises [ValueError]. *)
Definition json_dump (w : world) (state : loc) : outcome snapshot :=
  let s := state_at w state in
  match flags s with
  | Some f =>
      match dump_flags (dict_at w f) with
      | Ok fl => written (Snapshot (location s) (hp s) (list_at w <$> inventory s) (Some fl)
                            (turns s))
      | Raise e => Raise e
      end
  | None => written (Snapshot (location s) (hp s) (list_at w <$> inventory s) None (turns s))
  end.

(** [save_json(SAVE_FILE, state)].  The file is opened for writing, hence
    emptied, before [json.dump] runs, and [json.dump] writes piece by
    piece: when it raises, the file is left with the beginning of a JSON
    text. *)
Definition save_json (state : loc) : Session unit :=
  fun k => match json_dump (store k) state with
           | Ok s => (Ok tt, Machine (store k) (Holds s) (screen k))
           | Raise e => (Raise e, Machine (store k) Garbled (screen k))
           end.

(** The dict that [json.load] builds from the pairs of an object: a later
    pair with the same key replaces the value of the earlier one. *)
Definition load_flags (fl : list (string * value)) : pydict :=
  fold_left (fun d kv => pydict_set d (VStr kv.1) kv.2) fl [].

(** [json.load] of a saved state: new objects for the dictionary, the list
    and the dict. *)
Definition json_load (s : snapshot) : M loc :=
  inv <- match saved_inventory s with
         | Some items => l <- new_list ;; write_list l items ;;; ret (Some l)
         | None => ret None
         end ;;
  fl <- match saved_flags s with
        | Some pairs => l <- new_dict ;; write_dict l (load_flags pairs) ;;; ret (Some l)
        | None => ret None
        end ;;
  fun w => let l := fresh (dom (states w)) in
           (Ok l, set_state l (StateDict (saved_location s) (saved_hp s) inv fl
                                 (saved_turns s)) w).

(** [load_json(SAVE_FILE)]: [None] for a missing file and, after an error
    message, for a file that is no JSON. *)
Definition load_json : Session (option loc) :=
  fun k => match disk k with
           | NoFile => (Ok None, k)
           | Garbled => (Ok None, Machine (store k) (disk k) (screen k ++ [ParseError]))
           | Holds s =>
               if digits_ok s then liftM (l <- json_load s ;; ret (Some l))%py k
               else (Raise ValueError, k)
           end.

(** [if state:] for the result of [load_json]: a dictionary with a key. *)
Definition truthy (s : state_dict) : bool :=
  match s with
  | StateDict None None None None None => false
  | _ => true
  end.

Definition loaded_state (o : option loc) : Session (option loc) :=
  match o with
  | Some l => fun k => (Ok (if truthy (state_at (store k) l) then Some l else None), k)
  | None => sret None
  end.

(** [print_header(state, quest)]: the f-string reads and formats the
    three fields one after the other. *)
Definition print_header (state : loc) : Session unit :=
  (h <- liftM (getitem hp state) ;;
   format_int h ;;;
   p <- liftM (getitem location state) ;;
   format p ;;;
   t <- liftM (getitem turns state) ;;
   format_int t ;;;
   show (Header h p t))%session.

(** The items that are printed before one cannot be. *)
Fixpoint printed_items (items : list value) : list value :=
  match items with
  | x :: r => if printable x then x :: printed_items r else []
  | [] => []
  end.

(** [print_inventory(state)]: one line for each item. *)
Definition print_inventory (state : loc) : Session unit :=
  (l <- liftM (getitem inventory state) ;;
   items <- liftM (read_list l) ;;
   if forallb printable items then show (InventoryList items)
   else show (InventoryList (printed_items items)) ;;; sraise ValueError)%session.

(** [rules["START"].copy()] followed by [state["turns"] = 0]; [start] is
    the dictionary under ["START"]. *)
Definition new_game (start : loc) : M loc :=
  state <- dict_copy start ;;
  setitem with_turns state 0%Z ;;;
  ret state.

(** The beginning of [main], once the rules and the prompt are read. *)
Definition main_start (start : loc) : Session loc :=
  (o <- load_json ;;
   loaded <- loaded_state o ;;
   match loaded with
   | Some state => show LoadedFromSave ;;; sret state
   | None => show StartingNew ;;; liftM (new_game start)
   end)%session.

(** How an iteration of [while True] ends. *)
Inductive flow :=
  | Continue (state : loc)
  | Break.

(** One iteration of the loop; [player_input] is the value bound to the
    variable of that name (the line read, stripped and in lower case, or
    ["quit"] at the end of the input) and [b] is what the backend does if
    it is called. *)
Definition main_iteration (state : loc) (player_input : string) (b : backend)
    (rules : rules) : Session flow :=
  (verdict <- liftM (check_end_conditions state rules) ;;
   match verdict.1 with
   | Some status => show (GameOver status verdict.2) ;;; sret Break
   | None =>
       print_header state ;;;
       if String.eqb player_input "" then sret (Continue state)
       else if String.eqb player_input "quit" then show Goodbye ;;; sret Break
       else if String.eqb player_input "save" then
         save_json state ;;; show GameSaved ;;; sret (Continue state)
       else if String.eqb player_input "load" then
         o <- load_json ;;
         loaded <- loaded_state o ;;
         match loaded with
         | Some state' => show GameLoaded ;;; sret (Continue state')
         | None => show NoSaveFound ;;; sret (Continue state)
         end
       else if String.eqb player_input "help" then show Help ;;; sret (Continue state)
       else if String.eqb player_input "inventory" then
         print_inventory state ;;; sret (Continue state)
       else
         state' <- liftM (main_turn state b rules) ;;
         sret (Continue state')
   end)%session.

(** The loop, for as long as there is input: [None] when the loop was
    left, the current state when it waits for more input. *)
Fixpoint main_loop (state : loc) (steps : list (string * backend)) (rules : rules)
  : Session (option loc) :=
  match steps with
  | [] => sret (Some state)
  | (player_input, b) :: rest =>
      (f <- main_iteration state player_input b rules ;;
       match f with
       | Continue state' => main_loop state' rest rules
       | Break => sret None
       end)%session
  end.

End session.

(** ** The narration on the screen

    [main] cuts the narration into paragraphs with
    [re.split(r'\n\s*\n', narration)], keeps [paragraphs[:MAX_PARAGRAPHS]]
    and prints them joined by an empty line: the event [Narration text n]
    of [main_turn] stands for the printing of [trimmed_narration text n].
    A text is read as the list of its characters, those with a code point
    below 256. *)

(** What [\s] matches among these characters. *)
Definition re_space (c : ascii) : bool :=
  let n := nat_of_ascii c in
  ((9 <=? n)%nat && (n <=? 13)%nat) || ((28 <=? n)%nat && (n <=? 32)%nat)
  || (n =? 133)%nat || (n =? 160)%nat.

Definition newline : ascii := "010"%char.

(** [\s*\n] at the start of [s], the star being greedy: the text that
    follows the last newline of the white space at the start of [s]. *)
Fixpoint last_newline (s : list ascii) : option (list ascii) :=
  match s with
  | c :: r =>
      if re_space c then
        match last_newline r with
        | Some rest => Some rest
        | None => if Ascii.eqb c newline then Some r else None
        end
      else None
  | [] => None
  end.

(** The leftmost match of [\n\s*\n] in [s]: the text before it and the
    text after it, or no match. *)
Fixpoint next_separator (s : list ascii) : list ascii * option (list ascii) :=
  match s with
  | [] => ([], None)
  | c :: r =>
      match (if Ascii.eqb c newline then last_newline r else None) with
      | Some rest => ([], Some rest)
      | None => let '(p, o) := next_separator r in (c :: p, o)
      end
  end.

(** Both consume what they match: the measure of [re_split]. *)
Lemma last_newline_length s rest :
  last_newline s = Some rest -> (length rest < length s)%nat.
Proof.
  revert rest. induction s as [| c r IH]; simpl; intros rest; [done |].
  destruct (re_space c); [| done].
  destruct (last_newline r) as [x |].
  - intros [= <-]. specialize (IH x eq_refl). lia.
  - destruct (Ascii.eqb c newline); [| done]. intros [= <-]. lia.
Qed.

Lemma next_separator_length s p rest :
  next_separator s = (p, Some rest) -> (length p + 2 + length rest <= length s)%nat.
Proof.
  revert p. induction s as [| c r IH]; simpl; intros p; [done |].
  destruct (if Ascii.eqb c newline then last_newline r else None) as [x |] eqn:Hx.
  - intros [= <- <-]. destruct (Ascii.eqb c newline); [| done].
    apply last_newline_length in Hx. simpl. lia.
  - destruct (next_separator r) as [p' o]. intros [= <- ->].
    specialize (IH p' eq_refl). simpl. lia.
Qed.

(** [re.split(r'\n\s*\n', s)]: the texts between the matches, from left to
    right. *)
Equations re_split (s : list ascii) : list (list ascii) by wf (length s) lt :=
  re_split s with inspect (next_separator s) :=
    | exist _ (pair p None) _ => [p]
    | exist _ (pair p (Some rest)) H => p :: re_split rest.
Next Obligation. intros. apply next_separator_length in H. lia. Qed.

(** [l[:n]]: a negative [n] counts from the end. *)
Definition slice_to {A : Type} (l : list A) (n : Z) : list A :=
  if (0 <=? n)%Z then take (Z.to_nat n) l
  else take (Z.to_nat (Z.of_nat (length l) + n)) l.

(** [sep.join(ps)]. *)
Fixpoint join (sep : list ascii) (ps : list (list ascii)) : list ascii :=
  match ps with
  | [] => []
  | [p] => p
  | p :: ps' => p ++ sep ++ join sep ps'
  end.

(** Lines 281 and 282: the text that [main] prints for a narration. *)
Definition trimmed_narration (narration : string) (max_paragraphs : Z) : string :=
  let paragraphs := re_split (String.list_ascii_of_string narration) in
  String.string_of_list_ascii
    (join [newline; newline] (slice_to paragraphs max_paragraphs)).

(** * Vocabulary of the properties *)

(** ** Readers of a state *)

(** [state.get('inventory', [])] and [state.get('flags', {})] as a reader
    of a state sees them. *)
Definition inventory_of (w : world) (st : loc) : list value :=
  match inventory (state_at w st) with
  | Some l => list_at w l
  | None => []
  end.

Definition flags_of (w : world) (st : loc) : pydict :=
  match flags (state_at w st) with
  | Some l => dict_at w l
  | None => []
  end.

(** ** Invariants of the data model *)

(** No two positions of the list hold equal items. *)
Fixpoint no_duplicates (l : list value) : bool :=
  match l with
  | [] => true
  | x :: r => negb (list_contains r x) && no_duplicates r
  end.

(** How many items of [l] are equal to [x]. *)
Fixpoint occurrences (l : list value) (x : value) : nat :=
  match l with
  | [] => 0
  | e :: r => (if py_eq e x then 1 else 0) + occurrences r x
  end.

Definition inventory_ok (rules : rules) (l : list value) : Prop :=
  no_duplicates l = true /\ (Z.of_nat (length l) <= INVENTORY_LIMIT rules)%Z.

Definition hp_ok (s : state_dict) : Prop :=
  exists n, hp s = Some n /\ (0 <= n)%Z.

(** ** Shapes of atoms *)


Definition is_dict (v : value) : bool :=
  match v with
  | VDict _ => true
  | _ => false
  end.


(** The atoms on which the loop body cannot raise: a [move_to] target
    and a [set_flag] flag that can be hashed, an [hp_delta] delta that
    [int] accepts.  Atoms of any other kind, and values that are no atoms
    at all, qualify when the diagnostic that shows them can be printed; so
    does an [add_item] atom, whose item is shown when the inventory is
    full.  (The console of the model records the diagnostics without their
    wording.  A blocked [move_to] shows its target, which is then one of
    the strings of [LOCKS].) *)
Definition well_formed_atom (c : value) : bool :=
  match c with
  | VDict d =>
      let atom := default VNone (dict_get d "atom") in
      if py_eq atom (VStr "move_to") then hashable (default VNone (dict_get d "target"))
      else if py_eq atom (VStr "add_item") then printable (default VNone (dict_get d "item"))
      else if py_eq atom (VStr "remove_item") then true
      else if py_eq atom (VStr "set_flag") then hashable (default VNone (dict_get d "flag"))
      else if py_eq atom (VStr "hp_delta") then
        match py_int (default (VInt 0) (dict_get d "delta")) with
        | Ok _ => true
        | Raise _ => false
        end
      else printable atom
  | _ => printable c
  end.

(** The state has the keys that [hp_delta] indexes. *)
Definition has_hp_and_flags (s : state_dict) : Prop :=
  is_Some (hp s) /\ is_Some (flags s).

(** ** What one atom does

    The worlds an atom can lead to when the loop body completes. *)
Inductive changed (rules : rules) (new_state inventory_ref flags_ref : loc) (w : world)
  : world -> Prop :=
  | ch_diag e :
      changed rules new_state inventory_ref flags_ref w (emit e w)
  | ch_same :
      changed rules new_state inventory_ref flags_ref w w
  | ch_move target :
      changed rules new_state inventory_ref flags_ref w
        (set_state new_state (with_location target (state_at w new_state)) w)
  | ch_add item :
      (Z.of_nat (length (list_at w inventory_ref)) < INVENTORY_LIMIT rules)%Z ->
      list_contains (list_at w inventory_ref) item = false ->
      changed rules new_state inventory_ref flags_ref w
        (set_list inventory_ref (list_at w inventory_ref ++ [item]) w)
  | ch_remove item inv' :
      list_remove (list_at w inventory_ref) item = Some inv' ->
      changed rules new_state inventory_ref flags_ref w (set_list inventory_ref inv' w)
  | ch_flag flag :
      hashable flag = true ->
      changed rules new_state inventory_ref flags_ref w
        (set_dict flags_ref (pydict_set (dict_at w flags_ref) flag (VBool true)) w)
  | ch_hp h delta :
      hp (state_at w new_state) = Some h ->
      (0 < h + delta)%Z ->
      changed rules new_state inventory_ref flags_ref w
        (set_state new_state (with_hp (h + delta) (state_at w new_state)) w)
  | ch_hp_zero h delta f :
      hp (state_at w new_state) = Some h ->
      (h + delta <= 0)%Z ->
      flags (state_at w new_state) = Some f ->
      changed rules new_state inventory_ref flags_ref w
        (set_dict f (pydict_set (dict_at w f) (VStr "hp_zero") (VBool true))
           (set_state new_state (with_hp 0 (state_at w new_state)) w)).

(** ** Where the loop starts

    The world in which the loop starts: [new_state] is a copy of the
    caller's dictionary, [inventory_ref] and [flags_ref] hold what the
    caller's state holds. *)
Record entered (w : world) (state : loc) (w1 : world) (new_state inventory_ref flags_ref : loc)
  : Prop := Entered {
  entered_new : new_state = fresh (dom (states w));
  entered_state : state_at w1 new_state = state_at w state;
  entered_states : states w1 = <[new_state := state_at w state]> (states w);
  entered_inventory : list_at w1 inventory_ref = inventory_of w state;
  entered_flags : dict_at w1 flags_ref = flags_of w state;
  entered_inventory_alias :
    match inventory (state_at w state) with
    | Some l => inventory_ref = l /\ lists w1 = lists w
    | None => inventory_ref = fresh (dom (lists w))
              /\ lists w1 = <[inventory_ref := []]> (lists w)
    end;
  entered_flags_alias :
    match flags (state_at w state) with
    | Some l => flags_ref = l /\ dicts w1 = dicts w
    | None => flags_ref = fresh (dom (dicts w))
              /\ dicts w1 = <[flags_ref := []]> (dicts w)
    end;
  entered_console : console w1 = console w
}.

(** ** Induction on values, through lists and dictionaries *)

Section value_induction.
Variable P : value -> Prop.
Hypothesis HNone : P VNone.
Hypothesis HBool : forall b, P (VBool b).
Hypothesis HInt : forall n, P (VInt n).
Hypothesis HFloat : forall f, P (VFloat f).
Hypothesis HStr : forall s, P (VStr s).
Hypothesis HList : forall l, Forall P l -> P (VList l).
Hypothesis HDict : forall d, Forall (fun kv : string * value => P kv.2) d -> P (VDict d).

Fixpoint value_nested_ind (v : value) : P v :=
  match v with
  | VNone => HNone
  | VBool b => HBool b
  | VInt n => HInt n
  | VFloat f => HFloat f
  | VStr s => HStr s
  | VList l =>
      HList l ((fix all (l : list value) : Forall P l :=
                  match l with
                  | [] => List.Forall_nil P
                  | x :: r => List.Forall_cons P x r (value_nested_ind x) (all r)
                  end) l)
  | VDict d =>
      HDict d ((fix all (d : list (string * value))
                  : Forall (fun kv : string * value => P kv.2) d :=
                  match d with
                  | [] => List.Forall_nil _
                  | kv :: r => List.Forall_cons _ kv r (value_nested_ind kv.2) (all r)
                  end) d)
  end.
End value_induction.

(** ** Sample data: the scenarios of the specification *)

Definition cave_rules : rules :=
  Rules 1 {[ "cave" := "has_torch" ]} (EndConditions 20 ["hp_zero"] ["has_gem"]) 2.

(** The same rules with room for five items. *)
Definition roomy_rules : rules :=
  Rules 5 {[ "cave" := "has_torch" ]} (EndConditions 20 ["hp_zero"] ["has_gem"]) 2.

(** A world with one state, stored at location 0, whose inventory and
    flags are the objects at location 0 of their stores. *)
Definition world_of (where_ : string) (health : Z) (inv : list value) (fl : pydict)
    (turn : Z) : world :=
  World {[ 0%nat := StateDict (Some (VStr where_)) (Some health) (Some 0%nat) (Some 0%nat)
                      (Some turn) ]}
        {[ 0%nat := inv ]} {[ 0%nat := fl ]} [].

Definition start_world : world := world_of "start" 10 [] [] 0.

(** hp 3, to be met by a delta of -5. *)
Definition hurt_world : world := world_of "start" 3 [] [] 0.

(** An atom with one field. *)
Definition atom1 (kind field : string) (v : value) : value :=
  VDict [("atom", VStr kind); (field, v)].

Definition hurt : value := VList [atom1 "hp_delta" "delta" (VInt (-5))].

Definition three_adds : value :=
  VList [atom1 "add_item" "item" (VStr "sword");
         atom1 "add_item" "item" (VStr "shield");
         atom1 "add_item" "item" (VStr "sword")].

Definition go_cave : list (string * value) :=
  [("atom", VStr "move_to"); ("target", VStr "cave")].

Definition add_sword : list (string * value) :=
  [("atom", VStr "add_item"); ("item", VStr "sword")].

Definition remove_sword : list (string * value) :=
  [("atom", VStr "remove_item"); ("item", VStr "sword")].

(** ** Kinds of atoms *)

(** The atom is a dictionary whose ["atom"] field is [kind]. *)
Definition kind_is (kind : string) (c : value) : bool :=
  match c with
  | VDict d => py_eq (default VNone (dict_get d "atom")) (VStr kind)
  | _ => false
  end.


(** ** More sample data *)

(** A state that holds the torch, and atoms that set other flags, move and
    hurt. *)
Definition torch_world : world :=
  world_of "start" 3 [] [(VStr "has_torch", VBool true)] 0.

Definition busy_atoms : value :=
  VList [atom1 "set_flag" "flag" (VStr "has_gem");
         atom1 "hp_delta" "delta" (VInt (-5));
         atom1 "move_to" "target" (VStr "cave")].

(** The item named by an atom. *)
Definition item_of (c : value) : value :=
  match c with
  | VDict d => default VNone (dict_get d "item")
  | _ => VNone
  end.

(** An inventory of two items against a limit of one. *)
Definition crowded_world : world :=
  world_of "start" 10 [VStr "sword"; VStr "shield"] [] 0.

(** No atom of the list has the given kind. *)
Definition none_of_kind (kind : string) (cs : list value) : bool :=
  forallb (fun c => negb (kind_is kind c)) cs.

Definition set_torch : list (string * value) :=
  [("atom", VStr "set_flag"); ("flag", VStr "has_torch")].

(** A world whose only state has no ["flags"] key. *)
Definition flagless_world : world :=
  World {[ 0%nat := StateDict (Some (VStr "start")) (Some 3%Z) (Some 0%nat) None (Some 0%Z) ]}
        {[ 0%nat := [] ]} ∅ [].

(** hp 3, a blow of 5 and a cure of 20. *)
Definition blow_then_cure : value :=
  VList [atom1 "hp_delta" "delta" (VInt (-5)); atom1 "hp_delta" "delta" (VInt 20)].


(** ** The session *)

(** The state can be shown in the header and is neither won nor lost. *)
Definition playable (rules : rules) (w : world) (state : loc) : Prop :=
  (check_end_conditions state rules w).1 = Ok (None, None)
  /\ is_Some (hp (state_at w state))
  /\ is_Some (location (state_at w state)).

(** The three fields of the header can be printed, where they are
    there. *)
Definition header_prints (w : world) (state : loc) : bool :=
  from_option int_printable true (hp (state_at w state))
  && from_option printable true (location (state_at w state))
  && from_option int_printable true (turns (state_at w state)).

(** The items and the values of the flags can be written as text. *)
Definition contents_print (w : world) (state : loc) : bool :=
  forallb printable (inventory_of w state)
  && forallb (fun kv => printable kv.2) (flags_of w state).

(** The input is none of the engine commands. *)
Definition is_action (player_input : string) : bool :=
  negb (String.eqb player_input "" || String.eqb player_input "quit"
        || String.eqb player_input "save" || String.eqb player_input "load"
        || String.eqb player_input "help" || String.eqb player_input "inventory").

(** The turn counter, where there is one, is at most [MAX_TURNS]. *)
Definition within_limit (rules : rules) (t : option Z) : Prop :=
  match t with
  | Some n => (n <= MAX_TURNS (END_CONDITIONS rules))%Z
  | None => True
  end.

Definition file_within_limit (rules : rules) (f : save_file) : Prop :=
  match f with
  | Holds s => within_limit rules (saved_turns s)
  | _ => True
  end.

(** The keys of the dict are the strings [names], each once: the shape of
    a flags dict whose flags are named by strings. *)
Definition keyed_by (names : list string) (d : pydict) : Prop :=
  map fst d = map VStr names /\ NoDup names.

(** A stand-in for [repr] on floats, where a closed term is needed. *)
Definition no_repr (f : pyfloat) : string := "".

Definition start_machine : machine := Machine start_world NoFile [].

(** A state past the turn limit, and a save file to tempt the player. *)
Definition late_machine : machine :=
  Machine (world_of "start" 10 [] [] 20)
          (Holds (Snapshot (Some (VStr "start")) (Some 10%Z) (Some []) (Some []) (Some 0%Z)))
          [].

(** A backend that answers with a story, a wound and an item. *)
Definition story : backend :=
  Decoded (VDict [("narration", VStr "A bat bites you. You find a sword.");
                  ("state_change",
                   VList [atom1 "hp_delta" "delta" (VInt (-1));
                          atom1 "add_item" "item" (VStr "sword")])]).

(** Two turns, a save, a turn and a load. *)
Definition a_session : list (string * backend) :=
  [("look around", story); ("save", ChatFailed); ("go north", story);
   ("load", ChatFailed); ("wait", story)]%string.

(** A state with a sword and a torch. *)
Definition armed_machine : machine :=
  Machine (world_of "cave" 7 [VStr "sword"] [(VStr "has_torch", VBool true)] 4) NoFile [].

(** ** Paragraphs and blank lines *)

Definition characters (text : string) : list ascii :=
  String.list_ascii_of_string text.

Definition paragraphs (text : string) : list (list ascii) :=
  re_split (characters text).

(** A newline, white space only, and a newline again. *)
Definition has_blank_line (s : list ascii) : Prop :=
  exists a w b, s = a ++ newline :: w ++ newline :: b /\ Forall (fun c => re_space c = true) w.

(** A paragraph that is not followed by its separator too early: with a
    newline after it there is still no match. *)
Definition closed (p : list ascii) : Prop :=
  (next_separator (p ++ [newline])).2 = None.

(** The shape of what [re_split] returns. *)
Fixpoint canon (ps : list (list ascii)) : Prop :=
  match ps with
  | [] => True
  | [p] => (next_separator p).2 = None
  | p :: ps' => closed p /\ last_newline (join [newline; newline] ps') = None /\ canon ps'
  end.

Definition tale : string :=
  String.string_of_list_ascii
    (String.list_ascii_of_string "You enter the cave."
     ++ [newline; " "%char; newline]
     ++ String.list_ascii_of_string "A bat stirs."
     ++ [newline; newline; newline]
     ++ String.list_ascii_of_string "It is dark.").

(** * Properties *)

(** ** The limit on the digits of an integer *)

Lemma int_printable_spec n :
  int_printable n = (Z.abs n <? 10 ^ max_str_digits)%Z.
Proof.
  unfold int_printable.
  destruct (Z.ltb_spec (Z.log2 (Z.abs n)) 14284) as [Hlog | _]; [| done].
  symmetry. apply Z.ltb_lt.
  assert (Hsmall : (Z.abs n = 0 \/ Z.abs n < 2 ^ 14284)%Z).
  { destruct (Z.eq_dec (Z.abs n) 0) as [H0 | H0]; [by left | right].
    eapply Z.lt_le_trans; [apply Z.log2_spec; lia |].
    apply Z.pow_le_mono_r; lia. }
  clear Hlog.
  assert (Hnn : (0 <= 2 ^ 14284)%Z) by (apply Z.pow_nonneg; done).
  assert (Hpow : (2 ^ 14284 < 10 ^ max_str_digits)%Z) by (vm_compute; reflexivity).
  revert Hsmall Hnn Hpow.
  generalize (2 ^ 14284)%Z (10 ^ max_str_digits)%Z (Z.abs n). intros P B a. lia.
Qed.

(** ** Equality of values *)

Lemma dyadic_eqb_refl m e : dyadic_eqb m e m e = true.
Proof. unfold dyadic_eqb. apply Z.eqb_refl. Qed.

Lemma dyadic_eqb_sym m1 e1 m2 e2 : dyadic_eqb m1 e1 m2 e2 = dyadic_eqb m2 e2 m1 e1.
Proof. unfold dyadic_eqb. rewrite (Z.min_comm e2 e1). apply Z.eqb_sym. Qed.

Lemma float_eqb_refl f : float_eqb f f = true.
Proof. destruct f as [|[]|m e]; simpl; auto using dyadic_eqb_refl. Qed.

Lemma float_eqb_sym f g : float_eqb f g = float_eqb g f.
Proof.
  destruct f as [|a|m e], g as [|b|m' e']; simpl; auto using dyadic_eqb_sym.
  by destruct a, b.
Qed.

Lemma py_eq_refl v : py_eq v v = true.
Proof.
  induction v as [| b | n | f | s | l IH | d IH] using value_nested_ind; simpl.
  - done.
  - apply dyadic_eqb_refl.
  - apply dyadic_eqb_refl.
  - apply float_eqb_refl.
  - apply String.eqb_refl.
  - induction IH as [| x r Hx _ IHr]; [done |]. by rewrite Hx, IHr.
  - assert (H : forallb (fun kv : string * value =>
                existsb (fun kv' : string * value =>
                  String.eqb kv.1 kv'.1 && py_eq kv.2 kv'.2) d) d = true).
    { apply forallb_forall. intros kv Hin. apply existsb_exists. exists kv.
      split; [done |]. rewrite String.eqb_refl. simpl.
      rewrite Forall_forall in IH. apply IH. by apply list_elem_of_In. }
    rewrite H. simpl.
    apply forallb_forall. intros kv Hin. apply existsb_exists. exists kv.
    split; [done |]. rewrite String.eqb_refl. simpl.
    rewrite Forall_forall in IH. apply IH. by apply list_elem_of_In.
Qed.

Lemma existsb_ext_in {A} (f g : A -> bool) (l : list A) :
  (forall a, In a l -> f a = g a) -> existsb f l = existsb g l.
Proof.
  induction l as [| a l IH]; simpl; intros H; [done |].
  rewrite IH by (intros; apply H; by right). f_equal. apply H. by left.
Qed.

Lemma forallb_ext_in {A} (f g : A -> bool) (l : list A) :
  (forall a, In a l -> f a = g a) -> forallb f l = forallb g l.
Proof.
  induction l as [| a l IH]; simpl; intros H; [done |].
  rewrite IH by (intros; apply H; by right). f_equal. apply H. by left.
Qed.

Lemma forallb_existsb_ext {A B} (f g : A -> B -> bool) (l : list A) (l' : list B) :
  (forall a b, In a l -> f a b = g a b) ->
  forallb (fun a => existsb (f a) l') l = forallb (fun a => existsb (g a) l') l.
Proof.
  intros H. apply forallb_ext_in. intros a Ha.
  apply existsb_ext_in. intros b _. by apply H.
Qed.

Lemma existsb_forallb_ext {A B} (f g : A -> B -> bool) (l : list A) (l' : list B) :
  (forall a b, In a l -> f a b = g a b) ->
  forallb (fun b => existsb (fun a => f a b) l) l' =
  forallb (fun b => existsb (fun a => g a b) l) l'.
Proof.
  intros H. apply forallb_ext_in. intros b _.
  apply existsb_ext_in. intros a Ha. by apply H.
Qed.

Lemma py_eq_sym a b : py_eq a b = py_eq b a.
Proof.
  revert b.
  induction a as [| x | n | f | s | l IH | d IH] using value_nested_ind;
    intros b; destruct b as [| y | n' | f' | s' | l' | d']; simpl; try done;
    try apply dyadic_eqb_sym; try apply float_eqb_sym.
  - destruct f'; simpl; auto using dyadic_eqb_sym.
  - destruct f'; simpl; auto using dyadic_eqb_sym.
  - apply String.eqb_sym.
  - revert l'. induction IH as [| x r Hx _ IHr]; intros [| y r']; simpl; try done.
    by rewrite Hx, IHr.
  - rewrite andb_comm. rewrite Forall_forall in IH. f_equal.
    + apply existsb_forallb_ext. intros kv kv' Hin.
      rewrite (String.eqb_sym kv'.1). f_equal.
      apply IH. by apply list_elem_of_In.
    + apply forallb_existsb_ext. intros kv kv' Hin.
      rewrite (String.eqb_sym kv'.1). f_equal.
      apply IH. by apply list_elem_of_In.
Qed.

(** ** The store *)

Lemma state_at_set_state w l s : state_at (set_state l s w) l = s.
Proof. unfold state_at, set_state. simpl. by rewrite lookup_insert_eq. Qed.

Lemma state_at_set_state_ne w l l' s :
  l <> l' -> state_at (set_state l s w) l' = state_at w l'.
Proof. intros. unfold state_at, set_state. simpl. by rewrite lookup_insert_ne. Qed.

Lemma list_at_set_list w l x : list_at (set_list l x w) l = x.
Proof. unfold list_at, set_list. simpl. by rewrite lookup_insert_eq. Qed.

Lemma dict_at_set_dict w l d : dict_at (set_dict l d w) l = d.
Proof. unfold dict_at, set_dict. simpl. by rewrite lookup_insert_eq. Qed.

Lemma dict_at_set_dict_ne w l l' d :
  l <> l' -> dict_at (set_dict l d w) l' = dict_at w l'.
Proof. intros. unfold dict_at, set_dict. simpl. by rewrite lookup_insert_ne. Qed.

Lemma state_at_set_list w l x l' : state_at (set_list l x w) l' = state_at w l'.
Proof. done. Qed.
Lemma state_at_set_dict w l d l' : state_at (set_dict l d w) l' = state_at w l'.
Proof. done. Qed.
Lemma state_at_emit w e l : state_at (emit e w) l = state_at w l.
Proof. done. Qed.
Lemma list_at_set_state w l s l' : list_at (set_state l s w) l' = list_at w l'.
Proof. done. Qed.
Lemma list_at_set_dict w l d l' : list_at (set_dict l d w) l' = list_at w l'.
Proof. done. Qed.
Lemma list_at_emit w e l : list_at (emit e w) l = list_at w l.
Proof. done. Qed.
Lemma dict_at_set_state w l s l' : dict_at (set_state l s w) l' = dict_at w l'.
Proof. done. Qed.
Lemma dict_at_set_list w l x l' : dict_at (set_list l x w) l' = dict_at w l'.
Proof. done. Qed.
Lemma dict_at_emit w e l : dict_at (emit e w) l = dict_at w l.
Proof. done. Qed.

Create Rewrite HintDb store.
#[local] Hint Rewrite state_at_set_state list_at_set_list dict_at_set_dict
  state_at_set_list state_at_set_dict state_at_emit
  list_at_set_state list_at_set_dict list_at_emit
  dict_at_set_state dict_at_set_list dict_at_emit : store.

(** A newly allocated object is not one of the old ones. *)
Lemma fresh_state_ne w l :
  is_Some (states w !! l) -> fresh (dom (states w)) <> l.
Proof.
  intros H%elem_of_dom Heq. by apply (is_fresh (dom (states w))); rewrite Heq.
Qed.

(** ** What one atom does *)

Lemma set_state_twice w l s s' :
  set_state l s (set_state l s' w) = set_state l s w.
Proof. unfold set_state. simpl. by rewrite insert_insert_eq. Qed.

Lemma apply_change_changed rules ns inv fl c w w' :
  apply_change rules ns inv fl c w = (Ok tt, w') ->
  changed rules ns inv fl w w'.
Proof.
  unfold apply_change. intros H.
  destruct c as [| | | | | | d]; try (inversion H; subst; apply ch_diag).
  destruct (py_eq _ (VStr "move_to")).
  { unfold bind, lift in H.
    destruct (locks_lookup _ _) as [[rf|]|]; [| |done].
    - unfold read_dict in H. destruct (negb _).
      + inversion H. apply ch_diag.
      + inversion H. apply ch_move.
    - inversion H. apply ch_move. }
  destruct (py_eq _ (VStr "add_item")).
  { unfold bind, read_list in H.
    destruct (Z.leb_spec (INVENTORY_LIMIT rules) (Z.of_nat (length (list_at w inv)))).
    - inversion H. apply ch_diag.
    - destruct (list_contains _ _) eqn:Hc; simpl in H.
      + inversion H. apply ch_same.
      + inversion H. by apply ch_add. }
  destruct (py_eq _ (VStr "remove_item")).
  { unfold bind, read_list in H.
    destruct (list_contains _ _).
    - destruct (list_remove _ _) eqn:Hr; [|done].
      inversion H. subst. by eapply ch_remove.
    - inversion H. apply ch_same. }
  destruct (py_eq _ (VStr "set_flag")).
  { destruct (hashable _) eqn:Hh; [|done].
    inversion H. by apply ch_flag. }
  destruct (py_eq _ (VStr "hp_delta")).
  { unfold bind, lift in H.
    destruct (py_int _) as [delta|]; [|done].
    unfold getitem, bind, read_state in H.
    destruct (hp (state_at w ns)) as [h|] eqn:Hhp; [|done].
    unfold ret, setitem, bind, read_state, write_state in H.
    rewrite state_at_set_state in H. simpl in H.
    destruct (Z.leb_spec (h + delta) 0).
    - rewrite !state_at_set_state in H. simpl in H.
      destruct (flags (state_at w ns)) as [f|] eqn:Hf; [|done].
      unfold read_dict, write_dict in H. rewrite set_state_twice in H.
      inversion H. exact (ch_hp_zero rules ns inv fl w h delta f Hhp H0 Hf).
    - inversion H. by apply ch_hp. }
  inversion H. apply ch_diag.
Qed.

(** ** The loop *)

Lemma for_each_app {A} (xs ys : list A) body w :
  for_each (xs ++ ys) body w =
  match for_each xs body w with
  | (Ok _, w') => for_each ys body w'
  | (Raise e, w') => (Raise e, w')
  end.
Proof.
  revert w. induction xs as [| x xs IH]; intros w; simpl; [done |].
  unfold bind. destruct (body x w) as [[[]|e] w1]; [apply IH | done].
Qed.

Lemma for_each_invariant {A} (P : world -> Prop) (body : A -> M unit) xs :
  (forall x w w', P w -> body x w = (Ok tt, w') -> P w') ->
  forall w w', P w -> for_each xs body w = (Ok tt, w') -> P w'.
Proof.
  intros Hbody. induction xs as [| x xs IH]; intros w w' HP H; simpl in H.
  - by inversion H; subst.
  - unfold bind in H. destruct (body x w) as [[[]|e] w1] eqn:Hx; [| done].
    eapply IH; [| exact H]. eapply Hbody; eauto.
Qed.

Lemma changes_invariant (P : world -> Prop) rules ns inv fl cs :
  (forall w w', P w -> changed rules ns inv fl w w' -> P w') ->
  forall w w', P w -> for_each cs (apply_change rules ns inv fl) w = (Ok tt, w') -> P w'.
Proof.
  intros Hstep. apply for_each_invariant.
  intros c w w' HP H. eapply Hstep; [exact HP |]. by eapply apply_change_changed.
Qed.

(** ** The call

    A call with at least one atom enters the loop and, when the loop
    completes, stores the two local objects back in [new_state]. *)

Lemma apply_state_changes_run state c cs rules w :
  exists w1 new_state inventory_ref flags_ref,
    entered w state w1 new_state inventory_ref flags_ref /\
    apply_state_changes state (VList (c :: cs)) rules w =
    match for_each (c :: cs) (apply_change rules new_state inventory_ref flags_ref) w1 with
    | (Ok _, w2) =>
        (Ok new_state,
         set_state new_state
           (with_flags flags_ref (with_inventory inventory_ref (state_at w2 new_state))) w2)
    | (Raise e, w2) => (Raise e, w2)
    end.
Proof.
  set (ns := fresh (dom (states w))).
  set (wa := set_state ns (state_at w state) w).
  assert (Hns : state_at wa ns = state_at w state) by apply state_at_set_state.
  destruct (get_inventory ns wa) as [oi wb] eqn:Hi.
  destruct (get_flags ns wb) as [ofl w1] eqn:Hf.
  pose proof Hi as Hi0. pose proof Hf as Hf0.
  unfold get_inventory, bind, read_state in Hi. rewrite Hns in Hi.
  unfold get_flags, bind, read_state in Hf.
  assert (Hwb : state_at wb ns = state_at w state /\ states wb = states wa
                /\ dicts wb = dicts w /\ console wb = console w).
  { destruct (inventory (state_at w state)); inversion Hi; subst; done. }
  destruct Hwb as (Hnsb & Hsb & Hdb & Hcb). rewrite Hnsb in Hf.
  assert (exists inv, oi = Ok inv) as [inv ->].
  { destruct (inventory (state_at w state)); inversion Hi; eauto. }
  assert (exists fl, ofl = Ok fl) as [fl ->].
  { destruct (flags (state_at w state)); inversion Hf; eauto. }
  exists w1, ns, inv, fl. split.
  - split.
    + done.
    + destruct (flags (state_at w state)); inversion Hf; subst; done.
    + destruct (flags (state_at w state)); inversion Hf; subst; simpl; by rewrite Hsb.
    + unfold inventory_of.
      destruct (flags (state_at w state)); inversion Hf; subst;
        destruct (inventory (state_at w state)); inversion Hi; subst;
        try done; simpl; by autorewrite with store.
    + unfold flags_of.
      destruct (flags (state_at w state)); inversion Hf; subst.
      * unfold dict_at. by rewrite Hdb.
      * by rewrite dict_at_set_dict.
    + destruct (flags (state_at w state)); inversion Hf; subst;
        destruct (inventory (state_at w state)); inversion Hi; subst; done.
    + destruct (flags (state_at w state)); inversion Hf; subst; simpl; by rewrite Hdb.
    + destruct (flags (state_at w state)); inversion Hf; subst; done.
  - unfold apply_state_changes. unfold bind at 1. unfold dict_copy.
    fold ns. fold wa. unfold bind at 1. rewrite Hi0. unfold bind at 1. rewrite Hf0.
    unfold bind at 1.
    destruct (for_each (c :: cs) _ w1) as [[[]|e] w2]; [| done].
    unfold setitem, bind, read_state, write_state, ret.
    by rewrite state_at_set_state, set_state_twice.
Qed.

(** ** The call returns on well-formed atoms *)

Lemma list_remove_found l x :
  list_contains l x = true -> exists l', list_remove l x = Some l'.
Proof.
  induction l as [| e l IH]; simpl; [done |].
  destruct (py_eq e x); simpl; [eauto |].
  intros [l' ->]%IH. eauto.
Qed.

Lemma locks_lookup_hashable locks target :
  hashable target = true -> exists lock, locks_lookup locks target = Ok lock.
Proof. destruct target; simpl; eauto; done. Qed.

Lemma apply_change_returns rules ns inv fl c w :
  well_formed_atom c = true ->
  has_hp_and_flags (state_at w ns) ->
  exists w', apply_change rules ns inv fl c w = (Ok tt, w').
Proof.
  intros Hc [[h Hhp] [f Hf]]. unfold apply_change.
  destruct c as [| | | | | | d]; try (unfold print; eauto).
  simpl in Hc.
  destruct (py_eq _ (VStr "move_to")).
  { destruct (locks_lookup_hashable (LOCKS rules) _ Hc) as [lock Hlock].
    unfold bind, lift. rewrite Hlock.
    destruct lock as [rf |]; [| unfold setitem, bind, read_state, write_state; eauto].
    unfold read_dict. destruct (negb _); [unfold print; eauto |].
    unfold setitem, bind, read_state, write_state; eauto. }
  destruct (py_eq _ (VStr "add_item")).
  { unfold bind, read_list. destruct (_ <=? _)%Z; [unfold print; eauto |].
    destruct (negb _); [unfold write_list | unfold ret]; eauto. }
  destruct (py_eq _ (VStr "remove_item")).
  { unfold bind, read_list. destruct (list_contains _ _) eqn:Hin; [| unfold ret; eauto].
    destruct (list_remove_found _ _ Hin) as [l' ->]. unfold write_list. eauto. }
  destruct (py_eq _ (VStr "set_flag")).
  { rewrite Hc. unfold bind, read_dict, write_dict. eauto. }
  destruct (py_eq _ (VStr "hp_delta")); [| unfold print; eauto].
  unfold bind, lift. destruct (py_int _) as [delta |]; [| done].
  unfold getitem, bind, read_state. rewrite Hhp.
  unfold ret, setitem, bind, read_state, write_state.
  rewrite state_at_set_state. simpl.
  destruct (_ <=? _)%Z; [| eauto].
  rewrite !state_at_set_state. simpl. rewrite Hf.
  unfold read_dict, write_dict. eauto.
Qed.

Lemma changed_has_hp_and_flags rules ns inv fl w w' :
  has_hp_and_flags (state_at w ns) ->
  changed rules ns inv fl w w' ->
  has_hp_and_flags (state_at w' ns).
Proof.
  intros [Hhp Hf] Hch. destruct Hch; autorewrite with store; try done.
  all: split; simpl; eauto.
Qed.

Lemma for_each_returns rules ns inv fl cs w :
  forallb well_formed_atom cs = true ->
  has_hp_and_flags (state_at w ns) ->
  exists w', for_each cs (apply_change rules ns inv fl) w = (Ok tt, w').
Proof.
  revert w. induction cs as [| c cs IH]; simpl; intros w Hcs Hw.
  - unfold ret. eauto.
  - apply andb_prop in Hcs as [Hc Hcs].
    destruct (apply_change_returns rules ns inv fl c w Hc Hw) as [w1 Hstep].
    unfold bind. rewrite Hstep. apply IH; [done |].
    eapply changed_has_hp_and_flags; [exact Hw |].
    by eapply apply_change_changed.
Qed.

(** On a list of well-formed atoms, and for a state that has ["hp"] and
    ["flags"], [apply_state_changes] returns a state. *)
Lemma apply_state_changes_returns state cs rules w :
  forallb well_formed_atom cs = true ->
  has_hp_and_flags (state_at w state) ->
  exists new_state w', apply_state_changes state (VList cs) rules w = (Ok new_state, w').
Proof.
  intros Hcs Hw. destruct cs as [| c cs]; [simpl; unfold ret; eauto |].
  destruct (apply_state_changes_run state c cs rules w)
    as (w1 & ns & inv & fl & Hent & Hrun).
  rewrite Hrun.
  destruct (for_each_returns rules ns inv fl (c :: cs) w1 Hcs) as [w2 ->]; [| eauto].
  by rewrite (entered_state _ _ _ _ _ _ Hent).
Qed.

(** ** End conditions *)

Lemma first_lose_flag_None lose fl :
  first_lose_flag lose fl = None <->
  (forall flag, In flag lose -> pydict_mem fl (VStr flag) = false).
Proof.
  induction lose as [| x lose IH]; simpl.
  - split; [intros _ ? [] | done].
  - destruct (pydict_mem fl (VStr x)) eqn:Hx.
    + split; [done |]. intros H. specialize (H x (or_introl eq_refl)). congruence.
    + rewrite IH. split.
      * intros H flag [<- | Hin]; auto.
      * intros H flag Hin. apply H. by right.
Qed.

Lemma first_lose_flag_Some lose fl flag :
  first_lose_flag lose fl = Some flag ->
  In flag lose /\ pydict_mem fl (VStr flag) = true.
Proof.
  induction lose as [| x lose IH]; simpl; [done |].
  destruct (pydict_mem fl (VStr x)) eqn:Hx.
  - intros [= <-]. auto.
  - intros H. destruct (IH H). auto.
Qed.

Lemma check_end_conditions_eval state rules w f t :
  flags (state_at w state) = Some f ->
  turns (state_at w state) = Some t ->
  check_end_conditions state rules w =
  (Ok (if (MAX_TURNS (END_CONDITIONS rules) <=? t)%Z
       then (Some Lose, Some (RanOutOfTime (MAX_TURNS (END_CONDITIONS rules))))
       else match first_lose_flag (LOSE_ANY_FLAGS (END_CONDITIONS rules)) (dict_at w f) with
            | Some flag => (Some Lose, Some (LosingCondition flag))
            | None =>
                if forallb (fun flag => pydict_mem (dict_at w f) (VStr flag))
                     (WIN_ALL_FLAGS (END_CONDITIONS rules))
                then (Some Win, Some Congratulations)
                else (None, None)
            end), w).
Proof.
  intros Hf Ht. unfold check_end_conditions, getitem, bind, read_state, read_dict.
  rewrite Hf. simpl. rewrite Ht. simpl.
  destruct (_ <=? _)%Z; [done |].
  destruct (first_lose_flag _ _); [done |].
  by destruct (forallb _ _).
Qed.

(** C4. [check_end_conditions] decides in a fixed order.  A state whose
    turn counter has reached [MAX_TURNS] is lost for running out of time,
    whatever its flags are; a state holding one of the lose flags is lost,
    and below the turn limit the message names the first lose flag held,
    even when every win flag is held too; the game is won only below the
    turn limit, with no lose flag held and all win flags held. *)
Theorem check_end_conditions_precedence state rules w f t :
  flags (state_at w state) = Some f ->
  turns (state_at w state) = Some t ->
  ((MAX_TURNS (END_CONDITIONS rules) <= t)%Z ->
     check_end_conditions state rules w =
     (Ok (Some Lose, Some (RanOutOfTime (MAX_TURNS (END_CONDITIONS rules)))), w))
  /\ (forall flag,
        In flag (LOSE_ANY_FLAGS (END_CONDITIONS rules)) ->
        pydict_mem (dict_at w f) (VStr flag) = true ->
        exists msg,
          check_end_conditions state rules w = (Ok (Some Lose, Some msg), w)
          /\ ((t < MAX_TURNS (END_CONDITIONS rules))%Z ->
              exists flag',
                msg = LosingCondition flag'
                /\ In flag' (LOSE_ANY_FLAGS (END_CONDITIONS rules))
                /\ pydict_mem (dict_at w f) (VStr flag') = true))
  /\ (forall msg,
        check_end_conditions state rules w = (Ok (Some Win, msg), w) ->
        (t < MAX_TURNS (END_CONDITIONS rules))%Z
        /\ (forall flag, In flag (LOSE_ANY_FLAGS (END_CONDITIONS rules)) ->
                         pydict_mem (dict_at w f) (VStr flag) = false)
        /\ (forall flag, In flag (WIN_ALL_FLAGS (END_CONDITIONS rules)) ->
                         pydict_mem (dict_at w f) (VStr flag) = true)).
Proof.
  intros Hf Ht. rewrite (check_end_conditions_eval state rules w f t Hf Ht).
  split; [| split].
  - intros Hmax. apply Z.leb_le in Hmax. by rewrite Hmax.
  - intros flag Hin Hmem.
    destruct (Z.leb_spec (MAX_TURNS (END_CONDITIONS rules)) t) as [Hge | Hlt].
    + eexists. split; [done |]. lia.
    + destruct (first_lose_flag _ _) as [flag' |] eqn:Hfirst.
      * eexists. split; [done |]. intros _. exists flag'.
        split; [done |]. by apply first_lose_flag_Some.
      * rewrite first_lose_flag_None in Hfirst.
        rewrite (Hfirst flag Hin) in Hmem. discriminate.
  - intros msg H.
    destruct (Z.leb_spec (MAX_TURNS (END_CONDITIONS rules)) t) as [Hge | Hlt];
      [inversion H |].
    destruct (first_lose_flag _ _) as [flag' |] eqn:Hfirst; [inversion H |].
    destruct (forallb _ _) eqn:Hall; [| inversion H].
    split; [done |]. split.
    + by apply first_lose_flag_None.
    + intros flag Hin. rewrite forallb_forall in Hall. by apply Hall.
Qed.

Lemma check_end_conditions_precedence_witness :
  check_end_conditions 0%nat cave_rules
    (world_of "start" 10 [] [(VStr "hp_zero", VBool true); (VStr "has_gem", VBool true)] 3)
  = (Ok (Some Lose, Some (LosingCondition "hp_zero")),
     world_of "start" 10 [] [(VStr "hp_zero", VBool true); (VStr "has_gem", VBool true)] 3).
Proof.
  destruct (check_end_conditions_precedence 0%nat cave_rules
              (world_of "start" 10 []
                 [(VStr "hp_zero", VBool true); (VStr "has_gem", VBool true)] 3)
              0%nat 3%Z eq_refl eq_refl) as (_ & Hlose & _).
  destruct (Hlose "hp_zero" (or_introl eq_refl) eq_refl) as (msg & Hres & Hmsg).
  destruct (Hmsg eq_refl) as (flag' & -> & [<- | []] & _).
  exact Hres.
Defined.

(** C10. With an empty [WIN_ALL_FLAGS], every state below the turn limit
    that holds no lose flag is won. *)
Theorem check_end_conditions_empty_win state rules w f t :
  flags (state_at w state) = Some f ->
  turns (state_at w state) = Some t ->
  WIN_ALL_FLAGS (END_CONDITIONS rules) = [] ->
  (t < MAX_TURNS (END_CONDITIONS rules))%Z ->
  (forall flag, In flag (LOSE_ANY_FLAGS (END_CONDITIONS rules)) ->
                pydict_mem (dict_at w f) (VStr flag) = false) ->
  check_end_conditions state rules w = (Ok (Some Win, Some Congratulations), w).
Proof.
  intros Hf Ht Hwin Hlt Hlose.
  rewrite (check_end_conditions_eval state rules w f t Hf Ht).
  apply Z.leb_gt in Hlt. rewrite Hlt.
  apply first_lose_flag_None in Hlose. rewrite Hlose. by rewrite Hwin.
Qed.

Lemma check_end_conditions_empty_win_witness :
  check_end_conditions 0%nat (Rules 1 ∅ (EndConditions 20 ["hp_zero"] []) 2) start_world
  = (Ok (Some Win, Some Congratulations), start_world).
Proof.
  apply (check_end_conditions_empty_win 0%nat
           (Rules 1 ∅ (EndConditions 20 ["hp_zero"] []) 2) start_world 0%nat 0%Z);
    reflexivity.
Defined.

(** ** The inventory *)

Lemma list_contains_app l l' x :
  list_contains (l ++ l') x = list_contains l x || list_contains l' x.
Proof. unfold list_contains. apply existsb_app. Qed.

Lemma no_duplicates_snoc l x :
  no_duplicates l = true -> list_contains l x = false ->
  no_duplicates (l ++ [x]) = true.
Proof.
  induction l as [| y l IH]; simpl; [done |].
  intros [Hy Hl]%andb_prop [Hyx Hlx]%orb_false_elim.
  rewrite list_contains_app, IH by done. simpl.
  rewrite (py_eq_sym x y), Hyx. simpl.
  apply negb_true_iff in Hy. by rewrite Hy.
Qed.

Lemma list_remove_contains l x l' y :
  list_remove l x = Some l' -> list_contains l' y = true -> list_contains l y = true.
Proof.
  revert l'. induction l as [| e l IH]; simpl; intros l'; [done |].
  destruct (py_eq e x).
  - intros [= <-] ->. apply orb_true_r.
  - destruct (list_remove l x) as [r |]; [| done].
    intros [= <-]. simpl. intros [-> | H]%orb_prop; [done |].
    rewrite (IH r) by done. apply orb_true_r.
Qed.

Lemma list_remove_length l x l' :
  list_remove l x = Some l' -> length l = S (length l').
Proof.
  revert l'. induction l as [| e l IH]; simpl; intros l'; [done |].
  destruct (py_eq e x).
  - by intros [= <-].
  - destruct (list_remove l x) as [r |]; [| done].
    intros [= <-]. simpl. f_equal. by apply IH.
Qed.

Lemma list_remove_no_duplicates l x l' :
  list_remove l x = Some l' -> no_duplicates l = true -> no_duplicates l' = true.
Proof.
  revert l'. induction l as [| e l IH]; simpl; intros l'; [done |].
  destruct (py_eq e x).
  - by intros [= <-] [_ H]%andb_prop.
  - destruct (list_remove l x) as [r |] eqn:Hr; [| done].
    intros [= <-] [He Hl]%andb_prop. simpl.
    rewrite (IH r) by done. rewrite andb_true_r.
    apply negb_true_iff. apply negb_true_iff in He.
    destruct (list_contains r e) eqn:Hc; [| done].
    by rewrite (list_remove_contains l x r e Hr Hc) in He.
Qed.

Lemma changed_inventory_ok rules ns inv fl w w' :
  inventory_ok rules (list_at w inv) ->
  changed rules ns inv fl w w' ->
  inventory_ok rules (list_at w' inv).
Proof.
  intros [Hnd Hlen] Hch. destruct Hch; autorewrite with store; try done.
  - split; [by apply no_duplicates_snoc |]. rewrite length_app. simpl. lia.
  - split; [by eapply list_remove_no_duplicates |].
    apply list_remove_length in H. lia.
Qed.

(** C7. If the inventory of the state has no duplicates and at most
    [INVENTORY_LIMIT] items, so has the inventory of the state that
    [apply_state_changes] returns, whatever the atoms are: any number of
    [add_item] atoms, or anything else.  And the call does return a state
    when the atoms are well formed. *)
Theorem inventory_invariant state changes rules w :
  no_duplicates (inventory_of w state) = true ->
  (Z.of_nat (length (inventory_of w state)) <= INVENTORY_LIMIT rules)%Z ->
  (forall new_state w',
     apply_state_changes state changes rules w = (Ok new_state, w') ->
     no_duplicates (inventory_of w' new_state) = true
     /\ (Z.of_nat (length (inventory_of w' new_state)) <= INVENTORY_LIMIT rules)%Z)
  /\ (forall cs,
        changes = VList cs ->
        forallb well_formed_atom cs = true ->
        has_hp_and_flags (state_at w state) ->
        exists new_state w',
          apply_state_changes state changes rules w = (Ok new_state, w')).
Proof.
  intros Hnd Hlen. split.
  - intros new_state w' Hcall.
    destruct changes as [| | | | | [| c cs] |];
      try (inversion Hcall; subst; done).
    destruct (apply_state_changes_run state c cs rules w)
      as (w1 & ns & inv & fl & Hent & Hrun).
    rewrite Hrun in Hcall. clear Hrun.
    destruct (for_each _ _ w1) as [[[] | e] w2] eqn:Hloop; [| done].
    inversion Hcall; subst. clear Hcall.
    assert (Hok : inventory_ok rules (list_at w2 inv)).
    { eapply (changes_invariant (fun w => inventory_ok rules (list_at w inv)));
        [| | exact Hloop].
      - intros. by eapply changed_inventory_ok.
      - rewrite (entered_inventory _ _ _ _ _ _ Hent). by split. }
    unfold inventory_of. rewrite state_at_set_state. simpl.
    by autorewrite with store.
  - intros cs -> Hcs Hw. by apply apply_state_changes_returns.
Qed.

(** Three [add_item] atoms against a limit of one item. *)
Lemma inventory_invariant_witness :
  exists new_state w',
    apply_state_changes 0%nat three_adds cave_rules start_world = (Ok new_state, w')
    /\ no_duplicates (inventory_of w' new_state) = true
    /\ (Z.of_nat (length (inventory_of w' new_state)) <= INVENTORY_LIMIT cave_rules)%Z.
Proof.
  destruct (inventory_invariant 0%nat three_adds cave_rules start_world)
    as [Hkept Hreturns].
  - reflexivity.
  - vm_compute. discriminate.
  - destruct (Hreturns _ eq_refl) as (ns & w' & Hcall).
    + reflexivity.
    + split; eexists; reflexivity.
    + exists ns, w'. split; [exact Hcall |]. by apply Hkept.
Defined.

(** ** Health *)

Lemma pydict_get_set d k v : pydict_get (pydict_set d k v) k = Some v.
Proof.
  induction d as [| [k0 v0] d IH]; simpl.
  - by rewrite py_eq_refl.
  - destruct (py_eq k0 k) eqn:Hk; simpl; by rewrite Hk.
Qed.

(** A flag that is set stays set: entries are only added or set to [True]. *)
Lemma pydict_get_set_true d k k' :
  pydict_get d k = Some (VBool true) ->
  pydict_get (pydict_set d k' (VBool true)) k = Some (VBool true).
Proof.
  induction d as [| [k0 v0] d IH]; simpl; [done |].
  destruct (py_eq k0 k') eqn:Hk'; simpl; destruct (py_eq k0 k); auto.
Qed.

Lemma changed_flag_stays rules ns inv fl w w' f k :
  pydict_get (dict_at w f) k = Some (VBool true) ->
  changed rules ns inv fl w w' ->
  pydict_get (dict_at w' f) k = Some (VBool true).
Proof.
  intros Hset Hch. destruct Hch; autorewrite with store; try done.
  - destruct (decide (fl = f)) as [-> | Hne].
    + rewrite dict_at_set_dict. by apply pydict_get_set_true.
    + by rewrite dict_at_set_dict_ne.
  - destruct (decide (f0 = f)) as [-> | Hne].
    + rewrite dict_at_set_dict. by apply pydict_get_set_true.
    + by rewrite dict_at_set_dict_ne.
Qed.

Lemma changed_hp_ok rules ns inv fl w w' :
  hp_ok (state_at w ns) ->
  changed rules ns inv fl w w' ->
  hp_ok (state_at w' ns).
Proof.
  intros Hok Hch. destruct Hch; autorewrite with store; try done.
  - exists (h + delta)%Z. split; [done | lia].
  - by exists 0%Z.
Qed.

(** What an [hp_delta] atom does when the state has ["hp"] and ["flags"]. *)
Lemma apply_change_hp_delta rules ns inv fl d w h f delta :
  dict_get d "atom" = Some (VStr "hp_delta") ->
  py_int (default (VInt 0) (dict_get d "delta")) = Ok delta ->
  hp (state_at w ns) = Some h ->
  flags (state_at w ns) = Some f ->
  apply_change rules ns inv fl (VDict d) w =
  (Ok tt,
   if (h + delta <=? 0)%Z
   then set_dict f (pydict_set (dict_at w f) (VStr "hp_zero") (VBool true))
          (set_state ns (with_hp 0 (state_at w ns)) w)
   else set_state ns (with_hp (h + delta) (state_at w ns)) w).
Proof.
  intros Hatom Hdelta Hhp Hf. unfold apply_change. rewrite Hatom. simpl.
  unfold bind, lift. rewrite Hdelta.
  unfold getitem, bind, read_state. rewrite Hhp.
  unfold ret, setitem, bind, read_state, write_state.
  rewrite state_at_set_state. simpl.
  destruct (h + delta <=? 0)%Z; [| done].
  rewrite !state_at_set_state. simpl. rewrite Hf.
  unfold read_dict, write_dict. by rewrite set_state_twice.
Qed.

(** ** Moves *)

(** What a [move_to] atom does when its target can be hashed. *)
Lemma apply_change_move_to rules ns inv fl d w target lock :
  dict_get d "atom" = Some (VStr "move_to") ->
  default VNone (dict_get d "target") = target ->
  locks_lookup (LOCKS rules) target = Ok lock ->
  apply_change rules ns inv fl (VDict d) w =
  (Ok tt,
   match lock with
   | Some required_flag =>
       if pydict_mem (dict_at w fl) (VStr required_flag)
       then set_state ns (with_location target (state_at w ns)) w
       else emit (MoveBlocked target required_flag) w
   | None => set_state ns (with_location target (state_at w ns)) w
   end).
Proof.
  intros Hatom <- Hlock. unfold apply_change. rewrite Hatom. simpl.
  unfold bind, lift. rewrite Hlock.
  destruct lock as [rf |]; [| done].
  unfold read_dict. by destruct (pydict_mem _ _).
Qed.

Lemma for_each_one {A} (x : A) body w :
  for_each [x] body w = body x w.
Proof.
  simpl. unfold bind, ret. by destruct (body x w) as [[[] | e] w'].
Qed.

(** C6. A call with one [move_to] atom whose target can be looked up in
    [LOCKS] (any target but a list or a dictionary; a location named by a
    string in particular) returns a state.  If the target is locked and the
    flags of the state lack the required flag, the location of the returned
    state is the one of the caller's state; if the target is locked and the
    required flag is held, or if the target is not locked, the location of
    the returned state is the target. *)
Theorem move_to_respects_locks state rules w d target lock :
  dict_get d "atom" = Some (VStr "move_to") ->
  default VNone (dict_get d "target") = target ->
  locks_lookup (LOCKS rules) target = Ok lock ->
  exists new_state w',
    apply_state_changes state (VList [VDict d]) rules w = (Ok new_state, w')
    /\ (forall required_flag,
          lock = Some required_flag ->
          pydict_mem (flags_of w state) (VStr required_flag) = false ->
          location (state_at w' new_state) = location (state_at w state))
    /\ (forall required_flag,
          lock = Some required_flag ->
          pydict_mem (flags_of w state) (VStr required_flag) = true ->
          location (state_at w' new_state) = Some target)
    /\ (lock = None ->
        location (state_at w' new_state) = Some target).
Proof.
  intros Hatom Htarget Hlock.
  destruct (apply_state_changes_run state (VDict d) [] rules w)
    as (w1 & ns & inv & fl & Hent & Hrun).
  rewrite Hrun. clear Hrun.
  rewrite for_each_one,
    (apply_change_move_to rules ns inv fl d w1 target lock Hatom Htarget Hlock).
  rewrite (entered_flags _ _ _ _ _ _ Hent).
  do 2 eexists. split; [reflexivity |].
  rewrite state_at_set_state. simpl.
  split; [| split].
  - intros rf -> ->. autorewrite with store.
    by rewrite (entered_state _ _ _ _ _ _ Hent).
  - intros rf -> ->. by autorewrite with store.
  - intros ->. by autorewrite with store.
Qed.

(** The first scenario of the specification: the cave is locked and the
    torch is missing. *)
Lemma move_to_respects_locks_witness :
  exists new_state w',
    apply_state_changes 0%nat (VList [VDict go_cave]) cave_rules start_world
    = (Ok new_state, w')
    /\ location (state_at w' new_state) = Some (VStr "start").
Proof.
  destruct (move_to_respects_locks 0%nat cave_rules start_world go_cave (VStr "cave")
              (Some "has_torch") eq_refl eq_refl eq_refl)
    as (ns & w' & Hcall & Hblocked & _ & _).
  exists ns, w'. split; [exact Hcall |].
  apply (Hblocked "has_torch"); reflexivity.
Defined.

(** ** Adding and removing items *)

Lemma occurrences_absent l x : list_contains l x = false -> occurrences l x = 0%nat.
Proof.
  induction l as [| e l IH]; simpl; [done |].
  intros [-> Hl]%orb_false_elim. by rewrite IH.
Qed.

Lemma occurrences_app l l' x : occurrences (l ++ l') x = (occurrences l x + occurrences l' x)%nat.
Proof. induction l as [| e l IH]; simpl; [done |]. rewrite IH. lia. Qed.

Lemma list_remove_snoc_absent l x :
  list_contains l x = false -> list_remove (l ++ [x]) x = Some l.
Proof.
  induction l as [| e l IH]; simpl.
  - by rewrite py_eq_refl.
  - intros [-> Hl]%orb_false_elim. by rewrite IH.
Qed.

Lemma apply_change_add_item rules ns inv fl d w item :
  dict_get d "atom" = Some (VStr "add_item") ->
  default VNone (dict_get d "item") = item ->
  apply_change rules ns inv fl (VDict d) w =
  (Ok tt,
   if (INVENTORY_LIMIT rules <=? Z.of_nat (length (list_at w inv)))%Z
   then emit (AddBlocked item (INVENTORY_LIMIT rules)) w
   else if list_contains (list_at w inv) item then w
        else set_list inv (list_at w inv ++ [item]) w).
Proof.
  intros Hatom <-. unfold apply_change. rewrite Hatom. simpl.
  unfold bind, read_list.
  destruct (_ <=? _)%Z; [done |]. by destruct (list_contains _ _).
Qed.

Lemma apply_change_remove_item rules ns inv fl d w item :
  dict_get d "atom" = Some (VStr "remove_item") ->
  default VNone (dict_get d "item") = item ->
  apply_change rules ns inv fl (VDict d) w =
  if list_contains (list_at w inv) item
  then match list_remove (list_at w inv) item with
       | Some inv' => (Ok tt, set_list inv inv' w)
       | None => (Raise ValueError, w)
       end
  else (Ok tt, w).
Proof.
  intros Hatom <-. unfold apply_change. rewrite Hatom. simpl.
  unfold bind, read_list.
  destruct (list_contains _ _); [| done]. by destruct (list_remove _ _).
Qed.

Lemma for_each_two {A} (x y : A) body w :
  for_each [x; y] body w =
  match body x w with
  | (Ok _, w') => body y w'
  | (Raise e, w') => (Raise e, w')
  end.
Proof.
  change [x; y] with ([x] ++ [y]). rewrite for_each_app, !for_each_one.
  destruct (body x w) as [[[] | e] w']; [| done]. apply for_each_one.
Qed.

(** C8, as the code has it.  For an item that is not in the inventory and
    an inventory below [INVENTORY_LIMIT]: [add_item] followed by
    [remove_item] returns a state whose inventory is the one before the
    call, and [remove_item] followed by [add_item] returns a state whose
    inventory is the old one with the item appended, so that the item
    occurs exactly once.  The atoms take effect in the order given. *)
Theorem add_remove_in_order state rules w item add remove :
  dict_get add "atom" = Some (VStr "add_item") ->
  default VNone (dict_get add "item") = item ->
  dict_get remove "atom" = Some (VStr "remove_item") ->
  default VNone (dict_get remove "item") = item ->
  (Z.of_nat (length (inventory_of w state)) < INVENTORY_LIMIT rules)%Z ->
  list_contains (inventory_of w state) item = false ->
  (exists new_state w',
     apply_state_changes state (VList [VDict add; VDict remove]) rules w = (Ok new_state, w')
     /\ inventory_of w' new_state = inventory_of w state)
  /\ (exists new_state w',
        apply_state_changes state (VList [VDict remove; VDict add]) rules w
        = (Ok new_state, w')
        /\ inventory_of w' new_state = inventory_of w state ++ [item]
        /\ occurrences (inventory_of w' new_state) item = 1%nat).
Proof.
  intros Hadd Hitem Hrem Hitem' Hlen Habsent. apply Z.leb_gt in Hlen. split.
  - destruct (apply_state_changes_run state (VDict add) [VDict remove] rules w)
      as (w1 & ns & inv & fl & Hent & Hrun).
    rewrite Hrun. clear Hrun. rewrite for_each_two.
    rewrite (apply_change_add_item rules ns inv fl add w1 item Hadd Hitem).
    rewrite (entered_inventory _ _ _ _ _ _ Hent), Hlen, Habsent.
    rewrite (apply_change_remove_item rules ns inv fl remove _ item Hrem Hitem').
    rewrite list_at_set_list, list_contains_app. simpl.
    rewrite py_eq_refl, orb_true_r, (list_remove_snoc_absent _ _ Habsent).
    do 2 eexists. split; [reflexivity |].
    unfold inventory_of. rewrite state_at_set_state. simpl.
    by autorewrite with store.
  - destruct (apply_state_changes_run state (VDict remove) [VDict add] rules w)
      as (w1 & ns & inv & fl & Hent & Hrun).
    rewrite Hrun. clear Hrun. rewrite for_each_two.
    rewrite (apply_change_remove_item rules ns inv fl remove w1 item Hrem Hitem').
    rewrite (entered_inventory _ _ _ _ _ _ Hent), Habsent.
    rewrite (apply_change_add_item rules ns inv fl add w1 item Hadd Hitem).
    rewrite (entered_inventory _ _ _ _ _ _ Hent), Hlen, Habsent.
    do 2 eexists. split; [reflexivity |].
    unfold inventory_of. rewrite state_at_set_state. simpl.
    autorewrite with store. fold (inventory_of w state). split; [done |].
    rewrite occurrences_app, (occurrences_absent _ _ Habsent). simpl.
    by rewrite py_eq_refl.
Qed.

Lemma add_remove_in_order_witness :
  (exists new_state w',
     apply_state_changes 0%nat (VList [VDict add_sword; VDict remove_sword]) roomy_rules
       start_world = (Ok new_state, w')
     /\ inventory_of w' new_state = [])
  /\ (exists new_state w',
        apply_state_changes 0%nat (VList [VDict remove_sword; VDict add_sword]) roomy_rules
          start_world = (Ok new_state, w')
        /\ inventory_of w' new_state = [VStr "sword"]
        /\ occurrences (inventory_of w' new_state) (VStr "sword") = 1%nat).
Proof.
  apply (add_remove_in_order 0%nat roomy_rules start_world (VStr "sword")
           add_sword remove_sword); reflexivity.
Defined.

(** C8 as stated fails when the item is already held: [add_item] finds it
    and does nothing, [remove_item] then removes it. *)
Lemma add_remove_held_item_counterexample :
  inventory_of (world_of "start" 10 [VStr "sword"] [] 0) 0%nat = [VStr "sword"]
  /\ (Z.of_nat (length (inventory_of (world_of "start" 10 [VStr "sword"] [] 0) 0%nat))
      <? INVENTORY_LIMIT roomy_rules)%Z = true
  /\ (apply_state_changes 0%nat (VList [VDict add_sword; VDict remove_sword]) roomy_rules
        (world_of "start" 10 [VStr "sword"] [] 0)).1 = Ok 1%nat
  /\ inventory_of
       (apply_state_changes 0%nat (VList [VDict add_sword; VDict remove_sword]) roomy_rules
          (world_of "start" 10 [VStr "sword"] [] 0)).2 1%nat = [].
Proof. vm_compute. repeat split; reflexivity. Qed.

(** ** Malformed atoms *)


(** ** Where the code departs from the specification *)

(** C1. An [hp_delta] atom whose delta is the string ["abc"] makes
    [apply_state_changes] raise [ValueError], and one whose delta is [null]
    makes it raise [TypeError], for every state, rule set and world:
    [int(...)] is evaluated unguarded. *)
Theorem hp_delta_non_numeric_raises state rules w :
  (apply_state_changes state (VList [atom1 "hp_delta" "delta" (VStr "abc")]) rules w).1
  = Raise ValueError
  /\ (apply_state_changes state (VList [atom1 "hp_delta" "delta" VNone]) rules w).1
     = Raise TypeError.
Proof.
  split.
  - destruct (apply_state_changes_run state (atom1 "hp_delta" "delta" (VStr "abc")) []
                rules w) as (w1 & ns & inv & fl & _ & Hrun).
    rewrite Hrun, for_each_one. reflexivity.
  - destruct (apply_state_changes_run state (atom1 "hp_delta" "delta" VNone) []
                rules w) as (w1 & ns & inv & fl & _ & Hrun).
    rewrite Hrun, for_each_one. reflexivity.
Qed.

(** C2. When the backend fails, [call_ollama] returns [None] and the turn
    stops with [AttributeError] at [llm_response.get]: the turn counter has
    been advanced, no atom has been applied, and the loop does not go on.
    The same happens when the backend answers with JSON that is not an
    object. *)
Theorem main_turn_backend_failure state rules w t :
  turns (state_at w state) = Some t ->
  main_turn state NotJson rules w
  = (Raise AttributeError,
     emit BackendError (set_state state (with_turns (t + 1) (state_at w state)) w))
  /\ main_turn state ChatFailed rules w
     = (Raise AttributeError,
        emit BackendError (set_state state (with_turns (t + 1) (state_at w state)) w))
  /\ (forall v,
        is_dict v = false ->
        main_turn state (Decoded v) rules w
        = (Raise AttributeError,
           set_state state (with_turns (t + 1) (state_at w state)) w)).
Proof.
  intros Ht. unfold main_turn, getitem, bind, read_state. rewrite Ht.
  split; [done | split; [done |]].
  intros v Hv. by destruct v.
Qed.

Lemma main_turn_backend_failure_witness :
  main_turn 0%nat NotJson cave_rules start_world
  = (Raise AttributeError,
     emit BackendError
       (set_state 0%nat (with_turns 1 (state_at start_world 0%nat)) start_world)).
Proof.
  apply (main_turn_backend_failure 0%nat cave_rules start_world 0%Z). reflexivity.
Defined.

Lemma apply_change_set_flag rules ns inv fl d w flag :
  dict_get d "atom" = Some (VStr "set_flag") ->
  default VNone (dict_get d "flag") = flag ->
  hashable flag = true ->
  apply_change rules ns inv fl (VDict d) w =
  (Ok tt, set_dict fl (pydict_set (dict_at w fl) flag (VBool true)) w).
Proof.
  intros Hatom <- Hhash. unfold apply_change. rewrite Hatom. simpl. by rewrite Hhash.
Qed.

(** C9. Only the shape and the kind of an atom are checked (an atom that is
    no dictionary or has no known kind is skipped with a diagnostic, see
    [rejected_atoms_change_nothing]); a known atom that lacks its field is
    not skipped.  [move_to] without a target sets the location to [None],
    [set_flag] without a flag sets a flag named [None], [add_item] without
    an item appends [None] to the inventory.  Only [hp_delta] reads its
    missing field as a value that changes nothing, the delta 0. *)
Theorem atom_without_its_field_is_applied state rules w :
  (forall d,
     dict_get d "atom" = Some (VStr "move_to") ->
     dict_get d "target" = None ->
     exists new_state w',
       apply_state_changes state (VList [VDict d]) rules w = (Ok new_state, w')
       /\ location (state_at w' new_state) = Some VNone)
  /\ (forall d,
        dict_get d "atom" = Some (VStr "set_flag") ->
        dict_get d "flag" = None ->
        exists new_state w',
          apply_state_changes state (VList [VDict d]) rules w = (Ok new_state, w')
          /\ flags_of w' new_state = pydict_set (flags_of w state) VNone (VBool true))
  /\ (forall d,
        dict_get d "atom" = Some (VStr "add_item") ->
        dict_get d "item" = None ->
        (Z.of_nat (length (inventory_of w state)) < INVENTORY_LIMIT rules)%Z ->
        list_contains (inventory_of w state) VNone = false ->
        exists new_state w',
          apply_state_changes state (VList [VDict d]) rules w = (Ok new_state, w')
          /\ inventory_of w' new_state = inventory_of w state ++ [VNone])
  /\ (forall d h,
        dict_get d "atom" = Some (VStr "hp_delta") ->
        dict_get d "delta" = None ->
        hp (state_at w state) = Some h ->
        (0 < h)%Z ->
        exists new_state w',
          apply_state_changes state (VList [VDict d]) rules w = (Ok new_state, w')
          /\ location (state_at w' new_state) = location (state_at w state)
          /\ hp (state_at w' new_state) = Some h
          /\ inventory_of w' new_state = inventory_of w state
          /\ flags_of w' new_state = flags_of w state).
Proof.
  split; [| split; [| split]].
  - intros d Hatom Htarget.
    destruct (apply_state_changes_run state (VDict d) [] rules w)
      as (w1 & ns & inv & fl & Hent & Hrun).
    rewrite Hrun, for_each_one.
    rewrite (apply_change_move_to rules ns inv fl d w1 VNone None Hatom);
      [| by rewrite Htarget | done].
    do 2 eexists. split; [reflexivity |]. by rewrite !state_at_set_state.
  - intros d Hatom Hflag.
    destruct (apply_state_changes_run state (VDict d) [] rules w)
      as (w1 & ns & inv & fl & Hent & Hrun).
    rewrite Hrun, for_each_one.
    rewrite (apply_change_set_flag rules ns inv fl d w1 VNone Hatom);
      [| by rewrite Hflag | done].
    do 2 eexists. split; [reflexivity |].
    unfold flags_of at 1. rewrite state_at_set_state. simpl.
    autorewrite with store. by rewrite (entered_flags _ _ _ _ _ _ Hent).
  - intros d Hatom Hitem Hroom Habsent.
    destruct (apply_state_changes_run state (VDict d) [] rules w)
      as (w1 & ns & inv & fl & Hent & Hrun).
    rewrite Hrun, for_each_one.
    rewrite (apply_change_add_item rules ns inv fl d w1 VNone Hatom);
      [| by rewrite Hitem].
    rewrite (entered_inventory _ _ _ _ _ _ Hent), Habsent.
    apply Z.leb_gt in Hroom. rewrite Hroom.
    do 2 eexists. split; [reflexivity |].
    unfold inventory_of at 1. rewrite state_at_set_state. simpl.
    by autorewrite with store.
  - intros d h Hatom Hdelta Hhp Hpos.
    destruct (apply_state_changes_run state (VDict d) [] rules w)
      as (w1 & ns & inv & fl & Hent & Hrun).
    rewrite Hrun, for_each_one.
    assert (Hstep : apply_change rules ns inv fl (VDict d) w1
                    = (Ok tt, set_state ns (with_hp h (state_at w1 ns)) w1)).
    { unfold apply_change. rewrite Hatom, Hdelta. simpl.
      unfold bind, lift, getitem, setitem, bind, read_state, write_state, ret.
      rewrite (entered_state _ _ _ _ _ _ Hent), Hhp. simpl.
      rewrite !state_at_set_state. simpl. rewrite Z.add_0_r.
      assert ((h <=? 0)%Z = false) as -> by (apply Z.leb_gt; lia).
      by rewrite (entered_state _ _ _ _ _ _ Hent). }
    rewrite Hstep. do 2 eexists. split; [reflexivity |].
    unfold inventory_of, flags_of. rewrite !state_at_set_state. simpl.
    autorewrite with store.
    rewrite (entered_inventory _ _ _ _ _ _ Hent), (entered_flags _ _ _ _ _ _ Hent).
    by rewrite (entered_state _ _ _ _ _ _ Hent).
Qed.

(** From ["start"] to [None]. *)
Lemma atom_without_its_field_is_applied_witness :
  location (state_at start_world 0%nat) = Some (VStr "start")
  /\ exists new_state w',
       apply_state_changes 0%nat (VList [VDict [("atom", VStr "move_to")]]) cave_rules
         start_world = (Ok new_state, w')
       /\ location (state_at w' new_state) = Some VNone.
Proof.
  split; [reflexivity |].
  apply (proj1 (atom_without_its_field_is_applied 0%nat cave_rules start_world));
    reflexivity.
Defined.

(** C3. The copy made by [apply_state_changes] is shallow: the returned
    state is a new dictionary that holds the caller's own list and dict
    objects.  After a call with an [add_item] atom for an item that is not
    held, the inventory of the caller's state has the item; after a call
    with a [set_flag] atom, the flags of the caller's state have the flag.
    With an empty atom list the caller's state itself is returned. *)
Theorem apply_state_changes_mutates_caller state rules w :
  is_Some (states w !! state) ->
  (forall d item l,
     inventory (state_at w state) = Some l ->
     dict_get d "atom" = Some (VStr "add_item") ->
     default VNone (dict_get d "item") = item ->
     (Z.of_nat (length (inventory_of w state)) < INVENTORY_LIMIT rules)%Z ->
     list_contains (inventory_of w state) item = false ->
     exists new_state w',
       apply_state_changes state (VList [VDict d]) rules w = (Ok new_state, w')
       /\ new_state <> state
       /\ inventory (state_at w' new_state) = Some l
       /\ inventory (state_at w' state) = Some l
       /\ inventory_of w' state = inventory_of w state ++ [item])
  /\ (forall d flag f,
        flags (state_at w state) = Some f ->
        dict_get d "atom" = Some (VStr "set_flag") ->
        default VNone (dict_get d "flag") = flag ->
        hashable flag = true ->
        exists new_state w',
          apply_state_changes state (VList [VDict d]) rules w = (Ok new_state, w')
          /\ new_state <> state
          /\ flags (state_at w' new_state) = Some f
          /\ flags (state_at w' state) = Some f
          /\ flags_of w' state = pydict_set (flags_of w state) flag (VBool true))
  /\ apply_state_changes state (VList []) rules w = (Ok state, w).
Proof.
  intros Hstate. split; [| split; [| done]].
  - intros d item l Hinv Hatom Hitem Hlen Habsent.
    apply Z.leb_gt in Hlen.
    destruct (apply_state_changes_run state (VDict d) [] rules w)
      as (w1 & ns & inv & fl & Hent & Hrun).
    rewrite Hrun. clear Hrun. rewrite for_each_one.
    rewrite (apply_change_add_item rules ns inv fl d w1 item Hatom Hitem).
    rewrite (entered_inventory _ _ _ _ _ _ Hent), Hlen, Habsent.
    pose proof (entered_inventory_alias _ _ _ _ _ _ Hent) as Halias.
    rewrite Hinv in Halias. destruct Halias as [-> Hlists].
    assert (Hne : ns <> state).
    { rewrite (entered_new _ _ _ _ _ _ Hent). by apply fresh_state_ne. }
    assert (Hst : state_at w1 state = state_at w state).
    { unfold state_at. rewrite (entered_states _ _ _ _ _ _ Hent).
      by rewrite lookup_insert_ne. }
    do 2 eexists. split; [reflexivity |]. split; [exact Hne |].
    split; [by rewrite state_at_set_state |].
    unfold inventory_of.
    rewrite (state_at_set_state_ne _ _ _ _ Hne). autorewrite with store.
    rewrite Hst, Hinv. split; [done |].
    by autorewrite with store.
  - intros d flag f Hfl Hatom Hflag Hhash.
    destruct (apply_state_changes_run state (VDict d) [] rules w)
      as (w1 & ns & inv & fl & Hent & Hrun).
    rewrite Hrun. clear Hrun. rewrite for_each_one.
    rewrite (apply_change_set_flag rules ns inv fl d w1 flag Hatom Hflag Hhash).
    rewrite (entered_flags _ _ _ _ _ _ Hent).
    pose proof (entered_flags_alias _ _ _ _ _ _ Hent) as Halias.
    rewrite Hfl in Halias. destruct Halias as [-> Hdicts].
    assert (Hne : ns <> state).
    { rewrite (entered_new _ _ _ _ _ _ Hent). by apply fresh_state_ne. }
    assert (Hst : state_at w1 state = state_at w state).
    { unfold state_at. rewrite (entered_states _ _ _ _ _ _ Hent).
      by rewrite lookup_insert_ne. }
    do 2 eexists. split; [reflexivity |]. split; [exact Hne |].
    split; [by rewrite state_at_set_state |].
    unfold flags_of.
    rewrite (state_at_set_state_ne _ _ _ _ Hne). autorewrite with store.
    rewrite Hst, Hfl. split; [done |].
    by autorewrite with store.
Qed.

Lemma apply_state_changes_mutates_caller_witness :
  exists new_state w',
    apply_state_changes 0%nat (VList [VDict add_sword]) roomy_rules start_world
    = (Ok new_state, w')
    /\ new_state <> 0%nat
    /\ inventory_of start_world 0%nat = []
    /\ inventory_of w' 0%nat = [VStr "sword"].
Proof.
  destruct (apply_state_changes_mutates_caller 0%nat roomy_rules start_world)
    as (Hinv & _ & _).
  - eexists. reflexivity.
  - destruct (Hinv add_sword (VStr "sword") 0%nat) as (ns & w' & H1 & H2 & _ & _ & H3);
      try reflexivity.
    exists ns, w'. repeat split; try assumption.
Defined.

(** * Further properties of the engine *)

(** ** What a call leaves alone *)

Ltac frame_done :=
  repeat split; intros; try done;
  try (by rewrite lookup_insert_ne);
  try (by autorewrite with store).

(** What the loop body does to the store, whether it completes or raises:
    of the state dictionaries only [new_state] is written, and there only
    ["location"] (by [move_to]) and ["hp"] (by [hp_delta]); of the lists
    only [inventory_ref] is written, by [add_item] and [remove_item]; the
    dictionaries are written only by [set_flag] and [hp_delta]. *)
Lemma apply_change_effect rules ns inv fl c w r w' :
  apply_change rules ns inv fl c w = (r, w') ->
  (forall l, l <> ns -> states w' !! l = states w !! l)
  /\ turns (state_at w' ns) = turns (state_at w ns)
  /\ inventory (state_at w' ns) = inventory (state_at w ns)
  /\ flags (state_at w' ns) = flags (state_at w ns)
  /\ (kind_is "move_to" c = false ->
      location (state_at w' ns) = location (state_at w ns))
  /\ (kind_is "hp_delta" c = false -> hp (state_at w' ns) = hp (state_at w ns))
  /\ (forall l, l <> inv -> lists w' !! l = lists w !! l)
  /\ (kind_is "add_item" c = false -> kind_is "remove_item" c = false ->
      lists w' = lists w)
  /\ (kind_is "set_flag" c = false -> kind_is "hp_delta" c = false ->
      dicts w' = dicts w).
Proof.
  unfold apply_change. intros H.
  destruct c as [| | | | | | d];
    try (inversion H; subst; repeat split; done).
  unfold kind_is.
  destruct (py_eq _ (VStr "move_to")) eqn:Emove.
  { unfold bind, lift in H.
    destruct (locks_lookup _ _) as [[rf|]|];
      [unfold read_dict in H; destruct (negb _) | |];
      inversion H; subst; simpl;
      frame_done. }
  destruct (py_eq _ (VStr "add_item")) eqn:Eadd.
  { unfold bind, read_list in H.
    destruct (_ <=? _)%Z; [| destruct (negb _)];
      inversion H; subst; simpl;
      frame_done. }
  destruct (py_eq _ (VStr "remove_item")) eqn:Eremove.
  { unfold bind, read_list in H.
    destruct (list_contains _ _); [destruct (list_remove _ _) |];
      inversion H; subst; simpl;
      frame_done. }
  destruct (py_eq _ (VStr "set_flag")) eqn:Eflag.
  { destruct (hashable _);
      inversion H; subst; simpl; repeat split; intros; done. }
  destruct (py_eq _ (VStr "hp_delta")) eqn:Ehp;
    [| inversion H; subst; repeat split; done].
  unfold bind, lift in H.
  destruct (py_int _) as [delta|]; [| inversion H; subst; repeat split; done].
  unfold getitem, bind, read_state in H.
  destruct (hp (state_at w ns)) as [h|] eqn:Hhp;
    [| inversion H; subst; repeat split; done].
  unfold ret, setitem, bind, read_state, write_state in H.
  rewrite state_at_set_state in H. simpl in H.
  destruct (_ <=? _)%Z.
  - rewrite !state_at_set_state in H. simpl in H. rewrite set_state_twice in H.
    destruct (flags (state_at w ns)) as [f|] eqn:Hf;
      inversion H; subst; simpl;
      frame_done.
  - inversion H; subst; simpl;
      frame_done.
Qed.

(** A relation between worlds that every pass through the loop body
    respects is respected by the loop, whether it completes or raises. *)
Lemma for_each_preserves {A} (R : world -> world -> Prop) (body : A -> M unit) xs :
  (forall w, R w w) ->
  (forall a b c, R a b -> R b c -> R a c) ->
  (forall x w r w', In x xs -> body x w = (r, w') -> R w w') ->
  forall w r w', for_each xs body w = (r, w') -> R w w'.
Proof.
  intros Hrefl Htrans. induction xs as [| x xs IH]; intros Hbody w r w' H; simpl in H.
  - inversion H; subst. apply Hrefl.
  - unfold bind in H. destruct (body x w) as [[[] | e] w1] eqn:Hx.
    + apply (Htrans _ w1).
      * eapply Hbody; [by left | exact Hx].
      * eapply IH; [| exact H]. intros y v r' v' Hy. apply Hbody. by right.
    + inversion H; subst. eapply Hbody; [by left | exact Hx].
Qed.

(** The state dictionaries other than [new_state] are not written, and in
    [new_state] the keys ["turns"], ["inventory"] and ["flags"] are not. *)
Lemma for_each_effect rules ns inv fl cs w r w' :
  for_each cs (apply_change rules ns inv fl) w = (r, w') ->
  (forall l, l <> ns -> states w' !! l = states w !! l)
  /\ turns (state_at w' ns) = turns (state_at w ns)
  /\ inventory (state_at w' ns) = inventory (state_at w ns)
  /\ flags (state_at w' ns) = flags (state_at w ns).
Proof.
  apply (for_each_preserves
           (fun w w' =>
              (forall l, l <> ns -> states w' !! l = states w !! l)
              /\ turns (state_at w' ns) = turns (state_at w ns)
              /\ inventory (state_at w' ns) = inventory (state_at w ns)
              /\ flags (state_at w' ns) = flags (state_at w ns))).
  - done.
  - intros a b c (H1 & H2 & H3 & H4) (H1' & H2' & H3' & H4'). repeat split.
    + intros l Hl. by rewrite H1', H1.
    + by rewrite H2', H2.
    + by rewrite H3', H3.
    + by rewrite H4', H4.
  - intros c v r' v' _ H.
    destruct (apply_change_effect rules ns inv fl c v r' v' H) as (? & ? & ? & ? & _).
    done.
Qed.

(** X1. The caller's state dictionary is never written, whether the call
    returns or raises: after the call it holds the location, the hp, the
    turn counter and the inventory and flags objects it held before.  (What
    the call changes in place are those two objects, not the dictionary.) *)
Theorem apply_state_changes_keeps_caller_bindings state changes rules w r w' :
  is_Some (states w !! state) ->
  apply_state_changes state changes rules w = (r, w') ->
  states w' !! state = states w !! state.
Proof.
  intros Hstate Hcall.
  destruct changes as [| | | | | [| c cs] |];
    try (inversion Hcall; subst; done).
  destruct (apply_state_changes_run state c cs rules w)
    as (w1 & ns & inv & fl & Hent & Hrun).
  rewrite Hrun in Hcall. clear Hrun.
  assert (Hne : ns <> state).
  { rewrite (entered_new _ _ _ _ _ _ Hent). by apply fresh_state_ne. }
  destruct (for_each _ _ w1) as [o w2] eqn:Hloop.
  destruct (for_each_effect rules ns inv fl (c :: cs) w1 o w2 Hloop) as (Hframe & _).
  assert (H1 : states w2 !! state = states w !! state).
  { rewrite (Hframe state) by done. rewrite (entered_states _ _ _ _ _ _ Hent).
    by rewrite lookup_insert_ne. }
  destruct o as [[] | e]; inversion Hcall; subst; simpl; [| done].
  by rewrite lookup_insert_ne.
Qed.

Lemma apply_state_changes_keeps_caller_bindings_witness :
  states (apply_state_changes 0%nat three_adds cave_rules start_world).2 !! 0%nat
  = states start_world !! 0%nat.
Proof.
  eapply (apply_state_changes_keeps_caller_bindings 0%nat three_adds cave_rules start_world).
  - eexists. reflexivity.
  - apply surjective_pairing.
Defined.

Lemma apply_state_changes_turns state changes rules w new_state w' :
  apply_state_changes state changes rules w = (Ok new_state, w') ->
  turns (state_at w' new_state) = turns (state_at w state).
Proof.
  intros Hcall.
  destruct changes as [| | | | | [| c cs] |];
    try (inversion Hcall; subst; done).
  destruct (apply_state_changes_run state c cs rules w)
    as (w1 & ns & inv & fl & Hent & Hrun).
  rewrite Hrun in Hcall. clear Hrun.
  destruct (for_each _ _ w1) as [[[] | e] w2] eqn:Hloop; [| done].
  destruct (for_each_effect rules ns inv fl (c :: cs) w1 _ w2 Hloop) as (_ & Hturns & _).
  inversion Hcall; subst. rewrite state_at_set_state. simpl.
  by rewrite Hturns, (entered_state _ _ _ _ _ _ Hent).
Qed.

(** X2. No atom changes the turn counter: the state that
    [apply_state_changes] returns has the turn counter of the caller's
    state, whatever the atoms are. *)
Theorem apply_state_changes_keeps_turns state changes rules w new_state w' :
  apply_state_changes state changes rules w = (Ok new_state, w') ->
  turns (state_at w' new_state) = turns (state_at w state).
Proof. apply apply_state_changes_turns. Qed.

Lemma apply_state_changes_keeps_turns_witness :
  turns (state_at (apply_state_changes 0%nat hurt cave_rules hurt_world).2 1%nat)
  = turns (state_at hurt_world 0%nat).
Proof.
  apply (apply_state_changes_keeps_turns 0%nat hurt cave_rules hurt_world 1%nat).
  vm_compute. reflexivity.
Defined.

(** ** Flags are only ever added *)

Lemma pydict_mem_set d k k' v :
  pydict_mem d k = true -> pydict_mem (pydict_set d k' v) k = true.
Proof.
  unfold pydict_mem. induction d as [| [k0 v0] d IH]; simpl; [done |].
  destruct (py_eq k0 k') eqn:Hk'; simpl; destruct (py_eq k0 k); simpl; auto.
Qed.

Lemma pydict_mem_set_same d k v : pydict_mem (pydict_set d k v) k = true.
Proof.
  unfold pydict_mem. induction d as [| [k0 v0] d IH]; simpl.
  - by rewrite py_eq_refl.
  - destruct (py_eq k0 k) eqn:Hk; simpl; rewrite Hk; simpl; auto.
Qed.

Lemma changed_flag_kept rules ns inv fl w w' f k :
  pydict_mem (dict_at w f) k = true ->
  changed rules ns inv fl w w' ->
  pydict_mem (dict_at w' f) k = true.
Proof.
  intros Hset Hch. destruct Hch; autorewrite with store; try done.
  - destruct (decide (fl = f)) as [-> | Hne].
    + rewrite dict_at_set_dict. by apply pydict_mem_set.
    + by rewrite dict_at_set_dict_ne.
  - destruct (decide (f0 = f)) as [-> | Hne].
    + rewrite dict_at_set_dict. by apply pydict_mem_set.
    + by rewrite dict_at_set_dict_ne.
Qed.

(** X3. Flags are never unset: every flag that the caller's state holds is
    held by the state that [apply_state_changes] returns, and a flag that
    was [True] is still [True], whatever the atoms are. *)
Theorem flags_are_never_unset state changes rules w new_state w' k :
  apply_state_changes state changes rules w = (Ok new_state, w') ->
  (pydict_mem (flags_of w state) k = true ->
   pydict_mem (flags_of w' new_state) k = true)
  /\ (pydict_get (flags_of w state) k = Some (VBool true) ->
      pydict_get (flags_of w' new_state) k = Some (VBool true)).
Proof.
  intros Hcall.
  destruct changes as [| | | | | [| c cs] |];
    try (inversion Hcall; subst; done).
  destruct (apply_state_changes_run state c cs rules w)
    as (w1 & ns & inv & fl & Hent & Hrun).
  rewrite Hrun in Hcall. clear Hrun.
  destruct (for_each _ _ w1) as [[[] | e] w2] eqn:Hloop; [| done].
  inversion Hcall; subst. clear Hcall.
  unfold flags_of at 2 4. rewrite state_at_set_state. simpl. autorewrite with store.
  rewrite <- (entered_flags _ _ _ _ _ _ Hent). split; intros Hk.
  - eapply (changes_invariant (fun w => pydict_mem (dict_at w fl) k = true));
      [| exact Hk | exact Hloop].
    intros. by eapply changed_flag_kept.
  - eapply (changes_invariant
              (fun w => pydict_get (dict_at w fl) k = Some (VBool true)));
      [| exact Hk | exact Hloop].
    intros. by eapply changed_flag_stays.
Qed.

Lemma flags_are_never_unset_witness :
  pydict_mem (flags_of (apply_state_changes 0%nat busy_atoms cave_rules torch_world).2 1%nat)
    (VStr "has_torch") = true.
Proof.
  apply (flags_are_never_unset 0%nat busy_atoms cave_rules torch_world 1%nat).
  - vm_compute. reflexivity.
  - reflexivity.
Defined.

(** ** The inventory only grows by [add_item], and not past the limit *)

Lemma py_eq_str v s : py_eq v (VStr s) = true -> v = VStr s.
Proof.
  destruct v as [| | | | t | |]; simpl; try done.
  intros H%String.eqb_eq. by subst.
Qed.

Lemma kind_is_atom kind d :
  kind_is kind (VDict d) = true -> dict_get d "atom" = Some (VStr kind).
Proof.
  unfold kind_is. intros H%py_eq_str.
  destruct (dict_get d "atom"); simpl in H; by subst.
Qed.

Lemma list_remove_In l x l' y :
  list_remove l x = Some l' -> In y l' -> In y l.
Proof.
  revert l'. induction l as [| e l IH]; simpl; intros l'; [done |].
  destruct (py_eq e x).
  - intros [= <-]. by right.
  - destruct (list_remove l x) as [r |]; [| done].
    intros [= <-] [<- | Hy]; [by left |]. right. by eapply IH.
Qed.

Lemma apply_change_inventory rules ns inv fl c w w' :
  apply_change rules ns inv fl c w = (Ok tt, w') ->
  (Z.of_nat (length (list_at w' inv))
   <= Z.max (Z.of_nat (length (list_at w inv))) (INVENTORY_LIMIT rules))%Z
  /\ (forall x, In x (list_at w' inv) ->
        In x (list_at w inv) \/ (kind_is "add_item" c = true /\ item_of c = x)).
Proof.
  intros H.
  destruct (kind_is "add_item" c) eqn:Eadd.
  { destruct c as [| | | | | | d]; try done.
    rewrite (apply_change_add_item rules ns inv fl d w _
               (kind_is_atom _ _ Eadd) eq_refl) in H.
    destruct (Z.leb_spec (INVENTORY_LIMIT rules) (Z.of_nat (length (list_at w inv))));
      [| destruct (list_contains _ _)]; inversion H; subst; autorewrite with store.
    - split; [lia | auto].
    - split; [lia | auto].
    - rewrite length_app. simpl. split; [lia |].
      intros x [Hx | [<- | []]]%in_app_or; auto. }
  destruct (kind_is "remove_item" c) eqn:Eremove.
  { destruct c as [| | | | | | d]; try done.
    rewrite (apply_change_remove_item rules ns inv fl d w _
               (kind_is_atom _ _ Eremove) eq_refl) in H.
    destruct (list_contains _ _); [destruct (list_remove _ _) as [l' |] eqn:Hr |];
      inversion H; subst; autorewrite with store.
    - apply list_remove_length in Hr as Hlen. split; [lia |].
      intros x Hx. left. by eapply list_remove_In.
    - split; [lia | auto]. }
  destruct (apply_change_effect rules ns inv fl c w _ w' H)
    as (_ & _ & _ & _ & _ & _ & _ & Hlists & _).
  unfold list_at. rewrite (Hlists Eadd Eremove). split; [lia | auto].
Qed.

(** The same over the loop: the bound on the length, and where the items
    come from. *)
Lemma for_each_inventory rules ns inv fl cs w w' :
  for_each cs (apply_change rules ns inv fl) w = (Ok tt, w') ->
  (Z.of_nat (length (list_at w' inv))
   <= Z.max (Z.of_nat (length (list_at w inv))) (INVENTORY_LIMIT rules))%Z
  /\ (forall x, In x (list_at w' inv) ->
        In x (list_at w inv)
        \/ exists c, In c cs /\ kind_is "add_item" c = true /\ item_of c = x).
Proof.
  revert w. induction cs as [| c cs IH]; intros w Hloop; simpl in Hloop.
  - inversion Hloop; subst. split; [lia | auto].
  - unfold bind in Hloop.
    destruct (apply_change rules ns inv fl c w) as [[[] | e] wm] eqn:Hstep; [| done].
    destruct (apply_change_inventory rules ns inv fl c w wm Hstep) as [Hlen Hin].
    destruct (IH wm Hloop) as [Hlen' Hin']. split; [lia |].
    intros x Hx. destruct (Hin' x Hx) as [Hn | (c0 & H0 & H1)].
    + destruct (Hin x Hn) as [? | [? ?]]; [by left |].
      right. exists c. split; [by left | done].
    + right. exists c0. split; [by right | done].
Qed.

(** X4. The inventory never grows past the limit, even when it starts
    above it: the inventory of the returned state is no longer than the
    larger of the old length and [INVENTORY_LIMIT].  And every item of it
    was in the caller's inventory or is the item of an [add_item] atom of
    the call. *)
Theorem inventory_grows_only_by_add_item state cs rules w new_state w' :
  apply_state_changes state (VList cs) rules w = (Ok new_state, w') ->
  (Z.of_nat (length (inventory_of w' new_state))
   <= Z.max (Z.of_nat (length (inventory_of w state))) (INVENTORY_LIMIT rules))%Z
  /\ (forall x, In x (inventory_of w' new_state) ->
        In x (inventory_of w state)
        \/ exists c, In c cs /\ kind_is "add_item" c = true /\ item_of c = x).
Proof.
  intros Hcall.
  destruct cs as [| c cs]; [inversion Hcall; subst; split; [lia | auto] |].
  destruct (apply_state_changes_run state c cs rules w)
    as (w1 & ns & inv & fl & Hent & Hrun).
  rewrite Hrun in Hcall. clear Hrun.
  destruct (for_each _ _ w1) as [[[] | e] w2] eqn:Hloop; [| done].
  inversion Hcall; subst. clear Hcall.
  unfold inventory_of at 1 3. rewrite state_at_set_state. simpl. autorewrite with store.
  rewrite <- (entered_inventory _ _ _ _ _ _ Hent).
  by apply (for_each_inventory rules new_state inv fl (c :: cs)).
Qed.

Lemma inventory_grows_only_by_add_item_witness :
  (Z.of_nat (length (inventory_of
                       (apply_state_changes 0%nat three_adds cave_rules crowded_world).2
                       1%nat)) <= 2)%Z.
Proof.
  apply (inventory_grows_only_by_add_item 0%nat
           [atom1 "add_item" "item" (VStr "sword");
            atom1 "add_item" "item" (VStr "shield");
            atom1 "add_item" "item" (VStr "sword")] cave_rules crowded_world 1%nat).
  vm_compute. reflexivity.
Defined.

(** ** Each kind of atom writes its own field *)

Lemma none_of_kind_In kind cs c :
  none_of_kind kind cs = true -> In c cs -> kind_is kind c = false.
Proof.
  unfold none_of_kind. rewrite forallb_forall. intros H Hc.
  apply negb_true_iff. by apply H.
Qed.

(** X5. Each field of the state is written by its own atoms only.  In a
    call without [move_to] atoms the returned state has the caller's
    location; without [hp_delta] atoms, the caller's hp; without [add_item]
    and [remove_item] atoms, the caller's inventory; without [set_flag] and
    [hp_delta] atoms, the caller's flags. *)
Theorem atoms_write_their_own_field state cs rules w new_state w' :
  apply_state_changes state (VList cs) rules w = (Ok new_state, w') ->
  (none_of_kind "move_to" cs = true ->
   location (state_at w' new_state) = location (state_at w state))
  /\ (none_of_kind "hp_delta" cs = true ->
      hp (state_at w' new_state) = hp (state_at w state))
  /\ (none_of_kind "add_item" cs = true -> none_of_kind "remove_item" cs = true ->
      inventory_of w' new_state = inventory_of w state)
  /\ (none_of_kind "set_flag" cs = true -> none_of_kind "hp_delta" cs = true ->
      flags_of w' new_state = flags_of w state).
Proof.
  intros Hcall.
  destruct cs as [| c cs]; [inversion Hcall; subst; done |].
  destruct (apply_state_changes_run state c cs rules w)
    as (w1 & ns & inv & fl & Hent & Hrun).
  rewrite Hrun in Hcall. clear Hrun.
  destruct (for_each _ _ w1) as [[[] | e] w2] eqn:Hloop; [| done].
  inversion Hcall; subst. clear Hcall.
  unfold inventory_of at 1, flags_of at 1.
  rewrite state_at_set_state. simpl. autorewrite with store.
  rewrite <- (entered_state _ _ _ _ _ _ Hent), <- (entered_inventory _ _ _ _ _ _ Hent),
    <- (entered_flags _ _ _ _ _ _ Hent).
  split; [| split; [| split]].
  - intros Hnone. revert Hloop.
    apply (for_each_preserves
             (fun w w' => location (state_at w' new_state) = location (state_at w new_state)));
      [done | intros; congruence |].
    intros x v r v' Hx H.
    destruct (apply_change_effect _ _ _ _ _ _ _ _ H) as (_ & _ & _ & _ & Hl & _).
    apply Hl. exact (none_of_kind_In _ (c :: cs) _ Hnone Hx).
  - intros Hnone. revert Hloop.
    apply (for_each_preserves
             (fun w w' => hp (state_at w' new_state) = hp (state_at w new_state)));
      [done | intros; congruence |].
    intros x v r v' Hx H.
    destruct (apply_change_effect _ _ _ _ _ _ _ _ H) as (_ & _ & _ & _ & _ & Hh & _).
    apply Hh. exact (none_of_kind_In _ (c :: cs) _ Hnone Hx).
  - intros Hadd Hremove. unfold list_at. f_equal. f_equal. revert Hloop.
    apply (for_each_preserves (fun w w' => lists w' = lists w));
      [done | intros; congruence |].
    intros x v r v' Hx H.
    destruct (apply_change_effect _ _ _ _ _ _ _ _ H)
      as (_ & _ & _ & _ & _ & _ & _ & Hl & _).
    apply Hl; [exact (none_of_kind_In _ (c :: cs) _ Hadd Hx)
             | exact (none_of_kind_In _ (c :: cs) _ Hremove Hx)].
  - intros Hflag Hhp. unfold dict_at. f_equal. f_equal. revert Hloop.
    apply (for_each_preserves (fun w w' => dicts w' = dicts w));
      [done | intros; congruence |].
    intros x v r v' Hx H.
    destruct (apply_change_effect _ _ _ _ _ _ _ _ H)
      as (_ & _ & _ & _ & _ & _ & _ & _ & Hd).
    apply Hd; [exact (none_of_kind_In _ (c :: cs) _ Hflag Hx)
             | exact (none_of_kind_In _ (c :: cs) _ Hhp Hx)].
Qed.

Lemma atoms_write_their_own_field_witness :
  hp (state_at (apply_state_changes 0%nat three_adds cave_rules start_world).2 1%nat)
  = hp (state_at start_world 0%nat)
  /\ flags_of (apply_state_changes 0%nat three_adds cave_rules start_world).2 1%nat
     = flags_of start_world 0%nat.
Proof.
  destruct (atoms_write_their_own_field 0%nat
              [atom1 "add_item" "item" (VStr "sword");
               atom1 "add_item" "item" (VStr "shield");
               atom1 "add_item" "item" (VStr "sword")] cave_rules start_world 1%nat
              (apply_state_changes 0%nat three_adds cave_rules start_world).2)
    as (_ & Hhp & _ & Hflags).
  - vm_compute. reflexivity.
  - split; [apply Hhp | apply Hflags]; reflexivity.
Defined.

(** ** Atoms of one call build on each other *)

(** X6. The lock of a move is checked against the flags as the atoms
    before it have left them.  For a locked target, [set_flag] of the
    required flag followed by [move_to] moves, whatever flags the state
    held; in the other order, from a state without the flag, the move is
    blocked although the returned state holds the flag. *)
Theorem set_flag_then_move_unlocks state rules w t required_flag set move :
  LOCKS rules !! t = Some required_flag ->
  dict_get set "atom" = Some (VStr "set_flag") ->
  default VNone (dict_get set "flag") = VStr required_flag ->
  dict_get move "atom" = Some (VStr "move_to") ->
  default VNone (dict_get move "target") = VStr t ->
  (exists new_state w',
     apply_state_changes state (VList [VDict set; VDict move]) rules w = (Ok new_state, w')
     /\ location (state_at w' new_state) = Some (VStr t)
     /\ pydict_mem (flags_of w' new_state) (VStr required_flag) = true)
  /\ (pydict_mem (flags_of w state) (VStr required_flag) = false ->
      exists new_state w',
        apply_state_changes state (VList [VDict move; VDict set]) rules w
        = (Ok new_state, w')
        /\ location (state_at w' new_state) = location (state_at w state)
        /\ pydict_mem (flags_of w' new_state) (VStr required_flag) = true).
Proof.
  intros Hlock Hset Hflag Hmove Htarget. split.
  - destruct (apply_state_changes_run state (VDict set) [VDict move] rules w)
      as (w1 & ns & inv & fl & Hent & Hrun).
    rewrite Hrun. clear Hrun. rewrite for_each_two.
    rewrite (apply_change_set_flag rules ns inv fl set w1 _ Hset Hflag eq_refl).
    rewrite (apply_change_move_to rules ns inv fl move _ _ (Some required_flag)
               Hmove Htarget (f_equal Ok Hlock)).
    rewrite dict_at_set_dict, pydict_mem_set_same.
    do 2 eexists. split; [reflexivity |].
    unfold flags_of. rewrite !state_at_set_state. simpl. autorewrite with store.
    split; [done | apply pydict_mem_set_same].
  - intros Hlacks.
    destruct (apply_state_changes_run state (VDict move) [VDict set] rules w)
      as (w1 & ns & inv & fl & Hent & Hrun).
    rewrite Hrun. clear Hrun. rewrite for_each_two.
    rewrite (apply_change_move_to rules ns inv fl move _ _ (Some required_flag)
               Hmove Htarget (f_equal Ok Hlock)).
    rewrite (entered_flags _ _ _ _ _ _ Hent), Hlacks.
    rewrite (apply_change_set_flag rules ns inv fl set _ _ Hset Hflag eq_refl).
    do 2 eexists. split; [reflexivity |].
    unfold flags_of. rewrite !state_at_set_state. simpl. autorewrite with store.
    split; [by rewrite (entered_state _ _ _ _ _ _ Hent) | apply pydict_mem_set_same].
Qed.

(** The second scenario of the specification. *)
Lemma set_flag_then_move_unlocks_witness :
  exists new_state w',
    apply_state_changes 0%nat (VList [VDict set_torch; VDict go_cave]) cave_rules start_world
    = (Ok new_state, w')
    /\ location (state_at w' new_state) = Some (VStr "cave").
Proof.
  destruct (set_flag_then_move_unlocks 0%nat cave_rules start_world "cave" "has_torch"
              set_torch go_cave eq_refl eq_refl eq_refl eq_refl eq_refl)
    as [(ns & w' & Hcall & Hloc & _) _].
  by exists ns, w'.
Defined.

(** ** Death is final *)

Lemma for_each_cons {A} (x : A) xs body w :
  for_each (x :: xs) body w =
  match body x w with
  | (Ok _, w') => for_each xs body w'
  | (Raise e, w') => (Raise e, w')
  end.
Proof. done. Qed.

(** X7. A call whose first atom is an [hp_delta] that takes hp to zero or
    below returns a lost game, whatever atoms follow it, cures included:
    when ["hp_zero"] is one of the lose flags, [check_end_conditions]
    reports a loss for the returned state. *)
Theorem death_is_final state rules w d rest h f t delta new_state w' :
  hp (state_at w state) = Some h ->
  flags (state_at w state) = Some f ->
  turns (state_at w state) = Some t ->
  dict_get d "atom" = Some (VStr "hp_delta") ->
  py_int (default (VInt 0) (dict_get d "delta")) = Ok delta ->
  (h + delta <= 0)%Z ->
  In "hp_zero" (LOSE_ANY_FLAGS (END_CONDITIONS rules)) ->
  apply_state_changes state (VList (VDict d :: rest)) rules w = (Ok new_state, w') ->
  exists msg, check_end_conditions new_state rules w' = (Ok (Some Lose, Some msg), w').
Proof.
  intros Hhp Hf Ht Hatom Hdelta Hle Hlose Hcall.
  destruct (apply_state_changes_run state (VDict d) rest rules w)
    as (w1 & ns & inv & fl & Hent & Hrun).
  rewrite Hrun in Hcall. clear Hrun.
  destruct (for_each _ _ w1) as [[[] | e] w2] eqn:Hloop; [| done].
  inversion Hcall; subst. clear Hcall.
  pose proof (entered_flags_alias _ _ _ _ _ _ Hent) as Halias.
  rewrite Hf in Halias. destruct Halias as [-> _].
  destruct (for_each_effect rules new_state inv f _ w1 _ w2 Hloop) as (_ & Hturns & _).
  rewrite for_each_cons in Hloop.
  rewrite (apply_change_hp_delta rules new_state inv f d w1 h f delta Hatom Hdelta) in Hloop;
    try by rewrite (entered_state _ _ _ _ _ _ Hent).
  apply Z.leb_le in Hle. rewrite Hle in Hloop.
  assert (Hzero : pydict_mem (dict_at w2 f) (VStr "hp_zero") = true).
  { eapply (changes_invariant
              (fun w => pydict_mem (dict_at w f) (VStr "hp_zero") = true));
      [| | exact Hloop].
    - intros. by eapply changed_flag_kept.
    - rewrite dict_at_set_dict. apply pydict_mem_set_same. }
  rewrite (check_end_conditions_eval _ rules _ f t).
  - destruct (MAX_TURNS (END_CONDITIONS rules) <=? t)%Z; [eauto |].
    destruct (first_lose_flag _ _) as [flag |] eqn:Hfirst; [eauto |].
    rewrite first_lose_flag_None in Hfirst.
    autorewrite with store in Hfirst. rewrite (Hfirst _ Hlose) in Hzero. discriminate.
  - by rewrite state_at_set_state.
  - rewrite state_at_set_state. simpl.
    by rewrite Hturns, (entered_state _ _ _ _ _ _ Hent).
Qed.

Lemma death_is_final_witness :
  hp (state_at (apply_state_changes 0%nat blow_then_cure cave_rules hurt_world).2 1%nat)
  = Some 20%Z
  /\ exists msg,
       check_end_conditions 1%nat cave_rules
         (apply_state_changes 0%nat blow_then_cure cave_rules hurt_world).2
       = (Ok (Some Lose, Some msg),
          (apply_state_changes 0%nat blow_then_cure cave_rules hurt_world).2).
Proof.
  split; [reflexivity |].
  apply (death_is_final 0%nat cave_rules hurt_world
           [("atom", VStr "hp_delta"); ("delta", VInt (-5))]
           [atom1 "hp_delta" "delta" (VInt 20)] 3%Z 0%nat 0%Z (-5)%Z 1%nat);
    reflexivity || lia || by left.
Defined.

(** ** A state without flags *)

(** X8. The key ["flags"] is optional for some atoms and required by
    others.  For a state without it, a [set_flag] atom works: the returned
    state has the key and holds the flag.  An [hp_delta] atom that takes hp
    to zero or below raises [KeyError], and so does
    [check_end_conditions]. *)
Theorem state_without_flags state rules w :
  flags (state_at w state) = None ->
  (forall d flag,
     dict_get d "atom" = Some (VStr "set_flag") ->
     default VNone (dict_get d "flag") = flag ->
     hashable flag = true ->
     exists new_state w',
       apply_state_changes state (VList [VDict d]) rules w = (Ok new_state, w')
       /\ is_Some (flags (state_at w' new_state))
       /\ flags_of w' new_state = [(flag, VBool true)])
  /\ (forall d h delta,
        hp (state_at w state) = Some h ->
        dict_get d "atom" = Some (VStr "hp_delta") ->
        py_int (default (VInt 0) (dict_get d "delta")) = Ok delta ->
        (h + delta <= 0)%Z ->
        (apply_state_changes state (VList [VDict d]) rules w).1 = Raise KeyError)
  /\ (check_end_conditions state rules w).1 = Raise KeyError.
Proof.
  intros Hnone. split; [| split].
  - intros d flag Hatom Hflag Hhash.
    destruct (apply_state_changes_run state (VDict d) [] rules w)
      as (w1 & ns & inv & fl & Hent & Hrun).
    rewrite Hrun. clear Hrun. rewrite for_each_one.
    rewrite (apply_change_set_flag rules ns inv fl d w1 flag Hatom Hflag Hhash).
    rewrite (entered_flags _ _ _ _ _ _ Hent).
    do 2 eexists. split; [reflexivity |].
    unfold flags_of. rewrite state_at_set_state. simpl. autorewrite with store.
    split; [by eexists |]. by rewrite Hnone.
  - intros d h delta Hhp Hatom Hdelta Hle.
    destruct (apply_state_changes_run state (VDict d) [] rules w)
      as (w1 & ns & inv & fl & Hent & Hrun).
    rewrite Hrun. clear Hrun. rewrite for_each_one.
    unfold apply_change. rewrite Hatom. simpl.
    unfold bind, lift. rewrite Hdelta.
    unfold getitem, bind, read_state.
    rewrite (entered_state _ _ _ _ _ _ Hent), Hhp.
    unfold ret, setitem, bind, read_state, write_state.
    rewrite state_at_set_state. simpl.
    apply Z.leb_le in Hle. rewrite Hle.
    rewrite !state_at_set_state. simpl.
    by rewrite (entered_state _ _ _ _ _ _ Hent), Hnone.
  - unfold check_end_conditions, getitem, bind, read_state. by rewrite Hnone.
Qed.

Lemma state_without_flags_witness :
  (exists new_state w',
     apply_state_changes 0%nat (VList [VDict set_torch]) cave_rules flagless_world
     = (Ok new_state, w')
     /\ flags_of w' new_state = [(VStr "has_torch", VBool true)])
  /\ (apply_state_changes 0%nat hurt cave_rules flagless_world).1 = Raise KeyError.
Proof.
  destruct (state_without_flags 0%nat cave_rules flagless_world eq_refl)
    as (Hset & Hhurt & _).
  split.
  - destruct (Hset set_torch (VStr "has_torch") eq_refl eq_refl eq_refl)
      as (ns & w' & Hcall & _ & Hflags).
    by exists ns, w'.
  - apply (Hhurt [("atom", VStr "hp_delta"); ("delta", VInt (-5))] 3%Z (-5)%Z);
      try reflexivity. lia.
Defined.

(** ** Atoms that are all skipped *)





(** ** The game goes on *)

(** X10. [check_end_conditions] reports neither a win nor a loss exactly
    when the turn counter is below [MAX_TURNS], no lose flag is held and
    some win flag is missing.  It changes nothing. *)
Theorem check_end_conditions_ongoing state rules w f t :
  flags (state_at w state) = Some f ->
  turns (state_at w state) = Some t ->
  (check_end_conditions state rules w).2 = w
  /\ ((check_end_conditions state rules w).1 = Ok (None, None) <->
      (t < MAX_TURNS (END_CONDITIONS rules))%Z
      /\ (forall flag, In flag (LOSE_ANY_FLAGS (END_CONDITIONS rules)) ->
                       pydict_mem (dict_at w f) (VStr flag) = false)
      /\ (exists flag, In flag (WIN_ALL_FLAGS (END_CONDITIONS rules))
                       /\ pydict_mem (dict_at w f) (VStr flag) = false)).
Proof.
  intros Hf Ht. rewrite (check_end_conditions_eval state rules w f t Hf Ht). simpl.
  split; [done |].
  destruct (Z.leb_spec (MAX_TURNS (END_CONDITIONS rules)) t) as [Hge | Hlt].
  { split; [done | lia]. }
  destruct (first_lose_flag _ _) as [flag |] eqn:Hfirst.
  { split; [done |]. intros (_ & Hnone & _).
    apply first_lose_flag_Some in Hfirst as [Hin Hmem].
    rewrite (Hnone _ Hin) in Hmem. discriminate. }
  rewrite first_lose_flag_None in Hfirst.
  destruct (forallb _ _) eqn:Hall.
  - split; [done |]. intros (_ & _ & flag & Hin & Hmem).
    rewrite forallb_forall in Hall. rewrite (Hall _ Hin) in Hmem. discriminate.
  - split; [| done]. intros _. split; [done |]. split; [done |].
    clear Hfirst. induction (WIN_ALL_FLAGS (END_CONDITIONS rules)) as [| x l IH];
      simpl in Hall; [done |].
    destruct (pydict_mem (dict_at w f) (VStr x)) eqn:Hx.
    + destruct (IH Hall) as (flag & Hin & Hmem). exists flag. split; [by right | done].
    + exists x. split; [by left | done].
Qed.

Lemma check_end_conditions_ongoing_witness :
  (check_end_conditions 0%nat cave_rules start_world).1 = Ok (None, None).
Proof.
  destruct (check_end_conditions_ongoing 0%nat cave_rules start_world 0%nat 0%Z
              eq_refl eq_refl) as [_ [_ Hgo]].
  apply Hgo. split; [reflexivity |]. split.
  - intros flag [<- | []]. reflexivity.
  - exists "has_gem". split; [by left | reflexivity].
Defined.

(** ** The hp counter, at the level of the call *)

(** The world in which the loop starts is determined by the caller's. *)
Lemma entered_unique w state w1 ns inv fl w1' ns' inv' fl' :
  entered w state w1 ns inv fl ->
  entered w state w1' ns' inv' fl' ->
  w1' = w1 /\ ns' = ns /\ inv' = inv /\ fl' = fl.
Proof.
  intros [Hn _ Hss _ _ Hia Hfa Hc] [Hn' _ Hss' _ _ Hia' Hfa' Hc'].
  assert (ns' = ns) as -> by congruence.
  assert (inv' = inv /\ lists w1' = lists w1) as [-> Hl].
  { destruct (inventory (state_at w state));
      destruct Hia as [-> ->], Hia' as [-> ->]; done. }
  assert (fl' = fl /\ dicts w1' = dicts w1) as [-> Hd].
  { destruct (flags (state_at w state));
      destruct Hfa as [-> ->], Hfa' as [-> ->]; done. }
  repeat split. destruct w1, w1'. simpl in *. congruence.
Qed.

(** A call on [before ++ c :: rest] runs the loop of the call on [before]
    and goes on from the world that loop has reached. *)
Lemma apply_state_changes_split state rules w before reached wb :
  apply_state_changes state (VList before) rules w = (Ok reached, wb) ->
  exists w1 ns inv fl w2,
    entered w state w1 ns inv fl
    /\ for_each before (apply_change rules ns inv fl) w1 = (Ok tt, w2)
    /\ hp (state_at w2 ns) = hp (state_at wb reached)
    /\ forall c rest,
         apply_state_changes state (VList (before ++ c :: rest)) rules w
         = match for_each (c :: rest) (apply_change rules ns inv fl) w2 with
           | (Ok _, w3) =>
               (Ok ns,
                set_state ns (with_flags fl (with_inventory inv (state_at w3 ns))) w3)
           | (Raise e, w3) => (Raise e, w3)
           end.
Proof.
  intros Hcall. destruct before as [| b bs].
  - simpl in Hcall. unfold ret in Hcall. injection Hcall as <- <-.
    destruct (apply_state_changes_run state VNone [] rules w)
      as (w1 & ns & inv & fl & Hent & _).
    exists w1, ns, inv, fl, w1.
    split; [exact Hent |]. split; [done |]. split.
    + by rewrite (entered_state _ _ _ _ _ _ Hent).
    + intros c rest.
      destruct (apply_state_changes_run state c rest rules w)
        as (w1' & ns' & inv' & fl' & Hent' & Hrun).
      destruct (entered_unique _ _ _ _ _ _ _ _ _ _ Hent Hent') as (-> & -> & -> & ->).
      exact Hrun.
  - destruct (apply_state_changes_run state b bs rules w)
      as (w1 & ns & inv & fl & Hent & Hrun).
    rewrite Hrun in Hcall.
    destruct (for_each (b :: bs) _ w1) as [[[] | e] w2] eqn:Hloop; [| done].
    inversion Hcall; subst. exists w1, reached, inv, fl, w2.
    split; [exact Hent |]. split; [done |].
    split; [by rewrite state_at_set_state |].
    intros c rest.
    destruct (apply_state_changes_run state b (bs ++ c :: rest) rules w)
      as (w1' & ns' & inv' & fl' & Hent' & Hrun').
    destruct (entered_unique _ _ _ _ _ _ _ _ _ _ Hent Hent') as (-> & -> & -> & ->).
    change ((b :: bs) ++ c :: rest) with (b :: bs ++ c :: rest). rewrite Hrun'.
    change (b :: bs ++ c :: rest) with ((b :: bs) ++ c :: rest).
    by rewrite for_each_app, Hloop.
Qed.

Lemma for_each_hp_kept rules ns inv fl cs w r w' :
  none_of_kind "hp_delta" cs = true ->
  for_each cs (apply_change rules ns inv fl) w = (r, w') ->
  hp (state_at w' ns) = hp (state_at w ns).
Proof.
  intros Hnone.
  apply (for_each_preserves (fun w w' => hp (state_at w' ns) = hp (state_at w ns))).
  - done.
  - intros a b c H1 H2. by rewrite H2.
  - intros x v r' v' Hx H.
    destruct (apply_change_effect rules ns inv fl x v r' v' H)
      as (_ & _ & _ & _ & _ & Hhp & _).
    apply Hhp. by apply (none_of_kind_In _ cs).
Qed.

(** After the atoms [before], a lethal [hp_delta] and the atoms [rest]:
    the flag is set, and hp is 0 unless [rest] changes it. *)
Lemma for_each_hp_zero rules ns inv fl d rest w h f delta w' :
  dict_get d "atom" = Some (VStr "hp_delta") ->
  py_int (default (VInt 0) (dict_get d "delta")) = Ok delta ->
  hp (state_at w ns) = Some h ->
  flags (state_at w ns) = Some f ->
  (h + delta <= 0)%Z ->
  for_each (VDict d :: rest) (apply_change rules ns inv fl) w = (Ok tt, w') ->
  pydict_get (dict_at w' f) (VStr "hp_zero") = Some (VBool true)
  /\ (none_of_kind "hp_delta" rest = true -> hp (state_at w' ns) = Some 0%Z).
Proof.
  intros Hatom Hdelta Hhp Hf Hle. rewrite for_each_cons.
  rewrite (apply_change_hp_delta rules ns inv fl d w h f delta Hatom Hdelta Hhp Hf).
  apply Z.leb_le in Hle. rewrite Hle. intros Hrest.
  set (w0 := set_dict f _ _) in Hrest.
  assert (Hflag : pydict_get (dict_at w0 f) (VStr "hp_zero") = Some (VBool true)).
  { unfold w0. rewrite dict_at_set_dict. apply pydict_get_set. }
  split.
  - eapply (changes_invariant
              (fun w => pydict_get (dict_at w f) (VStr "hp_zero") = Some (VBool true)));
      [| exact Hflag | exact Hrest].
    intros. by eapply changed_flag_stays.
  - intros Hnone. rewrite (for_each_hp_kept _ _ _ _ _ _ _ _ Hnone Hrest).
    unfold w0. by rewrite state_at_set_dict, state_at_set_state.
Qed.

(** C5. Starting from [hp >= 0], the state returned by
    [apply_state_changes] has [hp >= 0], whatever the atoms are, and the
    call does return a state when the atoms are well formed, the state has
    its flags and [INVENTORY_LIMIT], which a diagnostic shows, can be
    printed.  Whenever an [hp_delta] atom takes hp to zero or below,
    that is, when the atoms before it have brought hp to [h] and
    [h + delta <= 0]: the call that ends with this atom returns a state
    with hp exactly 0 and the flag [hp_zero] set to [True]; and whatever
    atoms follow, the returned state has the flag set, and hp 0 unless a
    later [hp_delta] changes it. *)
Theorem hp_never_negative state rules w :
  (forall n,
     hp (state_at w state) = Some n ->
     (0 <= n)%Z ->
     (forall changes new_state w',
        apply_state_changes state changes rules w = (Ok new_state, w') ->
        exists n', hp (state_at w' new_state) = Some n' /\ (0 <= n')%Z)
     /\ (forall cs,
           forallb well_formed_atom cs = true ->
           int_printable (INVENTORY_LIMIT rules) = true ->
           is_Some (flags (state_at w state)) ->
           exists new_state w' n',
             apply_state_changes state (VList cs) rules w = (Ok new_state, w')
             /\ hp (state_at w' new_state) = Some n' /\ (0 <= n')%Z))
  /\ (forall before d delta reached w1 h f,
        apply_state_changes state (VList before) rules w = (Ok reached, w1) ->
        hp (state_at w1 reached) = Some h ->
        flags (state_at w state) = Some f ->
        dict_get d "atom" = Some (VStr "hp_delta") ->
        py_int (default (VInt 0) (dict_get d "delta")) = Ok delta ->
        (h + delta <= 0)%Z ->
        (exists new_state w',
           apply_state_changes state (VList (before ++ [VDict d])) rules w
           = (Ok new_state, w')
           /\ hp (state_at w' new_state) = Some 0%Z
           /\ pydict_get (flags_of w' new_state) (VStr "hp_zero") = Some (VBool true))
        /\ (forall rest new_state w',
              apply_state_changes state (VList (before ++ VDict d :: rest)) rules w
              = (Ok new_state, w') ->
              pydict_get (flags_of w' new_state) (VStr "hp_zero") = Some (VBool true)
              /\ (none_of_kind "hp_delta" rest = true ->
                  hp (state_at w' new_state) = Some 0%Z))).
Proof.
  split.
  - intros n Hhp Hn.
    assert (Hkept : forall changes new_state w',
               apply_state_changes state changes rules w = (Ok new_state, w') ->
               exists n', hp (state_at w' new_state) = Some n' /\ (0 <= n')%Z).
    { intros changes new_state w' Hcall.
      destruct changes as [| | | | | [| c cs] |];
        try (inversion Hcall; subst; by exists n).
      destruct (apply_state_changes_run state c cs rules w)
        as (w1 & ns & inv & fl & Hent & Hrun).
      rewrite Hrun in Hcall. clear Hrun.
      destruct (for_each _ _ w1) as [[[] | e] w2] eqn:Hloop; [| done].
      inversion Hcall; subst. clear Hcall.
      assert (Hok : hp_ok (state_at w2 new_state)).
      { eapply (changes_invariant (fun w => hp_ok (state_at w new_state)));
          [| | exact Hloop].
        - intros. by eapply changed_hp_ok.
        - rewrite (entered_state _ _ _ _ _ _ Hent). by exists n. }
      rewrite state_at_set_state. exact Hok. }
    split; [exact Hkept |].
    intros cs Hcs _ Hflags.
    destruct (apply_state_changes_returns state cs rules w Hcs) as (ns & w' & Hcall).
    { split; [by eexists | done]. }
    destruct (Hkept _ ns w' Hcall) as (n' & Hn' & Hpos).
    by exists ns, w', n'.
  - intros before d delta reached wb h f Hbefore Hh Hf Hatom Hdelta Hle.
    destruct (apply_state_changes_split state rules w before reached wb Hbefore)
      as (w1 & ns & inv & fl & w2 & Hent & Hloop & Hhp & Hrun).
    rewrite Hh in Hhp.
    assert (Hfl : flags (state_at w2 ns) = Some f).
    { destruct (for_each_effect rules ns inv fl before w1 _ w2 Hloop) as (_ & _ & _ & ->).
      by rewrite (entered_state _ _ _ _ _ _ Hent). }
    assert (fl = f) as ->.
    { pose proof (entered_flags_alias _ _ _ _ _ _ Hent) as Ha.
      rewrite Hf in Ha. by destruct Ha. }
    assert (Hany : forall rest new_state w',
               apply_state_changes state (VList (before ++ VDict d :: rest)) rules w
               = (Ok new_state, w') ->
               pydict_get (flags_of w' new_state) (VStr "hp_zero") = Some (VBool true)
               /\ (none_of_kind "hp_delta" rest = true ->
                   hp (state_at w' new_state) = Some 0%Z)).
    { intros rest new_state w'. rewrite Hrun.
      destruct (for_each (VDict d :: rest) _ w2) as [[[] | e] w3] eqn:Hrest; [| done].
      intros [= <- <-].
      destruct (for_each_hp_zero rules ns inv f d rest w2 h f delta w3
                  Hatom Hdelta Hhp Hfl Hle Hrest) as [Hflag Hzero].
      unfold flags_of. rewrite state_at_set_state. simpl.
      by autorewrite with store. }
    split; [| exact Hany].
    pose proof (apply_change_hp_delta rules ns inv f d w2 h f delta Hatom Hdelta Hhp Hfl)
      as Hstep.
    assert (exists w3, for_each [VDict d] (apply_change rules ns inv f) w2 = (Ok tt, w3))
      as [w3 Hone] by (rewrite for_each_one, Hstep; eauto).
    pose proof (Hrun (VDict d) []) as Hcall. rewrite Hone in Hcall.
    do 2 eexists. split; [exact Hcall |].
    destruct (Hany [] _ _ Hcall) as [Hflag Hzero]. split; [by apply Hzero | exact Hflag].
Qed.

(** The scenario of the specification: hp 3, a cure of 1 and a wound of 5. *)
Lemma hp_never_negative_witness :
  (exists new_state w' n',
     apply_state_changes 0%nat hurt cave_rules hurt_world = (Ok new_state, w')
     /\ hp (state_at w' new_state) = Some n' /\ (0 <= n')%Z)
  /\ (exists new_state w',
        apply_state_changes 0%nat
          (VList [atom1 "hp_delta" "delta" (VInt 1); atom1 "hp_delta" "delta" (VInt (-5))])
          cave_rules hurt_world = (Ok new_state, w')
        /\ hp (state_at w' new_state) = Some 0%Z
        /\ pydict_get (flags_of w' new_state) (VStr "hp_zero") = Some (VBool true)).
Proof.
  split.
  - destruct (proj1 (hp_never_negative 0%nat cave_rules hurt_world) 3%Z) as [_ Hreturns].
    + reflexivity.
    + lia.
    + apply (Hreturns [atom1 "hp_delta" "delta" (VInt (-5))]);
        [reflexivity | reflexivity | eexists; reflexivity].
  - apply (proj2 (hp_never_negative 0%nat cave_rules hurt_world)
             [atom1 "hp_delta" "delta" (VInt 1)]
             [("atom", VStr "hp_delta"); ("delta", VInt (-5))] (-5)%Z 1%nat
             (apply_state_changes 0%nat (VList [atom1 "hp_delta" "delta" (VInt 1)])
                cave_rules hurt_world).2 4%Z 0%nat);
      try reflexivity.
    lia.
Defined.

(** * Properties of the session *)

(** ** The end check reads only *)

Lemma check_end_conditions_reads state rules w :
  (check_end_conditions state rules w).2 = w.
Proof.
  unfold check_end_conditions, getitem, bind, read_state, read_dict, ret, raise.
  destruct (flags (state_at w state)); [| done].
  destruct (turns (state_at w state)); [| done].
  destruct (_ <=? _)%Z; [done |].
  destruct (first_lose_flag _ _); [done |]. by destruct (forallb _ _).
Qed.

Lemma check_end_conditions_ok_turns state rules w v :
  (check_end_conditions state rules w).1 = Ok v ->
  exists f t, flags (state_at w state) = Some f /\ turns (state_at w state) = Some t
              /\ (fst v = None -> (t < MAX_TURNS (END_CONDITIONS rules))%Z).
Proof.
  unfold check_end_conditions, getitem, bind, read_state, read_dict, ret, raise.
  destruct (flags (state_at w state)) as [f |]; [| done].
  destruct (turns (state_at w state)) as [t |]; [| done].
  intros H. exists f, t. split; [done |]. split; [done |].
  destruct (Z.leb_spec (MAX_TURNS (END_CONDITIONS rules)) t); [| done].
  simpl in H. inversion H; subst. done.
Qed.

Lemma print_header_shows state k h p t :
  hp (state_at (store k) state) = Some h ->
  location (state_at (store k) state) = Some p ->
  turns (state_at (store k) state) = Some t ->
  header_prints (store k) state = true ->
  print_header state k = (Ok tt, Machine (store k) (disk k) (screen k ++ [Header h p t])).
Proof.
  intros Hh Hp Ht. unfold header_prints. rewrite Hh, Hp, Ht. simpl.
  intros [[Hph Hpp]%andb_prop Hpt]%andb_prop.
  unfold print_header, sbind, liftM, getitem, bind, read_state, show, format_int, format.
  rewrite Hh. simpl. rewrite Hph. simpl. rewrite Hp. simpl. rewrite Hpp. simpl.
  rewrite Ht. simpl. by rewrite Hpt.
Qed.

(** The header is printed only for a state that has the three fields, in
    a form that can be printed; printing changes neither the store nor the
    file. *)
Lemma print_header_printed state k k' :
  print_header state k = (Ok tt, k') ->
  is_Some (hp (state_at (store k) state))
  /\ is_Some (location (state_at (store k) state))
  /\ header_prints (store k) state = true
  /\ store k' = store k /\ disk k' = disk k.
Proof.
  unfold header_prints.
  unfold print_header, sbind, liftM, getitem, bind, read_state, show, format_int, format,
    sret, sraise.
  destruct (hp (state_at (store k) state)) as [h |]; simpl; [| done].
  destruct (int_printable h); simpl; [| done].
  destruct (location (state_at (store k) state)) as [p |]; simpl; [| done].
  destruct (printable p); simpl; [| done].
  destruct (turns (state_at (store k) state)) as [t |]; simpl; [| done].
  destruct (int_printable t); simpl; [| done].
  intros [= <-]. by repeat split.
Qed.

(** How an iteration begins for a playable state: the header is printed
    and the input is looked at. *)
Lemma main_iteration_playable float_repr state player_input b rules k :
  playable rules (store k) state ->
  header_prints (store k) state = true ->
  exists h p t,
    hp (state_at (store k) state) = Some h
    /\ location (state_at (store k) state) = Some p
    /\ turns (state_at (store k) state) = Some t
    /\ (t < MAX_TURNS (END_CONDITIONS rules))%Z
    /\ main_iteration float_repr state player_input b rules k =
       let k1 := Machine (store k) (disk k) (screen k ++ [Header h p t]) in
       if String.eqb player_input "" then (Ok (Continue state), k1)
       else if String.eqb player_input "quit"
       then (Ok Break, Machine (store k) (disk k) (screen k1 ++ [Goodbye]))
       else if String.eqb player_input "save" then
         (save_json float_repr state ;;; show GameSaved ;;; sret (Continue state))%session k1
       else if String.eqb player_input "load" then
         (o <- load_json ;;
          loaded <- loaded_state o ;;
          match loaded with
          | Some state' => show GameLoaded ;;; sret (Continue state')
          | None => show NoSaveFound ;;; sret (Continue state)
          end)%session k1
       else if String.eqb player_input "help"
       then (Ok (Continue state), Machine (store k) (disk k) (screen k1 ++ [Help]))
       else if String.eqb player_input "inventory"
       then (print_inventory state ;;; sret (Continue state))%session k1
       else (state' <- liftM (main_turn state b rules) ;; sret (Continue state'))%session k1.
Proof.
  intros (Hcheck & [h Hh] & [p Hp]) Hprints.
  destruct (check_end_conditions_ok_turns state rules (store k) _ Hcheck)
    as (f & t & Hf & Ht & Hlt).
  exists h, p, t. repeat (split; [done || by apply Hlt |]).
  unfold main_iteration, sbind at 1, liftM at 1.
  pose proof (check_end_conditions_reads state rules (store k)) as Hreads.
  destruct (check_end_conditions state rules (store k)) as [r w'].
  simpl in Hcheck, Hreads. subst. simpl.
  unfold sbind at 1.
  rewrite (print_header_shows state (Machine (store k) (disk k) (screen k)) h p t
             Hh Hp Ht Hprints).
  simpl.
  repeat (destruct (String.eqb player_input _); [done |]). done.
Qed.

(** ** Commands and endings *)

Lemma main_iteration_over float_repr state player_input b rules k status msg :
  (check_end_conditions state rules (store k)).1 = Ok (Some status, msg) ->
  main_iteration float_repr state player_input b rules k
  = (Ok Break, Machine (store k) (disk k) (screen k ++ [GameOver status msg])).
Proof.
  intros Hcheck. unfold main_iteration, sbind at 1, liftM at 1.
  pose proof (check_end_conditions_reads state rules (store k)) as Hreads.
  destruct (check_end_conditions state rules (store k)) as [r w'].
  simpl in Hcheck, Hreads. by subst.
Qed.

(** X11. Once the game is won or lost, no input continues it: the loop is
    left at the next iteration, before any input is read, with the messages
    of the ending on the screen.  Neither the store nor the save file is
    touched: typing [load] does not bring back a lost game. *)
Theorem game_over_ends_the_loop float_repr state step rest rules k status msg :
  (check_end_conditions state rules (store k)).1 = Ok (Some status, msg) ->
  main_loop float_repr state (step :: rest) rules k
  = (Ok None, Machine (store k) (disk k) (screen k ++ [GameOver status msg])).
Proof.
  intros Hcheck. destruct step as [player_input b]. simpl. unfold sbind.
  by rewrite (main_iteration_over _ _ _ _ _ _ status msg Hcheck).
Qed.

Lemma game_over_ends_the_loop_witness :
  main_loop no_repr 0%nat [("load"%string, ChatFailed); ("go north"%string, ChatFailed)]
    cave_rules late_machine
  = (Ok None,
     Machine (store late_machine) (disk late_machine)
       [GameOver Lose (Some (RanOutOfTime 20))]).
Proof.
  apply (game_over_ends_the_loop no_repr 0%nat ("load"%string, ChatFailed)
           [("go north"%string, ChatFailed)] cave_rules late_machine Lose
           (Some (RanOutOfTime 20))).
  reflexivity.
Defined.

(** X12. The engine commands neither call the backend nor touch the game.
    For a playable state whose header can be printed, an empty line,
    [help], [inventory] on items that can be printed, a [save] that
    [json.dump] completes and a [load] that finds no readable file go on
    with the same state and leave the store, hence the turn counter, as it
    is; [save] alone writes the file, and no other command does.  [quit]
    leaves the loop. *)
Theorem commands_leave_the_game_alone float_repr state b rules k :
  playable rules (store k) state ->
  header_prints (store k) state = true ->
  (forall player_input,
     In player_input [""; "help"]%string ->
     exists k',
       main_iteration float_repr state player_input b rules k = (Ok (Continue state), k')
       /\ store k' = store k /\ disk k' = disk k)
  /\ (is_Some (inventory (state_at (store k) state)) ->
      forallb printable (inventory_of (store k) state) = true ->
      exists k',
        main_iteration float_repr state "inventory" b rules k = (Ok (Continue state), k')
        /\ store k' = store k /\ disk k' = disk k)
  /\ (forall s,
        json_dump float_repr (store k) state = Ok s ->
        exists k',
          main_iteration float_repr state "save" b rules k = (Ok (Continue state), k')
          /\ store k' = store k /\ disk k' = Holds s)
  /\ (disk k = NoFile \/ disk k = Garbled ->
      exists k',
        main_iteration float_repr state "load" b rules k = (Ok (Continue state), k')
        /\ store k' = store k /\ disk k' = disk k)
  /\ (exists k',
        main_iteration float_repr state "quit" b rules k = (Ok Break, k')
        /\ store k' = store k /\ disk k' = disk k).
Proof.
  intros Hplay Hprints.
  split; [| split; [| split; [| split]]].
  - intros player_input Hin.
    destruct (main_iteration_playable float_repr state player_input b rules k Hplay Hprints)
      as (h & p & t & _ & _ & _ & _ & ->).
    destruct Hin as [<- | [<- | []]]; simpl; eauto.
  - intros [l Hl] Hitems.
    destruct (main_iteration_playable float_repr state "inventory" b rules k Hplay Hprints)
      as (h & p & t & _ & _ & _ & _ & ->).
    unfold inventory_of in Hitems. rewrite Hl in Hitems.
    simpl. unfold sbind, print_inventory, sbind, liftM, getitem, bind, read_state. simpl.
    rewrite Hl. simpl. unfold read_list. simpl. rewrite Hitems. simpl. eauto.
  - intros s Hs.
    destruct (main_iteration_playable float_repr state "save" b rules k Hplay Hprints)
      as (h & p & t & _ & _ & _ & _ & ->).
    simpl. unfold sbind, save_json. simpl. rewrite Hs. simpl. eauto.
  - intros Hdisk.
    destruct (main_iteration_playable float_repr state "load" b rules k Hplay Hprints)
      as (h & p & t & _ & _ & _ & _ & ->).
    simpl. unfold sbind, load_json. simpl.
    destruct Hdisk as [-> | ->]; simpl; eauto.
  - destruct (main_iteration_playable float_repr state "quit" b rules k Hplay Hprints)
      as (h & p & t & _ & _ & _ & _ & ->).
    simpl. eauto.
Qed.

Lemma start_world_playable : playable cave_rules start_world 0%nat.
Proof. split; [reflexivity |]. split; eexists; reflexivity. Qed.

Lemma commands_leave_the_game_alone_witness :
  exists k',
    main_iteration no_repr 0%nat "save" ChatFailed cave_rules start_machine
    = (Ok (Continue 0%nat), k')
    /\ store k' = start_world
    /\ disk k' = Holds (Snapshot (Some (VStr "start")) (Some 10%Z) (Some []) (Some [])
                         (Some 0%Z)).
Proof.
  destruct (commands_leave_the_game_alone no_repr 0%nat ChatFailed cave_rules start_machine
              start_world_playable eq_refl) as (_ & _ & Hsave & _).
  apply Hsave. reflexivity.
Defined.

(** ** Turns *)

(** A turn that completes has advanced the counter by one. *)
Lemma main_turn_turns state b rules w state' w' :
  main_turn state b rules w = (Ok state', w') ->
  exists t, turns (state_at w state) = Some t
            /\ turns (state_at w' state') = Some (t + 1)%Z.
Proof.
  unfold main_turn, getitem, bind at 1, read_state, bind at 1.
  destruct (turns (state_at w state)) as [t |] eqn:Ht; [| done].
  unfold ret, setitem, bind at 1, read_state, bind at 1, write_state, bind at 1.
  set (w1 := set_state state (with_turns (t + 1) (state_at w state)) w).
  intros H. exists t. split; [done |].
  destruct b as [| | v]; try done.
  unfold call_ollama, ret, bind at 1, lift in H.
  destruct v as [| | | | | | d]; try done. simpl in H.
  unfold bind, print in H.
  destruct (apply_state_changes state (default (VList []) (dict_get d "state_change"))
              rules w1) as [[st |] w2] eqn:Hcall; [| done].
  apply apply_state_changes_turns in Hcall.
  destruct (default (VStr "(The AI provided no narration.)") (dict_get d "narration"));
    try done.
  inversion H; subst. autorewrite with store. rewrite Hcall.
  unfold w1. by rewrite state_at_set_state.
Qed.

Lemma main_iteration_continues float_repr state player_input b rules k state' k' :
  main_iteration float_repr state player_input b rules k = (Ok (Continue state'), k') ->
  playable rules (store k) state /\ header_prints (store k) state = true.
Proof.
  unfold main_iteration, sbind at 1, liftM at 1.
  pose proof (check_end_conditions_reads state rules (store k)) as Hreads.
  unfold playable.
  destruct (check_end_conditions state rules (store k)) as [[[status msg] | e] w'] eqn:Hc;
    [| done].
  simpl in Hreads. subst w'. simpl.
  destruct status as [status |]; [done |].
  assert (msg = None) as ->.
  { revert Hc. unfold check_end_conditions, getitem, bind, read_state, read_dict, ret, raise.
    destruct (flags _); [| done]. destruct (turns _); [| done].
    destruct (_ <=? _)%Z; [done |]. destruct (first_lose_flag _ _); [done |].
    destruct (forallb _ _); [done |]. by intros [= <-]. }
  unfold sbind at 1.
  destruct (print_header state (Machine (store k) (disk k) (screen k)))
    as [[[] | e] k1] eqn:Hheader; [| done].
  destruct (print_header_printed _ _ _ Hheader) as (Hh & Hp & Hprints & _).
  by intros _.
Qed.

Lemma action_turn_turns float_repr state player_input b rules k state' k' :
  is_action player_input = true ->
  main_iteration float_repr state player_input b rules k = (Ok (Continue state'), k') ->
  exists t,
    turns (state_at (store k) state) = Some t
    /\ (t < MAX_TURNS (END_CONDITIONS rules))%Z
    /\ turns (state_at (store k') state') = Some (t + 1)%Z
    /\ disk k' = disk k.
Proof.
  intros Hact Hiter.
  destruct (main_iteration_continues _ _ _ _ _ _ _ _ Hiter) as [Hplay Hprints].
  destruct (main_iteration_playable float_repr state player_input b rules k Hplay Hprints)
    as (h & p & t & _ & _ & Ht & Hlt & Heq).
  rewrite Heq in Hiter. clear Heq.
  unfold is_action in Hact. apply negb_true_iff in Hact.
  repeat (apply orb_false_elim in Hact as [Hact ?]).
  simpl in Hiter.
  repeat match goal with H : String.eqb _ _ = false |- _ => rewrite H in Hiter; clear H end.
  unfold sbind, liftM in Hiter. simpl in Hiter.
  destruct (main_turn state b rules (store k)) as [[st |] w'] eqn:Hturn; [| done].
  inversion Hiter; subst. simpl.
  destruct (main_turn_turns _ _ _ _ _ _ Hturn) as (t' & Ht' & Hnew).
  exists t. rewrite Ht in Ht'. injection Ht' as <-. done.
Qed.

(** X13. Every action that completes costs exactly one turn: when an
    iteration for an input that is no command goes on with a state, that
    state has the turn counter of the old state plus one, whatever the
    backend has answered and whatever atoms were applied; the old counter
    was below [MAX_TURNS], and the save file is as it was. *)
Theorem action_costs_one_turn float_repr state player_input b rules k state' k' :
  is_action player_input = true ->
  main_iteration float_repr state player_input b rules k = (Ok (Continue state'), k') ->
  exists t,
    turns (state_at (store k) state) = Some t
    /\ (t < MAX_TURNS (END_CONDITIONS rules))%Z
    /\ turns (state_at (store k') state') = Some (t + 1)%Z
    /\ disk k' = disk k.
Proof. apply action_turn_turns. Qed.

Lemma action_costs_one_turn_witness :
  exists t,
    turns (state_at start_world 0%nat) = Some t
    /\ (t < 20)%Z
    /\ turns (state_at
                (store (main_iteration no_repr 0%nat "look around" story cave_rules
                          start_machine).2) 1%nat) = Some (t + 1)%Z
    /\ disk (main_iteration no_repr 0%nat "look around" story cave_rules start_machine).2
       = NoFile.
Proof.
  apply (action_costs_one_turn no_repr 0%nat "look around" story cave_rules start_machine
           1%nat (main_iteration no_repr 0%nat "look around" story cave_rules
                    start_machine).2).
  - reflexivity.
  - vm_compute. reflexivity.
Defined.

(** ** Loading *)

(** What [json.load] builds: a new state dictionary that reads as the
    snapshot; the objects that were there are as they were. *)
Lemma json_load_spec s w :
  exists l w',
    json_load s w = (Ok l, w')
    /\ states w !! l = None
    /\ location (state_at w' l) = saved_location s
    /\ hp (state_at w' l) = saved_hp s
    /\ turns (state_at w' l) = saved_turns s
    /\ inventory_of w' l = default [] (saved_inventory s)
    /\ flags_of w' l = default [] (load_flags <$> saved_flags s)
    /\ truthy (state_at w' l)
       = truthy (StateDict (saved_location s) (saved_hp s)
                   ((fun _ => 0%nat) <$> saved_inventory s)
                   ((fun _ => 0%nat) <$> saved_flags s) (saved_turns s))
    /\ (forall l', l' <> l -> states w' !! l' = states w !! l').
Proof.
  unfold json_load, inventory_of, flags_of.
  destruct s as [p h inv fl t]. simpl.
  assert (Hfresh : forall v : world, states v !! fresh (dom (states v)) = None).
  { intros v. apply not_elem_of_dom. apply is_fresh. }
  destruct inv as [items |], fl as [pairs |]; simpl;
    unfold bind, new_list, new_dict, write_list, write_dict, ret; simpl;
    do 2 eexists; (split; [reflexivity |]); rewrite state_at_set_state; simpl;
    autorewrite with store; repeat split;
    try apply Hfresh; try done; try (by destruct p, h, t);
    intros; simpl; by rewrite lookup_insert_ne.
Qed.

Lemma state_at_exists w l :
  is_Some (hp (state_at w l)) -> is_Some (states w !! l).
Proof.
  unfold state_at. destruct (states w !! l); [by eexists |]. by intros [x Hx].
Qed.

(** What [load] does for a playable state: it goes on with the state the
    file holds, or with the current state when there is no file, no JSON in
    it or an empty dictionary. *)
Lemma main_iteration_load float_repr state b rules k :
  playable rules (store k) state ->
  header_prints (store k) state = true ->
  (forall s, disk k = Holds s -> digits_ok s = true) ->
  exists state' k',
    main_iteration float_repr state "load" b rules k = (Ok (Continue state'), k')
    /\ disk k' = disk k
    /\ ((state' = state /\ state_at (store k') state = state_at (store k) state)
        \/ exists s,
             disk k = Holds s
             /\ json_load s (store k) = (Ok state', store k')
             /\ truthy (state_at (store k') state') = true).
Proof.
  intros Hplay Hprints Hok.
  destruct (main_iteration_playable float_repr state "load" b rules k Hplay Hprints)
    as (h & p & t & Hh & _ & _ & _ & ->).
  simpl. unfold sbind at 1, load_json. simpl.
  destruct (disk k) as [| | s] eqn:Hdisk; simpl; try (do 2 eexists; split; [done |]; eauto).
  rewrite (Hok s eq_refl).
  destruct (json_load_spec s (store k))
    as (l & w' & Hload & Hnew & _ & _ & _ & _ & _ & _ & Hframe).
  unfold liftM, bind. simpl. rewrite Hload. simpl.
  unfold sbind, loaded_state. simpl.
  destruct (truthy (state_at w' l)) eqn:Htruthy; simpl.
  - do 2 eexists. split; [done |]. split; [done |]. right. exists s. simpl. auto.
  - do 2 eexists. split; [done |]. split; [done |]. left. split; [done |]. simpl.
    unfold state_at. rewrite Hframe; [done |].
    intros ->. assert (Hs : is_Some (states (store k) !! l)).
    { apply state_at_exists. by eexists. }
    rewrite Hnew in Hs. by destruct Hs.
Qed.

(** A file with an integer of more than 4300 digits ends the game. *)
Lemma main_iteration_load_fails float_repr state b rules k s :
  playable rules (store k) state ->
  header_prints (store k) state = true ->
  disk k = Holds s ->
  digits_ok s = false ->
  (main_iteration float_repr state "load" b rules k).1 = Raise ValueError.
Proof.
  intros Hplay Hprints Hdisk Hbad.
  destruct (main_iteration_playable float_repr state "load" b rules k Hplay Hprints)
    as (h & p & t & Hh & _ & _ & _ & ->).
  simpl. unfold sbind at 1, load_json. simpl. by rewrite Hdisk, Hbad.
Qed.

(** ** The turn limit *)

Lemma written_inv s s' : written s = Ok s' -> s' = s /\ digits_ok s = true.
Proof. unfold written. destruct (digits_ok s); [by intros [= <-] | done]. Qed.

Lemma json_dump_turns float_repr w state s :
  json_dump float_repr w state = Ok s -> saved_turns s = turns (state_at w state).
Proof.
  unfold json_dump. destruct (flags (state_at w state)).
  - destruct (dump_flags _ _); [| done]. by intros [-> _]%written_inv.
  - by intros [-> _]%written_inv.
Qed.

Lemma main_iteration_within_limit float_repr state player_input b rules k state' k' :
  file_within_limit rules (disk k) ->
  main_iteration float_repr state player_input b rules k = (Ok (Continue state'), k') ->
  within_limit rules (turns (state_at (store k') state'))
  /\ file_within_limit rules (disk k').
Proof.
  intros Hfile Hiter.
  destruct (main_iteration_continues _ _ _ _ _ _ _ _ Hiter) as [Hplay Hprints].
  destruct (is_action player_input) eqn:Hact.
  { destruct (action_turn_turns float_repr state player_input b rules k state' k' Hact Hiter)
      as (t & _ & Hlt & -> & ->).
    split; [simpl; lia | done]. }
  destruct (main_iteration_playable float_repr state player_input b rules k Hplay Hprints)
    as (h & p & t & _ & _ & Ht & Hlt & Heq).
  assert (Hsame : within_limit rules (turns (state_at (store k) state))).
  { rewrite Ht. simpl. lia. }
  destruct (String.eqb_spec player_input "load") as [-> | Hload].
  { assert (Hok : forall s, disk k = Holds s -> digits_ok s = true).
    { intros s Hs. destruct (digits_ok s) eqn:Hbad; [done |].
      pose proof (main_iteration_load_fails float_repr state b rules k s
                    Hplay Hprints Hs Hbad) as Hfails.
      by rewrite Hiter in Hfails. }
    destruct (main_iteration_load float_repr state b rules k Hplay Hprints Hok)
      as (st & k1 & Hrun & Hdisk & Hcase).
    rewrite Hrun in Hiter. inversion Hiter; subst. rewrite Hdisk. split; [| done].
    destruct Hcase as [[-> ->] | (s & Hs & Hjl & _)]; [done |].
    destruct (json_load_spec s (store k)) as (l & w' & Hload' & _ & _ & _ & Hturns & _).
    rewrite Hjl in Hload'. inversion Hload'; subst. rewrite Hturns.
    by rewrite Hs in Hfile. }
  rewrite Heq in Hiter. clear Heq. simpl in Hiter.
  destruct (String.eqb player_input "") eqn:E1;
    [inversion Hiter; subst; done |].
  destruct (String.eqb player_input "quit") eqn:E2; [done |].
  destruct (String.eqb player_input "save") eqn:E3.
  { unfold sbind, save_json in Hiter. simpl in Hiter.
    destruct (json_dump float_repr (store k) state) as [s |] eqn:Hdump; [| done].
    inversion Hiter; subst. simpl. split; [done |].
    by rewrite (json_dump_turns _ _ _ _ Hdump). }
  destruct (String.eqb_spec player_input "load"); [done |].
  destruct (String.eqb player_input "help") eqn:E5;
    [inversion Hiter; subst; done |].
  destruct (String.eqb player_input "inventory") eqn:E6.
  { unfold sbind, print_inventory, sbind, liftM, getitem, bind, read_state in Hiter.
    simpl in Hiter. destruct (inventory (state_at (store k) state)); [| done].
    simpl in Hiter. unfold read_list in Hiter. simpl in Hiter.
    destruct (forallb printable _); [| done].
    inversion Hiter; subst. done. }
  unfold is_action in Hact. by rewrite E1, E2, E3, E5, E6 in Hact; destruct (String.eqb_spec player_input "load").
Qed.

(** X14. The game is never played past the turn limit.  If the turn
    counter of the state and the one in the save file, where there are
    any, are at most [MAX_TURNS], then after any sequence of inputs and
    backend answers the loop, if it still runs, is at a state whose turn
    counter is at most [MAX_TURNS], and so is the one in the save file:
    saving and loading do not get around the limit. *)
Theorem turn_limit_is_kept float_repr steps state rules k state' k' :
  within_limit rules (turns (state_at (store k) state)) ->
  file_within_limit rules (disk k) ->
  main_loop float_repr state steps rules k = (Ok (Some state'), k') ->
  within_limit rules (turns (state_at (store k') state'))
  /\ file_within_limit rules (disk k').
Proof.
  revert state k. induction steps as [| [player_input b] steps IH];
    intros state k Hturns Hfile Hloop; simpl in Hloop.
  - by inversion Hloop; subst.
  - unfold sbind in Hloop.
    destruct (main_iteration float_repr state player_input b rules k)
      as [[[st |] |] k1] eqn:Hiter; try done.
    destruct (main_iteration_within_limit _ _ _ _ _ _ _ _ Hfile Hiter) as [H1 H2].
    by apply (IH st k1).
Qed.

Lemma turn_limit_is_kept_witness :
  exists state' k',
    main_loop no_repr 0%nat a_session roomy_rules start_machine = (Ok (Some state'), k')
    /\ within_limit roomy_rules (turns (state_at (store k') state'))
    /\ file_within_limit roomy_rules (disk k').
Proof.
  destruct (main_loop no_repr 0%nat a_session roomy_rules start_machine)
    as [[[st |] |] k'] eqn:Hrun; try (vm_compute in Hrun; discriminate).
  exists st, k'. split; [done |].
  apply (turn_limit_is_kept no_repr a_session 0%nat roomy_rules start_machine st k').
  - vm_compute. discriminate.
  - exact I.
  - exact Hrun.
Defined.

(** ** Saving and loading *)

Lemma pydict_set_new d k v :
  (forall kv, In kv d -> py_eq kv.1 k = false) ->
  pydict_set d k v = d ++ [(k, v)].
Proof.
  induction d as [| [k0 v0] d IH]; simpl; intros H; [done |].
  pose proof (H (k0, v0) (or_introl eq_refl)) as Hk. simpl in Hk. rewrite Hk.
  f_equal. apply IH. intros kv Hin. apply H. by right.
Qed.

Lemma load_flags_rebuilds pairs acc :
  NoDup (map fst pairs) ->
  (forall kv n, In kv acc -> In n (map fst pairs) -> py_eq kv.1 (VStr n) = false) ->
  fold_left (fun d kv => pydict_set d (VStr kv.1) kv.2) pairs acc
  = acc ++ map (fun kv : string * value => (VStr kv.1, kv.2)) pairs.
Proof.
  revert acc. induction pairs as [| [n v] pairs IH]; intros acc Hnd Hacc; simpl.
  - by rewrite app_nil_r.
  - apply NoDup_cons in Hnd as [Hn Hnd].
    rewrite pydict_set_new by (intros kv Hkv; apply Hacc; [done | by left]).
    rewrite IH; [by rewrite <- app_assoc | done |].
    intros kv m [Hkv | [<- | []]]%in_app_or Hm.
    + apply Hacc; [done | by right].
    + simpl. apply String.eqb_neq. intros ->. apply Hn. by apply list_elem_of_In.
Qed.

(** A flags dict keyed by distinct strings is written and read back as it
    is. *)
Lemma dump_load_flags float_repr names d :
  keyed_by names d ->
  exists pairs,
    dump_flags float_repr d = Ok pairs /\ load_flags pairs = d
    /\ map snd pairs = map snd d.
Proof.
  intros [Hkeys Hnd].
  assert (Hdump : dump_flags float_repr d = Ok (combine names (map snd d))
                  /\ map (fun kv : string * value => (VStr kv.1, kv.2))
                       (combine names (map snd d)) = d
                  /\ map fst (combine names (map snd d)) = names
                  /\ map snd (combine names (map snd d)) = map snd d).
  { clear Hnd. revert names Hkeys.
    induction d as [| [k v] d IH]; intros [| n names] Hkeys; simpl in *; try done.
    injection Hkeys as -> Hkeys. simpl.
    destruct (IH names Hkeys) as (-> & -> & -> & ->). done. }
  destruct Hdump as (Hdump & Hmap & Hfst & Hsnd).
  eexists. split; [exact Hdump |]. split; [| exact Hsnd].
  unfold load_flags. rewrite load_flags_rebuilds; [done | | by intros ? ? []].
  by rewrite Hfst.
Qed.

Lemma forallb_snd {A B} (f : B -> bool) (l : list (A * B)) :
  forallb (fun kv => f kv.2) l = forallb f (map snd l).
Proof. induction l as [| [a b] l IH]; simpl; [done | by rewrite IH]. Qed.

(** X15. [load] restores what [save] saw.  After [save] on a playable
    state whose header, items and flag values can be printed and whose
    flags are named by distinct strings, a later [load], from whatever
    state the game has reached by then (its header can be printed) and
    whatever has happened to the store, as long as the file is the one
    written, goes on with a new state dictionary that reads as the saved
    state did when it was saved: location, hp, inventory, flags, and the
    turn counter, which is thereby set back. *)
Theorem load_restores_what_save_saw float_repr state names b rules k :
  playable rules (store k) state ->
  header_prints (store k) state = true ->
  contents_print (store k) state = true ->
  (forall f, flags (state_at (store k) state) = Some f ->
             keyed_by names (dict_at (store k) f)) ->
  exists k1,
    main_iteration float_repr state "save" b rules k = (Ok (Continue state), k1)
    /\ store k1 = store k
    /\ forall current b' k2,
         disk k2 = disk k1 ->
         playable rules (store k2) current ->
         header_prints (store k2) current = true ->
         exists state' k3,
           main_iteration float_repr current "load" b' rules k2 = (Ok (Continue state'), k3)
           /\ states (store k2) !! state' = None
           /\ location (state_at (store k3) state') = location (state_at (store k) state)
           /\ hp (state_at (store k3) state') = hp (state_at (store k) state)
           /\ turns (state_at (store k3) state') = turns (state_at (store k) state)
           /\ inventory_of (store k3) state' = inventory_of (store k) state
           /\ flags_of (store k3) state' = flags_of (store k) state.
Proof.
  intros Hplay Hprints Hcontents Hkeyed.
  assert (Hdump : exists s,
             json_dump float_repr (store k) state = Ok s
             /\ digits_ok s = true
             /\ saved_location s = location (state_at (store k) state)
             /\ saved_hp s = hp (state_at (store k) state)
             /\ saved_turns s = turns (state_at (store k) state)
             /\ default [] (saved_inventory s) = inventory_of (store k) state
             /\ default [] (load_flags <$> saved_flags s) = flags_of (store k) state).
  { unfold header_prints in Hprints. unfold contents_print in Hcontents.
    apply andb_prop in Hprints as [[Hph Hpp]%andb_prop Hpt].
    apply andb_prop in Hcontents as [Hitems Hvalues].
    unfold json_dump, written, digits_ok, inventory_of, flags_of in *.
    destruct (flags (state_at (store k) state)) as [f |] eqn:Hf.
    - destruct (dump_load_flags float_repr names _ (Hkeyed f eq_refl))
        as (pairs & -> & Hback & Hsnd).
      simpl. rewrite Hph, Hpp, Hpt. simpl.
      rewrite (forallb_snd printable pairs), Hsnd, <- (forallb_snd printable), Hvalues.
      assert (Hinv : from_option (forallb printable) true
                       (list_at (store k) <$> inventory (state_at (store k) state))
                     = true).
      { by destruct (inventory (state_at (store k) state)). }
      rewrite Hinv. simpl.
      eexists. split; [reflexivity |]. simpl. rewrite Hback.
      rewrite Hph, Hpp, Hpt, Hinv. simpl.
      rewrite (forallb_snd printable pairs), Hsnd, <- (forallb_snd printable), Hvalues.
      repeat split. by destruct (inventory (state_at (store k) state)).
    - simpl. rewrite Hph, Hpp, Hpt. simpl.
      assert (Hinv : from_option (forallb printable) true
                       (list_at (store k) <$> inventory (state_at (store k) state))
                     = true).
      { by destruct (inventory (state_at (store k) state)). }
      rewrite Hinv. simpl.
      eexists. split; [reflexivity |]. simpl. rewrite Hph, Hpp, Hpt, Hinv. simpl.
      repeat split. by destruct (inventory (state_at (store k) state)). }
  destruct Hdump as (s & Hdump & Hok & Hp & Hh & Ht & Hinv & Hfl).
  destruct (main_iteration_playable float_repr state "save" b rules k Hplay Hprints)
    as (h & p & t & Hhp & _ & _ & _ & ->).
  simpl. unfold sbind, save_json. simpl. rewrite Hdump. simpl.
  eexists. split; [reflexivity |]. split; [done |]. simpl.
  intros current b' k2 Hdisk Hplay2 Hprints2.
  destruct (main_iteration_playable float_repr current "load" b' rules k2 Hplay2 Hprints2)
    as (h2 & p2 & t2 & _ & _ & _ & _ & ->).
  simpl. unfold sbind at 1, load_json. simpl. rewrite Hdisk. simpl. rewrite Hok.
  destruct (json_load_spec s (store k2))
    as (l & w' & Hload & Hnew & Hp' & Hh' & Ht' & Hinv' & Hfl' & Htruthy & _).
  unfold liftM, bind. simpl. rewrite Hload. simpl.
  unfold sbind, loaded_state. simpl.
  assert (Htrue : truthy (state_at w' l) = true).
  { rewrite Htruthy, Hh, Hhp. by destruct (saved_location s). }
  rewrite Htrue. simpl.
  do 2 eexists. split; [reflexivity |]. simpl.
  rewrite Hp', Hh', Ht', Hinv', Hfl'. by repeat split.
Qed.

Lemma armed_machine_playable : playable cave_rules (store armed_machine) 0%nat.
Proof. split; [reflexivity |]. split; eexists; reflexivity. Qed.

Lemma load_restores_what_save_saw_witness :
  exists k1,
    main_iteration no_repr 0%nat "save" ChatFailed cave_rules armed_machine
    = (Ok (Continue 0%nat), k1)
    /\ exists state' k3,
         main_iteration no_repr 0%nat "load" ChatFailed cave_rules k1
         = (Ok (Continue state'), k3)
         /\ turns (state_at (store k3) state') = Some 4%Z
         /\ inventory_of (store k3) state' = [VStr "sword"]
         /\ flags_of (store k3) state' = [(VStr "has_torch", VBool true)].
Proof.
  destruct (load_restores_what_save_saw no_repr 0%nat ["has_torch"%string] ChatFailed
              cave_rules armed_machine armed_machine_playable eq_refl eq_refl)
    as (k1 & Hsave & Hstore & Hload).
  - intros f [= <-]. split; [reflexivity |]. apply NoDup_singleton.
  - exists k1. split; [exact Hsave |].
    destruct (Hload 0%nat ChatFailed k1 eq_refl)
      as (st & k3 & H1 & _ & _ & _ & H2 & H3 & H4).
    { by rewrite Hstore; apply armed_machine_playable. }
    { by rewrite Hstore. }
    by exists st, k3.
Defined.

(** ** A new game *)

(** An [add_item] atom appends to the list object of the state, in place. *)
Lemma apply_state_changes_appends state rules w d item l :
  is_Some (states w !! state) ->
  inventory (state_at w state) = Some l ->
  dict_get d "atom" = Some (VStr "add_item") ->
  default VNone (dict_get d "item") = item ->
  (Z.of_nat (length (list_at w l)) < INVENTORY_LIMIT rules)%Z ->
  list_contains (list_at w l) item = false ->
  exists new_state w',
    apply_state_changes state (VList [VDict d]) rules w = (Ok new_state, w')
    /\ list_at w' l = list_at w l ++ [item]
    /\ (forall l', is_Some (states w !! l') -> states w' !! l' = states w !! l').
Proof.
  intros Hstate Hinv Hatom Hitem Hlen Habsent. apply Z.leb_gt in Hlen.
  destruct (apply_state_changes_run state (VDict d) [] rules w)
    as (w1 & ns & inv & fl & Hent & Hrun).
  rewrite Hrun. clear Hrun. rewrite for_each_one.
  rewrite (apply_change_add_item rules ns inv fl d w1 item Hatom Hitem).
  pose proof (entered_inventory _ _ _ _ _ _ Hent) as Hl.
  unfold inventory_of in Hl. rewrite Hinv in Hl.
  pose proof (entered_inventory_alias _ _ _ _ _ _ Hent) as Halias.
  rewrite Hinv in Halias. destruct Halias as [-> Hlists].
  rewrite Hl, Hlen, Habsent.
  do 2 eexists. split; [reflexivity |]. split; [by autorewrite with store |].
  intros l' Hl'. simpl. rewrite (entered_states _ _ _ _ _ _ Hent).
  assert (ns <> l').
  { rewrite (entered_new _ _ _ _ _ _ Hent). by apply fresh_state_ne. }
  by rewrite !lookup_insert_ne.
Qed.

Lemma main_start_new start k :
  disk k = NoFile ->
  main_start start k
  = (Ok (fresh (dom (states (store k)))),
     Machine (set_state (fresh (dom (states (store k))))
                (with_turns 0 (state_at (store k) start)) (store k))
       NoFile (screen k ++ [StartingNew])).
Proof.
  intros Hdisk. unfold main_start, sbind at 1, load_json. rewrite Hdisk. simpl.
  unfold sbind, liftM, new_game, bind, dict_copy, setitem, bind, read_state, write_state, ret.
  simpl. by rewrite state_at_set_state, set_state_twice, Hdisk.
Qed.

(** X16. A new game shares its inventory with the rules.  Without a save
    file the game starts from a copy of [rules["START"]] with the turn
    counter at 0; the copy is shallow, so the first item that is picked up
    is appended to the inventory of [rules["START"]] itself. *)
Theorem new_game_shares_the_template start rules k d item l :
  disk k = NoFile ->
  is_Some (states (store k) !! start) ->
  inventory (state_at (store k) start) = Some l ->
  dict_get d "atom" = Some (VStr "add_item") ->
  default VNone (dict_get d "item") = item ->
  (Z.of_nat (length (inventory_of (store k) start)) < INVENTORY_LIMIT rules)%Z ->
  list_contains (inventory_of (store k) start) item = false ->
  exists state k1,
    main_start start k = (Ok state, k1)
    /\ state <> start
    /\ turns (state_at (store k1) state) = Some 0%Z
    /\ location (state_at (store k1) state) = location (state_at (store k) start)
    /\ hp (state_at (store k1) state) = hp (state_at (store k) start)
    /\ exists new_state w2,
         apply_state_changes state (VList [VDict d]) rules (store k1) = (Ok new_state, w2)
         /\ inventory_of w2 start = inventory_of (store k) start ++ [item].
Proof.
  intros Hdisk Hstart Hinv Hatom Hitem Hlen Habsent.
  unfold inventory_of in Hlen, Habsent. rewrite Hinv in Hlen, Habsent.
  rewrite (main_start_new start k Hdisk).
  set (state := fresh (dom (states (store k)))).
  set (w1 := set_state state (with_turns 0 (state_at (store k) start)) (store k)).
  assert (Hne : state <> start) by (by apply fresh_state_ne).
  do 2 eexists. split; [reflexivity |]. simpl.
  assert (Hst : state_at w1 state = with_turns 0 (state_at (store k) start))
    by apply state_at_set_state.
  rewrite Hst. do 4 (split; [done |]).
  destruct (apply_state_changes_appends state rules w1 d item l) as (ns & w2 & Hcall & Hl & Hframe);
    try done.
  - unfold w1. simpl. rewrite lookup_insert_eq. by eexists.
  - by rewrite Hst.
  - exists ns, w2. split; [exact Hcall |].
    unfold inventory_of, state_at. rewrite Hframe.
    + unfold w1. simpl. rewrite lookup_insert_ne by done.
      fold (state_at (store k) start). rewrite Hinv. exact Hl.
    + unfold w1. simpl. by rewrite lookup_insert_ne.
Qed.

Lemma new_game_shares_the_template_witness :
  exists state k1,
    main_start 0%nat start_machine = (Ok state, k1)
    /\ turns (state_at (store k1) state) = Some 0%Z
    /\ exists new_state w2,
         apply_state_changes state (VList [VDict add_sword]) roomy_rules (store k1)
         = (Ok new_state, w2)
         /\ inventory_of w2 0%nat = [VStr "sword"].
Proof.
  destruct (new_game_shares_the_template 0%nat roomy_rules start_machine add_sword
              (VStr "sword") 0%nat) as (st & k1 & H1 & _ & H2 & _ & _ & H3);
    try reflexivity.
  - eexists. reflexivity.
  - exists st, k1. auto.
Defined.

(** ** Equality of values is transitive *)

Lemma dyadic_shift ma a mb b K :
  (K <= Z.min a b)%Z ->
  (ma * 2 ^ (a - Z.min a b) = mb * 2 ^ (b - Z.min a b))%Z <->
  (ma * 2 ^ (a - K) = mb * 2 ^ (b - K))%Z.
Proof.
  intros HK. set (k := Z.min a b) in *.
  assert (Ha : (a - K = (a - k) + (k - K))%Z) by lia.
  assert (Hb : (b - K = (b - k) + (k - K))%Z) by lia.
  rewrite Ha, Hb, !Z.pow_add_r by lia. rewrite !Z.mul_assoc.
  assert (Hpos : (2 ^ (k - K) <> 0)%Z) by (apply Z.pow_nonzero; lia).
  split; [by intros -> |]. intros H. by apply Z.mul_cancel_r in H.
Qed.

Lemma dyadic_eqb_trans m1 e1 m2 e2 m3 e3 :
  dyadic_eqb m1 e1 m2 e2 = true -> dyadic_eqb m2 e2 m3 e3 = true ->
  dyadic_eqb m1 e1 m3 e3 = true.
Proof.
  unfold dyadic_eqb. rewrite !Z.eqb_eq. intros H12 H23.
  set (K := Z.min e1 (Z.min e2 e3)).
  apply (dyadic_shift m1 e1 m2 e2 K) in H12; [| lia].
  apply (dyadic_shift m2 e2 m3 e3 K) in H23; [| lia].
  apply (dyadic_shift m1 e1 m3 e3 K); [lia |]. congruence.
Qed.

Lemma float_eqb_trans f g h :
  float_eqb f g = true -> float_eqb g h = true -> float_eqb f h = true.
Proof.
  destruct f as [| a | m1 e1], g as [| b | m2 e2], h as [| c | m3 e3]; simpl; try done.
  - by destruct a, b, c.
  - apply dyadic_eqb_trans.
Qed.

Lemma existsb_forallb_trans {A} (R : A -> A -> bool) (la lb lc : list A) :
  (forall x y z, In x la -> R x y = true -> R y z = true -> R x z = true) ->
  forallb (fun x => existsb (fun y => R x y) lb) la = true ->
  forallb (fun y => existsb (fun z => R y z) lc) lb = true ->
  forallb (fun x => existsb (fun z => R x z) lc) la = true.
Proof.
  intros Htrans. rewrite !forallb_forall. intros Hab Hbc x Hx.
  destruct (proj1 (existsb_exists _ _) (Hab x Hx)) as (y & Hy & Hxy).
  destruct (proj1 (existsb_exists _ _) (Hbc y Hy)) as (z & Hz & Hyz).
  apply existsb_exists. exists z. split; [done |]. by eapply Htrans.
Qed.

Lemma forallb_existsb_trans {A} (R : A -> A -> bool) (la lb lc : list A) :
  (forall x y z, In x la -> R x y = true -> R y z = true -> R x z = true) ->
  forallb (fun y => existsb (fun x => R x y) la) lb = true ->
  forallb (fun z => existsb (fun y => R y z) lb) lc = true ->
  forallb (fun z => existsb (fun x => R x z) la) lc = true.
Proof.
  intros Htrans. rewrite !forallb_forall. intros Hab Hbc z Hz.
  destruct (proj1 (existsb_exists _ _) (Hbc z Hz)) as (y & Hy & Hyz).
  destruct (proj1 (existsb_exists _ _) (Hab y Hy)) as (x & Hx & Hxy).
  apply existsb_exists. exists x. split; [done |]. by eapply Htrans.
Qed.

Lemma py_eq_trans a b c : py_eq a b = true -> py_eq b c = true -> py_eq a c = true.
Proof.
  revert b c.
  induction a as [| x | n | f | s | l IH | d IH] using value_nested_ind; intros b c.
  - by destruct b, c.
  - destruct b as [| y | n' | [] | | |], c as [| z | n'' | [] | | |]; simpl; try done;
      apply dyadic_eqb_trans.
  - destruct b as [| y | n' | [] | | |], c as [| z | n'' | [] | | |]; simpl; try done;
      apply dyadic_eqb_trans.
  - destruct b as [| y | n' | g | | |], c as [| z | n'' | h | | |]; simpl; try done;
      try (apply (float_eqb_trans f (FFin _ 0) (FFin _ 0)));
      try (apply (float_eqb_trans f (FFin _ 0)));
      try (apply (float_eqb_trans f g (FFin _ 0)));
      try (apply float_eqb_trans).
  - destruct b, c; simpl; try done.
    intros ->%String.eqb_eq. done.
  - destruct b as [| | | | | l' |], c as [| | | | | l'' |]; simpl; try done.
    revert l' l''. induction IH as [| x r Hx _ IHr];
      intros [| y r'] [| z r'']; try done.
    intros [Hxy Hr]%andb_prop [Hyz Hr']%andb_prop.
    rewrite (Hx y z Hxy Hyz). simpl. by apply (IHr r' r'').
  - destruct b as [| | | | | | d'], c as [| | | | | | d'']; simpl; try done.
    rewrite Forall_forall in IH.
    assert (Htrans : forall x y z : string * value, In x d ->
              String.eqb x.1 y.1 && py_eq x.2 y.2 = true ->
              String.eqb y.1 z.1 && py_eq y.2 z.2 = true ->
              String.eqb x.1 z.1 && py_eq x.2 z.2 = true).
    { intros x y z Hx [Hk Hv]%andb_prop [Hk' Hv']%andb_prop.
      apply String.eqb_eq in Hk, Hk'. rewrite Hk, Hk', String.eqb_refl. simpl.
      eapply (IH x); [by apply list_elem_of_In | exact Hv | exact Hv']. }
    intros [H1 H2]%andb_prop [H3 H4]%andb_prop. apply andb_true_intro. split.
    + by apply (existsb_forallb_trans
                  (fun x y : string * value => String.eqb x.1 y.1 && py_eq x.2 y.2) d d' d'').
    + by apply (forallb_existsb_trans
                  (fun x y : string * value => String.eqb x.1 y.1 && py_eq x.2 y.2) d d' d'').
Qed.

(** ** Looking for an item after adding or removing it *)

Lemma list_contains_py_eq l x y :
  py_eq x y = true -> list_contains l x = list_contains l y.
Proof.
  intros Hxy. unfold list_contains. apply existsb_ext_in. intros e _.
  destruct (py_eq e x) eqn:Hex, (py_eq e y) eqn:Hey; try done.
  - by rewrite (py_eq_trans e x y Hex Hxy) in Hey.
  - rewrite py_eq_sym in Hxy. by rewrite (py_eq_trans e y x Hey Hxy) in Hex.
Qed.

Lemma list_remove_gone l x l' :
  no_duplicates l = true -> list_remove l x = Some l' -> list_contains l' x = false.
Proof.
  revert l'. induction l as [| e l IH]; simpl; intros l'; [done |].
  intros [He Hl]%andb_prop. destruct (py_eq e x) eqn:Hex.
  - intros [= <-]. rewrite <- (list_contains_py_eq l e x Hex). by apply negb_true_iff.
  - destruct (list_remove l x) as [r |]; [| done].
    intros [= <-]. simpl. rewrite Hex. simpl. by apply IH.
Qed.

Lemma list_remove_others l x l' y :
  list_remove l x = Some l' -> py_eq y x = false ->
  list_contains l' y = list_contains l y.
Proof.
  revert l'. induction l as [| e l IH]; simpl; intros l'; [done |].
  destruct (py_eq e x) eqn:Hex.
  - intros [= <-] Hyx. destruct (py_eq e y) eqn:Hey; [| done].
    rewrite py_eq_sym in Hey. by rewrite (py_eq_trans y e x Hey Hex) in Hyx.
  - destruct (list_remove l x) as [r |]; [| done].
    intros [= <-] Hyx. simpl. by rewrite (IH r).
Qed.

(** X17. An item that was added is found, an item that was removed is not.
    After a call with an [add_item] atom the item is in the inventory,
    provided there was room for it or it was held already.  After a call
    with a [remove_item] atom on an inventory without duplicates the item is
    not in the inventory, and every other item is found exactly if it was
    found before. *)
Theorem found_after_add_not_after_remove state rules w item :
  (forall add,
     dict_get add "atom" = Some (VStr "add_item") ->
     default VNone (dict_get add "item") = item ->
     (Z.of_nat (length (inventory_of w state)) < INVENTORY_LIMIT rules)%Z
     \/ list_contains (inventory_of w state) item = true ->
     exists new_state w',
       apply_state_changes state (VList [VDict add]) rules w = (Ok new_state, w')
       /\ list_contains (inventory_of w' new_state) item = true)
  /\ (forall remove,
        dict_get remove "atom" = Some (VStr "remove_item") ->
        default VNone (dict_get remove "item") = item ->
        no_duplicates (inventory_of w state) = true ->
        exists new_state w',
          apply_state_changes state (VList [VDict remove]) rules w = (Ok new_state, w')
          /\ list_contains (inventory_of w' new_state) item = false
          /\ forall other,
               py_eq other item = false ->
               list_contains (inventory_of w' new_state) other
               = list_contains (inventory_of w state) other).
Proof.
  split.
  - intros add Hatom Hitem Hroom.
    destruct (apply_state_changes_run state (VDict add) [] rules w)
      as (w1 & ns & inv & fl & Hent & Hrun).
    rewrite Hrun. clear Hrun. rewrite for_each_one.
    rewrite (apply_change_add_item rules ns inv fl add w1 item Hatom Hitem).
    rewrite (entered_inventory _ _ _ _ _ _ Hent).
    destruct (list_contains (inventory_of w state) item) eqn:Hheld.
    + destruct (_ <=? _)%Z; do 2 eexists; (split; [reflexivity |]);
        unfold inventory_of at 1; rewrite state_at_set_state; simpl;
        autorewrite with store; by rewrite (entered_inventory _ _ _ _ _ _ Hent).
    + destruct Hroom as [Hroom | ?]; [| done]. apply Z.leb_gt in Hroom. rewrite Hroom.
      do 2 eexists. split; [reflexivity |].
      unfold inventory_of at 1. rewrite state_at_set_state. simpl.
      autorewrite with store. rewrite list_contains_app. simpl.
      by rewrite py_eq_refl, orb_true_r.
  - intros remove Hatom Hitem Hnd.
    destruct (apply_state_changes_run state (VDict remove) [] rules w)
      as (w1 & ns & inv & fl & Hent & Hrun).
    rewrite Hrun. clear Hrun. rewrite for_each_one.
    rewrite (apply_change_remove_item rules ns inv fl remove w1 item Hatom Hitem).
    rewrite (entered_inventory _ _ _ _ _ _ Hent).
    destruct (list_contains (inventory_of w state) item) eqn:Hheld.
    + destruct (list_remove_found _ _ Hheld) as [l' Hl']. rewrite Hl'.
      do 2 eexists. split; [reflexivity |].
      unfold inventory_of at 1 2. rewrite state_at_set_state. simpl.
      autorewrite with store. split; [by eapply list_remove_gone |].
      intros other Hother. by eapply list_remove_others.
    + do 2 eexists. split; [reflexivity |].
      unfold inventory_of at 1 2. rewrite state_at_set_state. simpl.
      autorewrite with store. by rewrite (entered_inventory _ _ _ _ _ _ Hent).
Qed.

Lemma found_after_add_not_after_remove_witness :
  (exists new_state w',
     apply_state_changes 0%nat (VList [VDict add_sword]) roomy_rules start_world
     = (Ok new_state, w')
     /\ list_contains (inventory_of w' new_state) (VStr "sword") = true)
  /\ (exists new_state w',
        apply_state_changes 0%nat (VList [VDict remove_sword]) roomy_rules crowded_world
        = (Ok new_state, w')
        /\ list_contains (inventory_of w' new_state) (VStr "sword") = false).
Proof.
  split.
  - apply (proj1 (found_after_add_not_after_remove 0%nat roomy_rules start_world
                    (VStr "sword")) add_sword); try reflexivity.
    left. reflexivity.
  - destruct (proj2 (found_after_add_not_after_remove 0%nat roomy_rules crowded_world
                       (VStr "sword")) remove_sword eq_refl eq_refl eq_refl)
      as (ns & w' & Hcall & Hgone & _).
    by exists ns, w'.
Defined.

(** * Properties of the narration on the screen *)

Lemma re_split_eq s :
  re_split s = match next_separator s with
               | (p, None) => [p]
               | (p, Some rest) => p :: re_split rest
               end.
Proof.
  rewrite re_split_equation_1.
  destruct (inspect (next_separator s)) as [[p [rest |]] H];
    (etrans; [| rewrite H; reflexivity]); by simp re_split.
Qed.

Lemma re_split_not_nil s : re_split s <> [].
Proof. rewrite re_split_eq. by destruct (next_separator s) as [p [rest |]]. Qed.

Lemma next_separator_none s p : next_separator s = (p, None) -> p = s.
Proof.
  revert p. induction s as [| c r IH]; simpl; intros p; [by intros [= <-] |].
  destruct (if Ascii.eqb c newline then last_newline r else None); [done |].
  destruct (next_separator r) as [p' o]. intros [= <- ->]. by rewrite (IH p').
Qed.

Lemma join_cons sep p q ps :
  join sep (p :: q :: ps) = p ++ sep ++ join sep (q :: ps).
Proof. done. Qed.

Lemma join_length_cons sep p ps :
  (length (join sep (p :: ps)) <= length p + length sep + length (join sep ps))%nat.
Proof.
  destruct ps as [| q ps]; [simpl; lia |].
  rewrite join_cons, !length_app. lia.
Qed.

Lemma join_take_length sep ps k :
  (length (join sep (take k ps)) <= length (join sep ps))%nat.
Proof.
  revert k. induction ps as [| p ps IH]; intros k; [by destruct k |].
  destruct k as [| k]; [simpl; lia |].
  destruct ps as [| q ps]; [by destruct k |].
  change (take (S k) (p :: q :: ps)) with (p :: take k (q :: ps)).
  rewrite join_cons, !length_app. specialize (IH k).
  pose proof (join_length_cons sep p (take k (q :: ps))). lia.
Qed.

Lemma text_ind (P : list ascii -> Prop) :
  (forall s, (forall r, (length r < length s)%nat -> P r) -> P s) -> forall s, P s.
Proof.
  intros H s. remember (length s) as n eqn:Hn. revert s Hn.
  induction n as [n IH] using lt_wf_ind. intros s ->.
  apply H. intros r Hr. by apply (IH (length r)).
Qed.

Lemma join_re_split_length s :
  (length (join [newline; newline] (re_split s)) <= length s)%nat.
Proof.
  induction s as [s IH] using text_ind. rewrite re_split_eq.
  destruct (next_separator s) as [p [rest |]] eqn:Hs.
  - pose proof (next_separator_length s p rest Hs) as Hlen.
    pose proof (join_length_cons [newline; newline] p (re_split rest)) as Hj.
    assert (length rest < length s)%nat as Hr by lia.
    specialize (IH rest Hr).
    change (length [newline; newline]) with 2%nat in Hj. lia.
  - apply next_separator_none in Hs. by subst.
Qed.

Lemma slice_to_take {A} (l : list A) n : exists k, slice_to l n = take k l.
Proof. unfold slice_to. destruct (0 <=? n)%Z; by eexists. Qed.

Lemma string_length_of_list l :
  String.length (String.string_of_list_ascii l) = length l.
Proof. induction l as [| c l IH]; simpl; [done | by rewrite IH]. Qed.

Lemma length_list_of_string s :
  length (String.list_ascii_of_string s) = String.length s.
Proof. induction s as [| c s IH]; simpl; [done | by rewrite IH]. Qed.

(** X18. The narration on the screen is never longer than the narration
    received, whatever [MAX_PARAGRAPHS] is, negative values included. *)
Theorem trimmed_narration_is_no_longer narration max_paragraphs :
  (String.length (trimmed_narration narration max_paragraphs)
   <= String.length narration)%nat.
Proof.
  unfold trimmed_narration. rewrite string_length_of_list.
  destruct (slice_to_take (re_split (String.list_ascii_of_string narration))
              max_paragraphs) as [k ->].
  etrans; [apply join_take_length |].
  etrans; [apply join_re_split_length |]. by rewrite length_list_of_string.
Qed.

(** *** The shape of the paragraphs *)

Lemma last_newline_stops q y :
  last_newline (q ++ newline :: y) = None -> forall z, last_newline (q ++ z) = None.
Proof.
  induction q as [| c q IH]; simpl.
  - change (re_space newline) with true. simpl. by destruct (last_newline y).
  - destruct (re_space c); [| done].
    destruct (last_newline (q ++ newline :: y)) eqn:Hq; [done |].
    destruct (Ascii.eqb c newline); [done |].
    intros _ z. by rewrite (IH eq_refl z).
Qed.

Lemma last_newline_tight r rest :
  last_newline r = Some rest -> last_newline rest = None.
Proof.
  revert rest. induction r as [| c r IH]; simpl; intros rest; [done |].
  destruct (re_space c); [| done].
  destruct (last_newline r) as [x |] eqn:Hr.
  - intros [= <-]. by apply IH.
  - destruct (Ascii.eqb c newline); [| done]. by intros [= <-].
Qed.

Lemma last_newline_white r rest :
  last_newline r = Some rest ->
  exists w, r = w ++ newline :: rest /\ Forall (fun c => re_space c = true) w.
Proof.
  revert rest. induction r as [| c r IH]; simpl; intros rest; [done |].
  destruct (re_space c) eqn:Hc; [| done].
  destruct (last_newline r) as [x |] eqn:Hr.
  - intros [= <-]. destruct (IH x eq_refl) as (w & -> & Hw).
    exists (c :: w). split; [done | by constructor].
  - destruct (Ascii.eqb c newline) eqn:Hn; [| done]. intros [= <-].
    apply Ascii.eqb_eq in Hn as ->. by exists [].
Qed.

Lemma white_last_newline w b :
  Forall (fun c => re_space c = true) w -> is_Some (last_newline (w ++ newline :: b)).
Proof.
  induction 1 as [| c w Hc _ IH]; simpl.
  - change (re_space newline) with true. simpl. by destruct (last_newline b).
  - rewrite Hc. destruct IH as [x ->]. done.
Qed.

(** The parts of the first match. *)
Lemma next_separator_some s p rest :
  next_separator s = (p, Some rest) ->
  exists r, s = p ++ newline :: r /\ last_newline r = Some rest /\ closed p.
Proof.
  revert p. induction s as [| c s IH]; simpl; intros p; [done |].
  destruct (Ascii.eqb c newline) eqn:Hc.
  - apply Ascii.eqb_eq in Hc as ->. destruct (last_newline s) as [x |] eqn:Hx.
    + intros [= <- <-]. exists s. by repeat split.
    + destruct (next_separator s) as [p' o] eqn:Hs. intros [= <- ->].
      destruct (IH p' eq_refl) as (r & -> & Hr & Hp). exists r. repeat split; [done |].
      unfold closed in *. simpl. change (Ascii.eqb newline newline) with true.
      rewrite (last_newline_stops p' r Hx [newline]).
      by destruct (next_separator (p' ++ [newline])) as [? ?]; simpl in *; subst.
  - destruct (next_separator s) as [p' o] eqn:Hs. intros [= <- ->].
    destruct (IH p' eq_refl) as (r & -> & Hr & Hp). exists r. repeat split; [done |].
    unfold closed in *. simpl. rewrite Hc.
    by destruct (next_separator (p' ++ [newline])) as [? ?]; simpl in *; subst.
Qed.

Lemma closed_no_separator p : closed p -> (next_separator p).2 = None.
Proof.
  unfold closed. induction p as [| c p IH]; simpl; [done |].
  destruct (Ascii.eqb c newline) eqn:Hc.
  - apply Ascii.eqb_eq in Hc as ->.
    destruct (last_newline (p ++ [newline])) eqn:Hp; [done |].
    pose proof (last_newline_stops p [] Hp []) as H0. rewrite app_nil_r in H0. rewrite H0.
    destruct (next_separator (p ++ [newline])) as [? ?], (next_separator p) as [? ?].
    simpl in *. auto.
  - destruct (next_separator (p ++ [newline])) as [? ?], (next_separator p) as [? ?].
    simpl in *. auto.
Qed.

(** A closed paragraph, an empty line, and a text that does not start
    with a blank line: the match is the empty line. *)
Lemma next_separator_join p x :
  closed p -> last_newline x = None ->
  next_separator (p ++ newline :: newline :: x) = (p, Some x).
Proof.
  unfold closed. intros Hp Hx. induction p as [| c p IH]; simpl in *.
  - change (Ascii.eqb newline newline) with true.
    change (re_space newline) with true. by rewrite Hx.
  - destruct (Ascii.eqb c newline) eqn:Hc.
    + destruct (last_newline (p ++ [newline])) eqn:Hl; [done |].
      rewrite (last_newline_stops p [] Hl (newline :: newline :: x)).
      destruct (next_separator (p ++ [newline])) as [? o]. simpl in Hp. subst o.
      by rewrite (IH eq_refl).
    + destruct (next_separator (p ++ [newline])) as [? o]. simpl in Hp. subst o.
      by rewrite (IH eq_refl).
Qed.

Lemma join_blank p q ps :
  join [newline; newline] (p :: q :: ps)
  = p ++ newline :: newline :: join [newline; newline] (q :: ps).
Proof. done. Qed.

Lemma re_split_join ps :
  ps <> [] -> canon ps -> re_split (join [newline; newline] ps) = ps.
Proof.
  induction ps as [| p ps IH]; [done |]. intros _ Hc.
  destruct ps as [| q ps].
  - simpl in *. rewrite re_split_eq.
    destruct (next_separator p) as [p' o] eqn:Hp. simpl in Hc. subst o.
    by rewrite (next_separator_none _ _ Hp).
  - destruct Hc as (Hp & Hx & Hc). rewrite join_blank.
    rewrite re_split_eq, (next_separator_join p _ Hp Hx).
    by rewrite IH.
Qed.

Lemma re_split_tight x :
  last_newline x = None -> last_newline (join [newline; newline] (re_split x)) = None.
Proof.
  intros Hx. rewrite re_split_eq. destruct (next_separator x) as [p [rest |]] eqn:Hs.
  - destruct (next_separator_some _ _ _ Hs) as (r & -> & _ & _).
    destruct (re_split rest) as [| q qs] eqn:Hq; [by apply re_split_not_nil in Hq |].
    rewrite join_cons. by apply (last_newline_stops p r).
  - by rewrite (next_separator_none _ _ Hs).
Qed.

Lemma re_split_canon s : canon (re_split s).
Proof.
  induction s as [s IH] using text_ind. rewrite re_split_eq.
  destruct (next_separator s) as [p [rest |]] eqn:Hs.
  - destruct (next_separator_some _ _ _ Hs) as (r & -> & Hr & Hp).
    pose proof (next_separator_length _ _ _ Hs) as Hlen.
    assert (canon (re_split rest)) as Hc by (apply IH; lia).
    destruct (re_split rest) as [| q qs] eqn:Hq; [by apply re_split_not_nil in Hq |].
    split; [done |]. split; [| done]. rewrite <- Hq.
    by apply re_split_tight, (last_newline_tight r).
  - pose proof (next_separator_none _ _ Hs). subst p. simpl. by rewrite Hs.
Qed.

Lemma join_tight_take q ps k :
  last_newline (join [newline; newline] (q :: ps)) = None ->
  last_newline (join [newline; newline] (take (S k) (q :: ps))) = None.
Proof.
  destruct ps as [| r ps]; [by destruct k |].
  rewrite join_blank. intros H.
  change (take (S k) (q :: r :: ps)) with (q :: take k (r :: ps)).
  destruct k as [| k].
  - simpl. pose proof (last_newline_stops q _ H []) as H0. by rewrite app_nil_r in H0.
  - change (take (S k) (r :: ps)) with (r :: take k ps).
    rewrite join_cons. by apply (last_newline_stops q _ H).
Qed.

Lemma canon_take ps k : canon ps -> canon (take (S k) ps).
Proof.
  revert k. induction ps as [| p ps IH]; intros k; [done |].
  destruct ps as [| q ps]; [by destruct k |].
  intros (Hp & Hx & Hc).
  change (take (S k) (p :: q :: ps)) with (p :: take k (q :: ps)).
  destruct k as [| k]; [by apply closed_no_separator |].
  change (take (S k) (q :: ps)) with (q :: take k ps) at 1.
  split; [done |]. split.
  - change (q :: take k ps) with (take (S k) (q :: ps)). by apply join_tight_take.
  - change (q :: take k ps) with (take (S k) (q :: ps)). by apply IH.
Qed.

(** X19. The screen shows the paragraphs that were kept and no other:
    when any paragraph is kept, cutting the printed text into paragraphs
    gives back the paragraphs kept.  So with [MAX_PARAGRAPHS] at least 1
    the printed text has at most that many paragraphs. *)
Theorem printed_paragraphs_are_the_kept_ones narration max_paragraphs :
  (0 < length (slice_to (paragraphs narration) max_paragraphs))%nat ->
  paragraphs (trimmed_narration narration max_paragraphs)
  = slice_to (paragraphs narration) max_paragraphs
  /\ ((1 <= max_paragraphs)%Z ->
      (Z.of_nat (length (paragraphs (trimmed_narration narration max_paragraphs)))
       <= max_paragraphs)%Z).
Proof.
  unfold paragraphs, characters, trimmed_narration. intros Hkept.
  rewrite String.list_ascii_of_string_of_list_ascii.
  set (ps := re_split (String.list_ascii_of_string narration)) in *.
  assert (re_split (join [newline; newline] (slice_to ps max_paragraphs))
          = slice_to ps max_paragraphs) as Heq.
  { destruct (slice_to_take ps max_paragraphs) as [k Hk]. rewrite Hk in *.
    destruct k as [| k]; [rewrite take_0 in Hkept; simpl in Hkept; lia |].
    apply re_split_join.
    - intros Hnil. rewrite Hnil in Hkept. simpl in Hkept. lia.
    - apply canon_take, re_split_canon. }
  split; [done |]. intros Hn. rewrite Heq. unfold slice_to.
  destruct (0 <=? max_paragraphs)%Z eqn:H0; [| lia].
  rewrite length_take. lia.
Qed.

Lemma printed_paragraphs_are_the_kept_ones_witness :
  paragraphs (trimmed_narration tale 2)
  = [String.list_ascii_of_string "You enter the cave.";
     String.list_ascii_of_string "A bat stirs."].
Proof.
  destruct (printed_paragraphs_are_the_kept_ones tale 2) as [H _].
  - vm_compute. lia.
  - rewrite H. reflexivity.
Defined.

(** *** Blank lines *)

Lemma blank_line_separator s :
  has_blank_line s -> is_Some (next_separator s).2.
Proof.
  intros (a & w & b & -> & Hw). induction a as [| c a IH]; simpl.
  - change (Ascii.eqb newline newline) with true.
    by destruct (white_last_newline w b Hw) as [x ->].
  - destruct (if Ascii.eqb c newline then _ else _); [done |].
    by destruct (next_separator (a ++ newline :: w ++ newline :: b)).
Qed.

Lemma separator_blank_line s p rest :
  next_separator s = (p, Some rest) ->
  exists w, s = p ++ newline :: w ++ newline :: rest
            /\ Forall (fun c => re_space c = true) w
            /\ ~ has_blank_line p.
Proof.
  intros Hs. destruct (next_separator_some _ _ _ Hs) as (r & -> & Hr & Hp).
  destruct (last_newline_white _ _ Hr) as (w & -> & Hw).
  exists w. repeat split; [done |].
  intros [x Hx]%blank_line_separator. by rewrite (closed_no_separator p Hp) in Hx.
Qed.

Lemma no_blank_line s :
  ~ has_blank_line s <-> next_separator s = (s, None).
Proof.
  split.
  - intros Hs. destruct (next_separator s) as [p [rest |]] eqn:Heq.
    + destruct (separator_blank_line _ _ _ Heq) as (w & -> & Hw & _).
      destruct Hs. by exists p, w, rest.
    + by rewrite (next_separator_none _ _ Heq).
  - intros Heq [x Hx]%blank_line_separator. by rewrite Heq in Hx.
Qed.

(** X20. A narration without a blank line is shown whole or not at all: it
    is one paragraph, printed as it is when [MAX_PARAGRAPHS] is at least 1
    and replaced by the empty text when it is zero or negative. *)
Theorem narration_without_blank_line narration max_paragraphs :
  ~ has_blank_line (characters narration) ->
  trimmed_narration narration max_paragraphs
  = if (1 <=? max_paragraphs)%Z then narration else EmptyString.
Proof.
  unfold characters. intros Hs%no_blank_line. unfold trimmed_narration.
  rewrite re_split_eq, Hs. unfold slice_to.
  destruct (1 <=? max_paragraphs)%Z eqn:H1.
  - apply Z.leb_le in H1. destruct (0 <=? max_paragraphs)%Z eqn:H0; [| lia].
    destruct (Z.to_nat max_paragraphs) as [| k] eqn:Hk; [lia |].
    simpl. by rewrite take_nil, String.string_of_list_ascii_of_string.
  - apply Z.leb_gt in H1. destruct (0 <=? max_paragraphs)%Z eqn:H0.
    + apply Z.leb_le in H0. by replace max_paragraphs with 0%Z by lia.
    + simpl length.
      by replace (Z.to_nat (Z.of_nat 1 + max_paragraphs)) with 0%nat by lia.
Qed.

Lemma narration_without_blank_line_witness :
  trimmed_narration "A bat stirs." 3 = "A bat stirs."%string
  /\ trimmed_narration "A bat stirs." (-1) = EmptyString.
Proof.
  assert (~ has_blank_line (characters "A bat stirs.")) as H
    by (apply no_blank_line; reflexivity).
  split.
  - exact (narration_without_blank_line "A bat stirs." 3 H).
  - exact (narration_without_blank_line "A bat stirs." (-1) H).
Defined.

(** X21. With [MAX_PARAGRAPHS] equal to 1 the screen shows the narration
    up to its first blank line: the printed text has no blank line, and in
    the narration it is followed by nothing, or by a newline, white space
    and a newline. *)
Theorem one_paragraph_is_the_text_before_the_blank_line narration :
  ~ has_blank_line (characters (trimmed_narration narration 1))
  /\ (characters narration = characters (trimmed_narration narration 1)
      \/ exists w rest,
           characters narration
           = characters (trimmed_narration narration 1) ++ newline :: w ++ newline :: rest
           /\ Forall (fun c => re_space c = true) w).
Proof.
  unfold characters, trimmed_narration. rewrite re_split_eq.
  destruct (next_separator (String.list_ascii_of_string narration))
    as [p [rest |]] eqn:Hs; simpl;
    rewrite String.list_ascii_of_string_of_list_ascii.
  - destruct (separator_blank_line _ _ _ Hs) as (w & Heq & Hw & Hp).
    split; [done |]. right. by exists w, rest.
  - pose proof (next_separator_none _ _ Hs). subst p.
    split; [by apply no_blank_line | by left].
Qed.

(** * Properties of a turn *)

(** A turn on a response that is an object: the counter, the atoms, then
    the narration. *)
Lemma main_turn_run state d rules w t :
  turns (state_at w state) = Some t ->
  main_turn state (Decoded (VDict d)) rules w
  = match apply_state_changes state (default (VList []) (dict_get d "state_change")) rules
            (set_state state (with_turns (t + 1) (state_at w state)) w) with
    | (Ok st, w2) =>
        match default (VStr "(The AI provided no narration.)") (dict_get d "narration") with
        | VStr text => (Ok st, emit (Narration text (MAX_PARAGRAPHS rules)) w2)
        | _ => (Raise TypeError, w2)
        end
    | (Raise e, w2) => (Raise e, w2)
    end.
Proof.
  intros Ht.
  unfold main_turn, getitem, bind at 1, read_state, bind at 1. rewrite Ht.
  unfold ret, setitem, bind at 1, read_state, bind at 1, write_state, bind at 1.
  unfold call_ollama, ret, bind at 1, lift. simpl.
  unfold bind, print.
  destruct (apply_state_changes _ _ _ _) as [[st | e] w2]; [| done].
  by destruct (default (VStr "(The AI provided no narration.)") (dict_get d "narration")).
Qed.



(** X23. A narration that is not a string ends the game, and does so after
    the atoms: such a turn never completes, and when the atoms themselves
    are applied without an error the turn raises [TypeError] in the world
    that the atoms left, the turn counted and nothing printed for the
    narration. *)
Theorem narration_that_is_no_string state d rules w narration :
  dict_get d "narration" = Some narration ->
  (forall text, narration <> VStr text) ->
  (forall r w', main_turn state (Decoded (VDict d)) rules w = (r, w') ->
                exists e, r = Raise e)
  /\ (forall t new_state w1,
        turns (state_at w state) = Some t ->
        apply_state_changes state (default (VList []) (dict_get d "state_change")) rules
          (set_state state (with_turns (t + 1) (state_at w state)) w)
        = (Ok new_state, w1) ->
        main_turn state (Decoded (VDict d)) rules w = (Raise TypeError, w1)).
Proof.
  intros Hget Hno. split.
  - intros r w'. destruct (turns (state_at w state)) as [t |] eqn:Ht.
    + rewrite (main_turn_run state d rules w t Ht), Hget. simpl.
      destruct (apply_state_changes _ _ _ _) as [[st | e] w2].
      * destruct narration; try (intros [= <- _]; by eexists). by destruct (Hno s).
      * intros [= <- _]. by eexists.
    + unfold main_turn, getitem, bind at 1, read_state, bind at 1. rewrite Ht.
      intros [= <- _]. by eexists.
  - intros t new_state w1 Ht Hcall.
    rewrite (main_turn_run state d rules w t Ht), Hcall, Hget. simpl.
    destruct narration; try done. by destruct (Hno s).
Qed.

Lemma narration_that_is_no_string_witness :
  main_turn 0%nat
    (Decoded (VDict [("narration", VInt 7);
                     ("state_change", VList [VDict add_sword])]))
    roomy_rules start_world
  = (Raise TypeError,
     (apply_state_changes 0%nat (VList [VDict add_sword]) roomy_rules
        (set_state 0%nat (with_turns 1 (state_at start_world 0%nat)) start_world)).2).
Proof.
  apply (proj2 (narration_that_is_no_string 0%nat
                  [("narration", VInt 7); ("state_change", VList [VDict add_sword])]
                  roomy_rules start_world (VInt 7) eq_refl
                  (fun text H => eq_ind (VInt 7)
                     (fun v => match v with VInt _ => True | _ => False end) I _ H))
           0%Z 1%nat); reflexivity.
Defined.
